(** * MFEM example 23p: the PML construction of [examples/ex23p.cpp]

    A shallow embedding of the free functions of [ex23p.cpp] that build the
    perfectly matched layer: the layer geometry ([compute_pml_mesh_data]),
    the element classifier ([compute_pml_elem_list]), the complex stretching
    function ([pml_function]) with the scalar coefficient derived from it
    ([pml_detJ_inv_Re], [pml_detJ_inv_Im]) and the matrix coefficients
    ([pml_detJ_JT_J_inv_Re], [pml_detJ_JT_J_inv_Im], [pml_detJ_inv_JT_J_Re],
    [pml_detJ_inv_JT_J_Im]), the closed-form excitations
    ([maxwell_ess_data], [E_bdr_data_Re], [E_bdr_data_Im]), the load
    ([source_im]) and the part of [main] that sets the globals.

    The C++ type [double] is a parameter of the embedding (class
    [DoubleOps]); every function is written once over it.  Two instances
    are given: the real numbers, which read the formulas in exact
    arithmetic, and IEEE binary64 (Rocq's primitive floats), which computes
    what the program computes, infinities and NaN included.  An access
    outside the bounds of a [Vector], [std::vector] or [Array2D] is
    undefined behaviour in the source; the embedding returns [None] there. *)

From Stdlib Require Import ZArith QArith Reals Lra Lia Floats.
From stdpp Require Import base option list.

Set Default Proof Using "Type".

(** ** The arithmetic of [double] *)

(** The operations on [double] the example uses: the arithmetic operators,
    the comparisons, and the functions of [<cmath>] it calls.  [of_Z] is the
    conversion of an integer constant. *)
Class DoubleOps (D : Type) := {
  of_Z : Z -> D;
  dadd : D -> D -> D;
  dsub : D -> D -> D;
  dmul : D -> D -> D;
  ddiv : D -> D -> D;
  dneg : D -> D;
  dlt : D -> D -> bool;
  dle : D -> D -> bool;
  deq : D -> D -> bool;
  fabs : D -> D;
  sqrt : D -> D;
  pow : D -> D -> D;
  exp : D -> D;
  sin : D -> D;
  cos : D -> D;
  jn : Z -> D -> D;
  yn : Z -> D -> D;
  M_PI : D
}.

Declare Scope dbl_scope.
Delimit Scope dbl_scope with dbl.
Notation "x + y" := (dadd x y) : dbl_scope.
Notation "x - y" := (dsub x y) : dbl_scope.
Notation "x * y" := (dmul x y) : dbl_scope.
Notation "x / y" := (ddiv x y) : dbl_scope.
Notation "- x" := (dneg x) : dbl_scope.
Notation "x <? y" := (dlt x y) : dbl_scope.
Notation "x <=? y" := (dle x y) : dbl_scope.
Notation "x >? y" := (dlt y x) : dbl_scope.
Notation "x >=? y" := (dle y x) : dbl_scope.
Notation "x =? y" := (deq x y) : dbl_scope.

(** A decimal constant of the source, such as [0.25] or [1e-13]: the
    quotient of two integers that [double] holds exactly, so that the one
    division rounds it as the compiler does. *)
Definition lit {D : Type} {ops : DoubleOps D} (q : Q) : D :=
  ddiv (of_Z (Qnum q)) (of_Z (Zpos (Qden q))).
Arguments lit {D ops} q%_Q.

(** ** [std::complex<double>] *)

Record complex (D : Type) := Cx { real : D; imag : D }.
Arguments Cx {D} _ _.
Arguments real {D} _.
Arguments imag {D} _.

Section Complex.
Context {D : Type} {ops : DoubleOps D}.
Local Open Scope dbl_scope.

Definition czero : complex D := Cx (lit 0) (lit 0).
Definition cone : complex D := Cx (lit 1) (lit 0).
Definition zi : complex D := Cx (lit 0) (lit 1).
(** [complex<double> z = a] for a [double] [a]. *)
Definition cdbl (a : D) : complex D := Cx a (lit 0).

Definition cneg (z : complex D) : complex D := Cx (- real z) (- imag z).
Definition cadd (z w : complex D) : complex D :=
  Cx (real z + real w) (imag z + imag w).
Definition csub (z w : complex D) : complex D :=
  Cx (real z - real w) (imag z - imag w).
(** [z * w] and [z / w] of two complex numbers, by their definitions,
    which is what they are over the reals.  In binary64 the library scales
    the quotient, rounds in its own order and recovers infinities from a
    result [NaN + NaN i]; none of this is part of the model, which agrees
    with the library where the operands are exact and no infinity is
    involved, as for the operands [1 + 0i] and [NaN + NaN i]. *)
Definition cmul (z w : complex D) : complex D :=
  Cx (real z * real w - imag z * imag w) (real z * imag w + imag z * real w).
Definition cdiv (z w : complex D) : complex D :=
  let d := real w * real w + imag w * imag w in
  Cx ((real z * real w + imag z * imag w) / d)
     ((imag z * real w - real z * imag w) / d).
(** The mixed operators: a complex and a [double]. *)
Definition cmul_d (z : complex D) (a : D) : complex D :=
  Cx (real z * a) (imag z * a).
Definition dmul_c (a : D) (z : complex D) : complex D :=
  Cx (a * real z) (a * imag z).
Definition cdiv_d (z : complex D) (a : D) : complex D :=
  Cx (real z / a) (imag z / a).
Definition cadd_d (z : complex D) (a : D) : complex D :=
  Cx (real z + a) (imag z).
Definition dadd_c (a : D) (z : complex D) : complex D :=
  Cx (a + real z) (imag z).
Definition csub_d (z : complex D) (a : D) : complex D :=
  Cx (real z - a) (imag z).
Definition dsub_c (a : D) (z : complex D) : complex D :=
  Cx (a - real z) (- imag z).
(** [std::exp] of a complex number: [polar(exp(re), im)]. *)
Definition cexp (z : complex D) : complex D :=
  Cx (exp (real z) * cos (imag z)) (exp (real z) * sin (imag z)).
End Complex.

(** ** Loops and containers *)

(** [for (i = ...; ...; ++i) body], over the indices of [l] in order, the
    state threaded through; an undefined step ends the run. *)
Fixpoint for_each {S : Type} (l : list nat) (body : nat -> S -> option S)
    (s : S) : option S :=
  match l with
  | [] => Some s
  | i :: l' => s' ← body i s; for_each l' body s'
  end.

(** [for (int i = 0; i < n; ++i) body]. *)
Definition for_loop {S : Type} (n : nat) (body : nat -> S -> option S)
    (s : S) : option S :=
  for_each (seq 0 n) body s.

(** A loop whose body is [if (test) { flag = true; break; }]: the tests
    after the first that holds are not evaluated. *)
Fixpoint any_break (l : list nat) (test : nat -> option bool) : option bool :=
  match l with
  | [] => Some false
  | i :: l' => b ← test i; if (b : bool) then Some true else any_break l' test
  end.

(** [v[i] = a] on a [Vector] or a [std::vector]. *)
Definition vset {A : Type} (v : list A) (i : nat) (a : A) : option (list A) :=
  if decide (i < length v)%nat then Some (<[i := a]> v) else None.

(** [Array2D<double>], declared by the library in general/array.hpp and
    not among the sources at hand: a table kept as a flat array in
    row-major order with its number of columns. *)
Record Array2D (D : Type) := mkArray2D { array1d : list D; NumCols : nat }.
Arguments mkArray2D {D} _ _.
Arguments array1d {D} _.
Arguments NumCols {D} _.

Section Array2D.
Context {D : Type}.

(** [a(i, j)], read. *)
Definition A2get (a : Array2D D) (i j : nat) : option D :=
  if decide (j < NumCols a)%nat then array1d a !! (i * NumCols a + j)%nat
  else None.

(** [a(i, j) = v]. *)
Definition A2set (a : Array2D D) (i j : nat) (v : D) : option (Array2D D) :=
  if decide (j < NumCols a /\ i * NumCols a + j < length (array1d a))%nat
  then Some (mkArray2D (<[(i * NumCols a + j)%nat := v]> (array1d a)) (NumCols a))
  else None.

(** [a.SetSize(m, n)]: the entries already there are kept; nothing is
    written to a new entry, which holds what the allocation holds,
    [fresh k] for the entry at [k]. *)
Definition SetSize (m n : nat) (fresh : nat -> D) (a : Array2D D) : Array2D D :=
  mkArray2D ((fun k => default (fresh k) (array1d a !! k)) <$> seq 0 (m * n)) n.
End Array2D.

(** ** The file-scope state *)

Inductive prob_type := load_src | scatter | waveguide | cyl_waveguide.

(** The globals of the example: [omega], [dim], [domain_bdr], [pml_lngth],
    [comp_domain_bdr] and [prob]. *)
Record globals (D : Type) := mkGlobals {
  omega : D;
  dim : nat;
  domain_bdr : Array2D D;
  pml_lngth : Array2D D;
  comp_domain_bdr : Array2D D;
  prob : prob_type
}.
Arguments mkGlobals {D} _ _ _ _ _ _.
Arguments omega {D} _.
Arguments dim {D} _.
Arguments domain_bdr {D} _.
Arguments pml_lngth {D} _.
Arguments comp_domain_bdr {D} _.
Arguments prob {D} _.

(** What [compute_pml_mesh_data] takes from the mesh: the extreme nodal
    coordinates [xcoords.Min()], [xcoords.Max()], ... of lines 454-487. *)
Record NodalBounds (D : Type) := mkBounds {
  xmin : D; xmax : D; ymin : D; ymax : D; zmin : D; zmax : D
}.
Arguments mkBounds {D} _ _ _ _ _ _.
Arguments xmin {D} _.
Arguments xmax {D} _.
Arguments ymin {D} _.
Arguments ymax {D} _.
Arguments zmin {D} _.
Arguments zmax {D} _.

(** What the three [SetSize] calls of [compute_pml_mesh_data] find in the
    entries they allocate. *)
Record Allocation (D : Type) := mkAlloc {
  fresh_domain : nat -> D;
  fresh_pml : nat -> D;
  fresh_comp : nat -> D
}.
Arguments mkAlloc {D} _ _ _.
Arguments fresh_domain {D} _.
Arguments fresh_pml {D} _.
Arguments fresh_comp {D} _.

(** What the classifier takes from the mesh: the number of elements, the
    vertices of each, the number of nodal degrees of freedom and the
    coordinates of each, read from the nodal grid function at
    [DofToVDof(i, comp)]. *)
Record ParMesh (D : Type) := mkParMesh {
  GetNE : nat;
  GetVertices : nat -> list nat;
  GetNDofs : nat;
  node_coord : nat -> nat -> D
}.
Arguments mkParMesh {D} _ _ _ _.
Arguments GetNE {D} _.
Arguments GetVertices {D} _.
Arguments GetNDofs {D} _.
Arguments node_coord {D} _.

Section Model.
Context {D : Type} {ops : DoubleOps D}.
Local Open Scope dbl_scope.

Definition set_domain_bdr (i j : nat) (v : D) (g : globals D) : option (globals D) :=
  a ← A2set (domain_bdr g) i j v;
  Some (mkGlobals (omega g) (dim g) a (pml_lngth g) (comp_domain_bdr g) (prob g)).
Definition set_pml_lngth (i j : nat) (v : D) (g : globals D) : option (globals D) :=
  a ← A2set (pml_lngth g) i j v;
  Some (mkGlobals (omega g) (dim g) (domain_bdr g) a (comp_domain_bdr g) (prob g)).
Definition set_comp_domain_bdr (i j : nat) (v : D) (g : globals D) : option (globals D) :=
  a ← A2set (comp_domain_bdr g) i j v;
  Some (mkGlobals (omega g) (dim g) (domain_bdr g) (pml_lngth g) a (prob g)).

(** *** [compute_pml_mesh_data], lines 452-533 *)

(** Lines 481-487: the domain box. *)
Definition set_domain_box (b : NodalBounds D) (al : Allocation D)
    (g : globals D) : option (globals D) :=
  let g := mkGlobals (omega g) (dim g)
             (SetSize 3 2 (fresh_domain al) (domain_bdr g))
             (pml_lngth g) (comp_domain_bdr g) (prob g) in
  g ← set_domain_bdr 0 0 (xmin b) g;
  g ← set_domain_bdr 0 1 (xmax b) g;
  g ← set_domain_bdr 1 0 (ymin b) g;
  g ← set_domain_bdr 1 1 (ymax b) g;
  g ← set_domain_bdr 2 0 (zmin b) g;
  set_domain_bdr 2 1 (zmax b) g.

(** Lines 493-501: the body of the loop of the scattering and load
    variants. *)
Definition layer_both_sides (i : nat) (g : globals D) : option (globals D) :=
  g ← for_loop 2 (fun j g =>
         d1 ← A2get (domain_bdr g) i 1;
         d0 ← A2get (domain_bdr g) i 0;
         set_pml_lngth i j (lit 0.25 * (d1 - d0)) g) g;
  d0 ← A2get (domain_bdr g) i 0;
  w0 ← A2get (pml_lngth g) i 0;
  g ← set_comp_domain_bdr i 0 (d0 + w0) g;
  d1 ← A2get (domain_bdr g) i 1;
  w1 ← A2get (pml_lngth g) i 1;
  set_comp_domain_bdr i 1 (d1 - w1) g.

(** Lines 505-509 and 516-520: the computational box starts as the
    domain box. *)
Definition copy_domain_box (i : nat) (g : globals D) : option (globals D) :=
  d0 ← A2get (domain_bdr g) i 0;
  g ← set_comp_domain_bdr i 0 d0 g;
  d1 ← A2get (domain_bdr g) i 1;
  set_comp_domain_bdr i 1 d1 g.

(** Lines 511-512 and 522-523: a layer on the high side of axis [i], its
    width the fraction [frac] of the extent of the axis. *)
Definition layer_high_side (i : nat) (frac : D) (g : globals D) : option (globals D) :=
  d1 ← A2get (domain_bdr g) i 1;
  d0 ← A2get (domain_bdr g) i 0;
  g ← set_pml_lngth i 1 (frac * (d1 - d0)) g;
  d1 ← A2get (domain_bdr g) i 1;
  w1 ← A2get (pml_lngth g) i 1;
  set_comp_domain_bdr i 1 (d1 - w1) g.

Definition compute_pml_mesh_data (b : NodalBounds D) (al : Allocation D)
    (g : globals D) : option (globals D) :=
  g ← set_domain_box b al g;
  let g := mkGlobals (omega g) (dim g) (domain_bdr g)
             (SetSize (dim g) 2 (fresh_pml al) (pml_lngth g))
             (SetSize (dim g) 2 (fresh_comp al) (comp_domain_bdr g))
             (prob g) in
  match prob g with
  | scatter | load_src => for_loop (dim g) layer_both_sides g
  | waveguide =>
      g ← for_loop (dim g) copy_domain_box g;
      (* pml only in the x direction *)
      layer_high_side 0 (lit 0.25) g
  | cyl_waveguide =>
      g ← for_loop (dim g) copy_domain_box g;
      (* pml only in the z direction *)
      layer_high_side 2 (lit 0.125) g
  end.
End Model.

Section Classifier.
Context {D : Type} {ops : DoubleOps D}.
Local Open Scope dbl_scope.

(** *** [compute_pml_elem_list], lines 535-584 *)

(** [coords(i, comp)] of the local table of lines 546-555, filled for
    every degree of freedom [i] and every [comp < dim]. *)
Definition coords (g : globals D) (pmesh : ParMesh D) (i comp : nat) : option D :=
  if decide (i < GetNDofs pmesh /\ comp < dim g)%nat
  then Some (node_coord pmesh i comp) else None.

(** Lines 571-572, the test on one coordinate of one vertex. *)
Definition outside_comp_box (g : globals D) (pmesh : ParMesh D)
    (vert_idx comp : nat) : option bool :=
  c ← coords g pmesh vert_idx comp;
  hi ← A2get (comp_domain_bdr g) comp 1;
  if c >? hi then Some true
  else
    c ← coords g pmesh vert_idx comp;
    lo ← A2get (comp_domain_bdr g) comp 0;
    Some (c <? lo).

(** Lines 565-578: the loop over the vertices of an element, [in_pml]
    the state; the inner loop over the axes breaks at the first
    coordinate outside. *)
Definition element_in_pml (g : globals D) (pmesh : ParMesh D)
    (vertices : list nat) : option bool :=
  for_loop (length vertices) (fun iv in_pml =>
    vert_idx ← vertices !! iv;
    found ← any_break (seq 0 (dim g)) (outside_comp_box g pmesh vert_idx);
    Some (if (found : bool) then true else in_pml)) false.

Definition compute_pml_elem_list (g : globals D) (pmesh : ParMesh D)
    : option (list Z) :=
  let nrelem := GetNE pmesh in
  (* initialize list with 1 *)
  let elem_pml := replicate nrelem 1%Z in
  for_loop nrelem (fun i elem_pml =>
    let vertices := GetVertices pmesh i in
    in_pml ← element_in_pml g pmesh vertices;
    if (in_pml : bool) then vset elem_pml i 0%Z else Some elem_pml) elem_pml.
End Classifier.

Section Stretching.
Context {D : Type} {ops : DoubleOps D}.
Local Open Scope dbl_scope.

(** *** [pml_function], lines 818-850 *)

(** Line 838: the test of the high side, [x(i) >= comp_domain_bdr(i, 1)]. *)
Definition high_side_test (g : globals D) (x : list D) (i : nat) : option bool :=
  xi ← x !! i;
  hi ← A2get (comp_domain_bdr g) i 1;
  Some (xi >=? hi).

(** Line 843: the test of the low side, [x(i) <= comp_domain_bdr(i, 0)]. *)
Definition low_side_test (g : globals D) (x : list D) (i : nat) : option bool :=
  xi ← x !! i;
  lo ← A2get (comp_domain_bdr g) i 0;
  Some (xi <=? lo).

(** Lines 838-842: the high side of axis [i]. *)
Definition stretch_high (g : globals D) (x : list D) (i : nat)
    (dxs : list (complex D)) : option (list (complex D)) :=
  let n := lit 2.0 in
  let c := lit 10.0 in
  above ← high_side_test g x i;
  if (above : bool) then
    w ← A2get (pml_lngth g) i 1;
    let coeff := n * c / omega g / pow w n in
    xi ← x !! i;
    hi ← A2get (comp_domain_bdr g) i 1;
    vset dxs i
      (cadd cone (cmul_d (cmul_d zi coeff) (fabs (pow (xi - hi) (n - lit 1.0)))))
  else Some dxs.

(** Lines 843-847: the low side of axis [i]. *)
Definition stretch_low (g : globals D) (x : list D) (i : nat)
    (dxs : list (complex D)) : option (list (complex D)) :=
  let n := lit 2.0 in
  let c := lit 10.0 in
  below ← low_side_test g x i;
  if (below : bool) then
    w ← A2get (pml_lngth g) i 0;
    let coeff := n * c / omega g / pow w n in
    xi ← x !! i;
    lo ← A2get (comp_domain_bdr g) i 0;
    vset dxs i
      (cadd cone (cmul_d (cmul_d zi coeff) (fabs (pow (xi - lo) (n - lit 1.0)))))
  else Some dxs.

Definition pml_function (g : globals D) (x : list D)
    (dxs : list (complex D)) : option (list (complex D)) :=
  (* initialize to one *)
  dxs ← for_loop (dim g) (fun i dxs => vset dxs i cone) dxs;
  (* Stretch in each direction independenly *)
  for_loop (dim g) (fun i dxs =>
    for_loop 2 (fun j dxs =>
      dxs ← stretch_high g x i dxs;
      stretch_low g x i dxs) dxs) dxs.

(** *** [pml_detJ_inv_Re] and [pml_detJ_inv_Im], lines 852-879 *)

(** The part the two functions share: [one / det], [det] the product of
    the stretching factors. *)
Definition pml_detJ_inv (g : globals D) (x : list D) : option (complex D) :=
  let dxs := replicate (dim g) czero in
  let det := Cx (lit 1.0) (lit 0.0) in
  dxs ← pml_function g x dxs;
  det ← for_loop (dim g) (fun i det =>
           d ← dxs !! i; Some (cmul det d)) det;
  let det_inv := cdiv cone det in
  Some det_inv.

Definition pml_detJ_inv_Re (g : globals D) (x : list D) : option D :=
  det_inv ← pml_detJ_inv g x; Some (real det_inv).

Definition pml_detJ_inv_Im (g : globals D) (x : list D) : option D :=
  det_inv ← pml_detJ_inv g x; Some (imag det_inv).

(** *** [source_im], lines 426-450 *)

(** [center] is read at the index just written only, so what it holds at
    first does not matter. *)
Definition source_im (g : globals D) (x f_im : list D) : option (list D) :=
  let center := replicate (dim g) (lit 0) in
  let r := lit 0.0 in
  '(center, r) ← for_loop (dim g) (fun i '(center, r) =>
      lo ← A2get (comp_domain_bdr g) i 0;
      hi ← A2get (comp_domain_bdr g) i 1;
      center ← vset center i (lit 0.5 * (lo + hi));
      xi ← x !! i;
      ci ← center !! i;
      Some (center, r + pow (xi - ci) (lit 2.0))) (center, r);
  let n := lit 5.0 * omega g / M_PI in
  let coeff := pow n (lit 2) / M_PI in
  let alpha := - pow n (lit 2) * r in
  vset f_im 0 (coeff * exp alpha).
End Stretching.

Section Excitation.
Context {D : Type} {ops : DoubleOps D}.
Local Open Scope dbl_scope.

(** *** [maxwell_ess_data], lines 586-711 *)

(** Lines 598-606: the T_10 mode of the rectangular waveguide. *)
Definition waveguide_mode (g : globals D) (x : list D)
    (E : list (complex D)) : option (list (complex D)) :=
  let k10 := sqrt (omega g * omega g - M_PI * M_PI) in
  x2 ← x !! 2;
  x0 ← x !! 0;
  E ← vset E 1
        (cmul (cmul_d (cdiv_d (cmul_d (cneg zi) (omega g)) M_PI) (sin (M_PI * x2)))
              (cexp (cmul_d (cmul_d zi k10) x0)));
  (* normalize *)
  let Ho := omega g / M_PI in
  e1 ← E !! 1;
  vset E 1 (cdiv_d e1 Ho).

(** Lines 630-634. *)
Definition cyl_waveguide_data (x : list D) (E : list (complex D))
    : option (list (complex D)) :=
  x2 ← x !! 2;
  if x2 =? lit 0.0 then
    E ← vset E 0 (cdbl (lit 1.0));
    vset E 1 (cdbl (lit 1.0))
  else Some E.

(** Lines 647-672: the point source in two dimensions.  [val_x], which
    nothing reads, is left out. *)
Definition scatter_2d (g : globals D) (x shift : list D)
    (E : list (complex D)) : option (list (complex D)) :=
  xx0 ← x !! 0; s0 ← shift !! 0;
  let x0 := xx0 + s0 in
  xx1 ← x !! 1; s1 ← shift !! 1;
  let x1 := xx1 + s1 in
  let r := sqrt (x0 * x0 + x1 * x1) in
  let beta := omega g * r in
  (* Special functions (Bessel functions) *)
  let Ho := dadd_c (jn 0 beta) (cmul_d zi (yn 0 beta)) in
  let Ho_r := dmul_c (- omega g) (dadd_c (jn 1 beta) (cmul_d zi (yn 1 beta))) in
  let Ho_rr :=
    dmul_c (- omega g * omega g)
      (csub (dmul_c (lit 1.0 / beta) (dadd_c (jn 1 beta) (cmul_d zi (yn 1 beta))))
            (dadd_c (jn 2 beta) (cmul_d zi (yn 2 beta)))) in
  (* derivative with respect to x *)
  let r_x := x0 / r in
  let r_y := x1 / r in
  let r_xy := - (r_x / r) * r_y in
  let r_xx := (lit 1.0 / r) * (lit 1.0 - r_x * r_x) in
  let val := cmul (dmul_c (lit 0.25) zi) Ho in
  let val_xx :=
    cmul (dmul_c (lit 0.25) zi)
         (cadd (dmul_c r_xx Ho_r) (dmul_c (r_x * r_x) Ho_rr)) in
  let val_xy :=
    cmul (dmul_c (lit 0.25) zi)
         (cadd (dmul_c r_xy Ho_r) (dmul_c (r_x * r_y) Ho_rr)) in
  E ← vset E 0 (cmul (cdiv_d zi (omega g))
                     (cadd (dmul_c (omega g * omega g) val) val_xx));
  vset E 1 (cmul (cdiv_d zi (omega g)) val_xy).

(** Lines 676-708: the point source in three dimensions.  [val_x],
    [val_y] and [val_z], which nothing reads, are left out. *)
Definition scatter_3d (g : globals D) (x shift : list D)
    (E : list (complex D)) : option (list (complex D)) :=
  xx0 ← x !! 0; s0 ← shift !! 0;
  let x0 := xx0 + s0 in
  xx1 ← x !! 1; s1 ← shift !! 1;
  let x1 := xx1 + s1 in
  xx2 ← x !! 2; s2 ← shift !! 2;
  let x2 := xx2 + s2 in
  let r := sqrt (x0 * x0 + x1 * x1 + x2 * x2) in
  let r_x := x0 / r in
  let r_y := x1 / r in
  let r_z := x2 / r in
  let r_xx := (lit 1.0 / r) * (lit 1.0 - r_x * r_x) in
  let r_yx := - (r_y / r) * r_x in
  let r_zx := - (r_z / r) * r_x in
  let val := cdiv_d (cexp (cmul_d (cmul_d zi (omega g)) r)) r in
  let val_r := cmul (cdiv_d val r) (csub_d (cmul_d zi (omega g)) (lit 1.0)) in
  let val_rr :=
    cmul (cdiv_d val (r * r))
         (cadd_d (dsub_c (- omega g * omega g * r * r)
                         (cmul_d (cmul_d (dmul_c (lit 2.0) zi) (omega g)) r))
                 (lit 2.0)) in
  let val_xx := cadd (cmul_d (cmul_d val_rr r_x) r_x) (cmul_d val_r r_xx) in
  let val_yx := cadd (cmul_d (cmul_d val_rr r_x) r_y) (cmul_d val_r r_yx) in
  let val_zx := cadd (cmul_d (cmul_d val_rr r_x) r_z) (cmul_d val_r r_zx) in
  let alpha :=
    cdiv_d (cdiv_d (cdiv_d (cdiv_d (cmul_d zi (omega g)) (lit 4.0)) M_PI)
                   (omega g)) (omega g) in
  E ← vset E 0 (cmul alpha (cadd (dmul_c (omega g * omega g) val) val_xx));
  E ← vset E 1 (cmul alpha val_yx);
  vset E 2 (cmul alpha val_zx).

Definition maxwell_ess_data (g : globals D) (x : list D)
    (E : list (complex D)) : option (list (complex D)) :=
  (* Initialize *)
  E ← for_loop (dim g) (fun i E => vset E i (Cx (lit 0.0) (lit 0.0))) E;
  match prob g with
  | waveguide => waveguide_mode g x E
  | cyl_waveguide => cyl_waveguide_data x E
  | scatter =>
      (* point source (scattering) *)
      let shift := replicate (dim g) (lit 0.0) in
      shift ← for_loop (dim g) (fun i shift =>
                 d0 ← A2get (domain_bdr g) i 0;
                 d1 ← A2get (domain_bdr g) i 1;
                 vset shift i (- lit 0.5 * (d0 + d1))) shift;
      if decide (dim g = 2%nat) then scatter_2d g x shift E
      else scatter_3d g x shift E
  | load_src => Some E
  end.

(** *** [E_bdr_data_Re] and [E_bdr_data_Im], lines 713-815 *)

(** Lines 723 and 775: is [x(i)] on a face of the domain box? *)
Definition on_domain_bdr (g : globals D) (x : list D) (i : nat) : option bool :=
  xi ← x !! i;
  d0 ← A2get (domain_bdr g) i 0;
  if fabs (xi - d0) <? lit 1e-13 then Some true
  else
    xi ← x !! i;
    d1 ← A2get (domain_bdr g) i 1;
    Some (fabs (xi - d1) <? lit 1e-13).

(** Lines 731-736 and the like: [Eval] from [maxwell_ess_data], one part
    of it copied into [E]. *)
Definition copy_ess_data (part : complex D -> D) (g : globals D)
    (x E : list D) : option (list D) :=
  let Eval := replicate (length E) (Cx (lit 0) (lit 0)) in
  Eval ← maxwell_ess_data g x Eval;
  for_loop (dim g) (fun i E => e ← Eval !! i; vset E i (part e)) E.

(** The two functions differ in the part of [Eval] they copy only. *)
Definition E_bdr_data (part : complex D -> D) (g : globals D)
    (x E : list D) : option (list D) :=
  (* Initialize *)
  let E := replicate (length E) (lit 0.0) in
  match prob g with
  | scatter =>
      (* check if x(i) is in the computational domain or not *)
      in_pml ← any_break (seq 0 (dim g)) (on_domain_bdr g x);
      if negb in_pml then copy_ess_data part g x E else Some E
  | waveguide =>
      (* waveguide problem *)
      E ← copy_ess_data part g x E;
      x0 ← x !! 0;
      d1 ← A2get (domain_bdr g) 0 1;
      if fabs (x0 - d1) <? lit 1e-13
      then Some (replicate (length E) (lit 0.0)) else Some E
  | cyl_waveguide =>
      (* waveguide problem *)
      copy_ess_data part g x E
  | load_src => Some E
  end.

Definition E_bdr_data_Re (g : globals D) (x E : list D) : option (list D) :=
  E_bdr_data real g x E.

Definition E_bdr_data_Im (g : globals D) (x E : list D) : option (list D) :=
  E_bdr_data imag g x E.
End Excitation.

(** ** [double] as a real number *)

Definition Rltb (x y : R) : bool := if Rlt_dec x y then true else false.
Definition Rleb (x y : R) : bool := if Rle_dec x y then true else false.
Definition Reqb (x y : R) : bool := if Req_dec_T x y then true else false.

(** [pow(x, y)]: the integer power when [y] is an integer, as for [pow(x, 2.0)]
    and [pow(x, 1.0)] with [x] of either sign, and [exp(y ln x)] otherwise. *)
Definition Rpow (x y : R) : R :=
  if Req_dec_T y (IZR (Int_part y)) then powerRZ x (Int_part y) else Rpower x y.

(** The Bessel functions of [<cmath>], which the real numbers of the
    library do not provide. *)
Record Bessel := mkBessel { bessel_jn : Z -> R -> R; bessel_yn : Z -> R -> R }.

Definition R_ops (bf : Bessel) : DoubleOps R := {|
  of_Z := IZR;
  dadd := Rplus;
  dsub := Rminus;
  dmul := Rmult;
  ddiv := Rdiv;
  dneg := Ropp;
  dlt := Rltb;
  dle := Rleb;
  deq := Reqb;
  fabs := Rabs;
  sqrt := R_sqrt.sqrt;
  pow := Rpow;
  exp := Rtrigo_def.exp;
  sin := Rtrigo_def.sin;
  cos := Rtrigo_def.cos;
  jn := bessel_jn bf;
  yn := bessel_yn bf;
  M_PI := Rtrigo1.PI
|}.

(** ** [double] as IEEE binary64 *)

(** The functions of [<cmath>] that are not operations of IEEE 754. *)
Record Libm := mkLibm {
  libm_pow : float -> float -> float;
  libm_exp : float -> float;
  libm_sin : float -> float;
  libm_cos : float -> float;
  libm_jn : Z -> float -> float;
  libm_yn : Z -> float -> float
}.

Definition float_of_Z (z : Z) : float :=
  match z with
  | Z0 => 0%float
  | Zpos _ => PrimFloat.of_uint63 (Uint63.of_Z z)
  | Zneg p => PrimFloat.opp (PrimFloat.of_uint63 (Uint63.of_Z (Zpos p)))
  end.

Definition float_ops (lm : Libm) : DoubleOps float := {|
  of_Z := float_of_Z;
  dadd := PrimFloat.add;
  dsub := PrimFloat.sub;
  dmul := PrimFloat.mul;
  ddiv := PrimFloat.div;
  dneg := PrimFloat.opp;
  dlt := PrimFloat.ltb;
  dle := PrimFloat.leb;
  deq := PrimFloat.eqb;
  fabs := PrimFloat.abs;
  sqrt := PrimFloat.sqrt;
  pow := libm_pow lm;
  exp := libm_exp lm;
  sin := libm_sin lm;
  cos := libm_cos lm;
  jn := libm_jn lm;
  yn := libm_yn lm;
  M_PI := 0x1.921fb54442d18p+1%float
|}.

(** The values of [pow] that the C standard fixes (Annex F) or that are
    exact: [pow(x, 1.0)] is [x] and [pow(x, 2.0)] is the rounded square;
    the other functions are left at NaN.  It serves to run the functions
    that call [pow] with these exponents only. *)
Definition libm_squares : Libm := {|
  libm_pow := fun x y =>
    if PrimFloat.eqb y 1 then x
    else if PrimFloat.eqb y 2 then PrimFloat.mul x x else nan;
  libm_exp := fun _ => nan;
  libm_sin := fun _ => nan;
  libm_cos := fun _ => nan;
  libm_jn := fun _ _ => nan;
  libm_yn := fun _ _ => nan
|}.

(** ** [DenseMatrix] and the complex power *)

(** [DenseMatrix], declared by the library in linalg/densemat.hpp and not
    among the sources at hand: a matrix kept by columns in a flat array. *)
Record DenseMatrix (D : Type) := mkDenseMatrix {
  Data : list D; Height : nat; Width : nat
}.
Arguments mkDenseMatrix {D} _ _ _.
Arguments Data {D} _.
Arguments Height {D} _.
Arguments Width {D} _.

(** [std::pow] of a [std::complex<double>] and an [int], of [<complex>]. *)
Class ComplexPow (D : Type) := cpow : complex D -> Z -> complex D.

Section DenseMatrix.
Context {D : Type} {ops : DoubleOps D}.

(** [M(i, j)], read. *)
Definition Mget (M : DenseMatrix D) (i j : nat) : option D :=
  if decide (i < Height M /\ j < Width M)%nat
  then Data M !! (i + j * Height M)%nat else None.

(** [M(i, j) = v]. *)
Definition Mset (M : DenseMatrix D) (i j : nat) (v : D) : option (DenseMatrix D) :=
  if decide (i < Height M /\ j < Width M /\ i + j * Height M < length (Data M))%nat
  then Some (mkDenseMatrix (<[(i + j * Height M)%nat := v]> (Data M))
               (Height M) (Width M))
  else None.

(** [M.SetSize(s); M = 0.0;]: whatever [M] held, it is now the square
    matrix of order [s] with every entry [0.0]. *)
Definition zero_matrix (s : nat) : DenseMatrix D :=
  mkDenseMatrix (replicate (s * s) (lit 0.0)) s s.
End DenseMatrix.

Section Coefficients.
Context {D : Type} {ops : DoubleOps D} {cp : ComplexPow D}.
Local Open Scope dbl_scope.

(** *** [pml_detJ_JT_J_inv_Re] and [pml_detJ_JT_J_inv_Im], lines 880-925 *)

(** The part the two functions share; they differ in the declaration of
    [det] and in the part of [temp] they keep. *)
Definition pml_detJ_JT_J_inv (det : complex D) (part : complex D -> D)
    (g : globals D) (x : list D) : option (DenseMatrix D) :=
  let diag := replicate (dim g) czero in
  let dxs := replicate (dim g) czero in
  dxs ← pml_function g x dxs;
  '(diag, det) ← for_loop (dim g) (fun i '(diag, det) =>
      d ← dxs !! i;
      diag ← vset diag i (cdiv cone (cpow d 2));
      d ← dxs !! i;
      Some (diag, cmul det d)) (diag, det);
  let M := zero_matrix (dim g) in
  for_loop (dim g) (fun i M =>
    di ← diag !! i;
    let temp := cmul det di in
    Mset M i i (part temp)) M.

Definition pml_detJ_JT_J_inv_Re (g : globals D) (x : list D)
    : option (DenseMatrix D) :=
  pml_detJ_JT_J_inv (Cx (lit 1.0) (lit 0.0)) real g x.

Definition pml_detJ_JT_J_inv_Im (g : globals D) (x : list D)
    : option (DenseMatrix D) :=
  pml_detJ_JT_J_inv (cdbl (lit 1.0)) imag g x.

(** *** [pml_detJ_inv_JT_J_Re] and [pml_detJ_inv_JT_J_Im], lines 926-969 *)

Definition pml_detJ_inv_JT_J (det : complex D) (part : complex D -> D)
    (g : globals D) (x : list D) : option (DenseMatrix D) :=
  let diag := replicate (dim g) czero in
  let dxs := replicate (dim g) czero in
  dxs ← pml_function g x dxs;
  '(diag, det) ← for_loop (dim g) (fun i '(diag, det) =>
      d ← dxs !! i;
      diag ← vset diag i (cpow d 2);
      d ← dxs !! i;
      Some (diag, cmul det d)) (diag, det);
  let M := zero_matrix (dim g) in
  for_loop (dim g) (fun i M =>
    di ← diag !! i;
    let temp := cdiv di det in
    Mset M i i (part temp)) M.

Definition pml_detJ_inv_JT_J_Re (g : globals D) (x : list D)
    : option (DenseMatrix D) :=
  pml_detJ_inv_JT_J (Cx (lit 1.0) (lit 0.0)) real g x.

Definition pml_detJ_inv_JT_J_Im (g : globals D) (x : list D)
    : option (DenseMatrix D) :=
  pml_detJ_inv_JT_J (cdbl (lit 1.0)) imag g x.
End Coefficients.

(** *** [main], lines 110-147 *)

(** What [main] takes from the mesh it has read: its dimension and the
    extreme nodal coordinates. *)
Record Mesh (D : Type) := mkMesh { Dimension : nat; nodal_bounds : NodalBounds D }.
Arguments mkMesh {D} _ _.
Arguments Dimension {D} _.
Arguments nodal_bounds {D} _.

Section Main.
Context {D : Type} {ops : DoubleOps D}.
Local Open Scope dbl_scope.

(** The part of [main] that sets the globals: [omega] from the frequency
    (line 110), the variant (lines 117 and 120), [dim] from the mesh (line
    146), then the layer geometry (line 147). *)
Definition main_setup (freq : D) (mesh : Mesh D) (al : Allocation D)
    (g : globals D) : option (globals D) :=
  let g := mkGlobals (lit 2.0 * M_PI * freq) (dim g)
             (domain_bdr g) (pml_lngth g) (comp_domain_bdr g) (prob g) in
  let g := mkGlobals (omega g) (dim g)
             (domain_bdr g) (pml_lngth g) (comp_domain_bdr g) scatter in
  let g := mkGlobals (omega g) (dim g)
             (domain_bdr g) (pml_lngth g) (comp_domain_bdr g) load_src in
  let g := mkGlobals (omega g) (Dimension mesh)
             (domain_bdr g) (pml_lngth g) (comp_domain_bdr g) (prob g) in
  compute_pml_mesh_data (nodal_bounds mesh) al g.
End Main.

(** The complex power over the reals: the repeated product. *)
Definition cpow_R (bf : Bessel) : ComplexPow R := fun z n =>
  match n with
  | Z0 => cone (ops := R_ops bf)
  | Zpos p => Pos.iter (cmul (ops := R_ops bf) z) (cone (ops := R_ops bf)) p
  | Zneg p =>
      cdiv (ops := R_ops bf) (cone (ops := R_ops bf))
        (Pos.iter (cmul (ops := R_ops bf) z) (cone (ops := R_ops bf)) p)
  end.

(** ** Notions used to state the properties *)

(** [a] is a table of [m] rows and [n] columns. *)
Definition Array2D_dims {D : Type} (m n : nat) (a : Array2D D) : Prop :=
  NumCols a = n /\ length (array1d a) = (m * n)%nat.

(** The state in which the functions evaluated at a point run: [dim] is at
    most 3, [domain_bdr] is 3 by 2, [pml_lngth] and [comp_domain_bdr] are
    [dim] by 2, as [compute_pml_mesh_data] sizes them. *)
Definition globals_wf {D : Type} (g : globals D) : Prop :=
  (dim g <= 3)%nat /\ Array2D_dims 3 2 (domain_bdr g) /\
  Array2D_dims (dim g) 2 (pml_lngth g) /\
  Array2D_dims (dim g) 2 (comp_domain_bdr g).

(** The globals before [compute_pml_mesh_data] has run: the three tables
    are empty. *)
Definition empty_globals {D : Type} (om : D) (d : nat) (p : prob_type) : globals D :=
  mkGlobals om d (mkArray2D [] 0) (mkArray2D [] 0) (mkArray2D [] 0) p.

Section Notions.
Context {D : Type} {ops : DoubleOps D}.
Local Open Scope dbl_scope.

(** The faces of the domain box on axis [i], and its extent. *)
Definition bound_lo (b : NodalBounds D) (i : nat) : D :=
  match i with 0%nat => xmin b | 1%nat => ymin b | _ => zmin b end.
Definition bound_hi (b : NodalBounds D) (i : nat) : D :=
  match i with 0%nat => xmax b | 1%nat => ymax b | _ => zmax b end.
Definition extent (b : NodalBounds D) (i : nat) : D := bound_hi b i - bound_lo b i.

Definition domain_box_is (b : NodalBounds D) (g : globals D) : Prop :=
  domain_bdr g = mkArray2D [xmin b; xmax b; ymin b; ymax b; zmin b; zmax b] 2.

(** Axis [i] has a layer of width [w] on its low (high) side: the width is
    recorded and the face of the computational box is the face of the
    domain box moved inward by it. *)
Definition layer_lo (b : NodalBounds D) (g : globals D) (i : nat) (w : D) : Prop :=
  A2get (pml_lngth g) i 0 = Some w /\
  A2get (comp_domain_bdr g) i 0 = Some (bound_lo b i + w).
Definition layer_hi (b : NodalBounds D) (g : globals D) (i : nat) (w : D) : Prop :=
  A2get (pml_lngth g) i 1 = Some w /\
  A2get (comp_domain_bdr g) i 1 = Some (bound_hi b i - w).

(** Axis [i] has no layer on its low (high) side: the computational box
    reaches the face of the domain box. *)
Definition no_layer_lo (b : NodalBounds D) (g : globals D) (i : nat) : Prop :=
  A2get (comp_domain_bdr g) i 0 = Some (bound_lo b i).
Definition no_layer_hi (b : NodalBounds D) (g : globals D) (i : nat) : Prop :=
  A2get (comp_domain_bdr g) i 1 = Some (bound_hi b i).

(** The rule of the classifier on one coordinate of one vertex: strictly
    outside the computational box on axis [comp]. *)
Definition strictly_outside (g : globals D) (pmesh : ParMesh D) (v comp : nat) : bool :=
  match A2get (comp_domain_bdr g) comp 1, A2get (comp_domain_bdr g) comp 0 with
  | Some hi, Some lo =>
      (node_coord pmesh v comp >? hi) || (node_coord pmesh v comp <? lo)
  | _, _ => false
  end.

(** The rule on the vertices of an element, as a test. *)
Definition some_vertex_outside (g : globals D) (pmesh : ParMesh D)
    (vertices : list nat) : bool :=
  existsb (fun v => existsb (strictly_outside g pmesh v) (seq 0 (dim g))) vertices.

(** The rule in words: some vertex of element [e] has, on some axis, a
    coordinate above the high face or below the low face of the
    computational box. *)
Definition has_vertex_outside (g : globals D) (pmesh : ParMesh D) (e : nat) : Prop :=
  exists v comp hi lo,
    v ∈ GetVertices pmesh e /\ (comp < dim g)%nat /\
    A2get (comp_domain_bdr g) comp 1 = Some hi /\
    A2get (comp_domain_bdr g) comp 0 = Some lo /\
    ((node_coord pmesh v comp >? hi) = true \/ (node_coord pmesh v comp <? lo) = true).

(** The factor of lines 840-841 and 845-846 for a layer of width [w], at
    the signed distance [d] from the face of the computational box. *)
Definition stretch_factor (g : globals D) (w d : D) : complex D :=
  cadd cone
    (cmul_d (cmul_d zi (lit 2.0 * lit 10.0 / omega g / pow w (lit 2.0)))
            (fabs (pow d (lit 2.0 - lit 1.0)))).

(** What [pml_function] leaves in [dxs[i]]; the low side is tested last
    and wins when both tests hold. *)
Definition axis_factor (g : globals D) (x : list D) (i : nat) : option (complex D) :=
  xi ← x !! i;
  lo ← A2get (comp_domain_bdr g) i 0;
  hi ← A2get (comp_domain_bdr g) i 1;
  wlo ← A2get (pml_lngth g) i 0;
  whi ← A2get (pml_lngth g) i 1;
  Some (if xi <=? lo then stretch_factor g wlo (xi - lo)
        else if xi >=? hi then stretch_factor g whi (xi - hi)
        else cone).

(** The product of the stretching factors, as the loops [det *= dxs[i]]
    form it. *)
Definition cprod (l : list (complex D)) : complex D :=
  foldl cmul (Cx (lit 1.0) (lit 0.0)) l.

(** [x(i) + shift(i)] of lines 642, 647-648 and 676-678: the coordinate of
    the point relative to the centre of the domain box, where the point
    source sits. *)
Definition shifted (g : globals D) (x : list D) (i : nat) : option D :=
  xi ← x !! i;
  d0 ← A2get (domain_bdr g) i 0;
  d1 ← A2get (domain_bdr g) i 1;
  Some (xi + - lit 0.5 * (d0 + d1)).

(** The radial distance [r] of lines 650 and 679. *)
Definition radial_distance (g : globals D) (x : list D) : option D :=
  x0 ← shifted g x 0;
  x1 ← shifted g x 1;
  if decide (dim g = 2%nat) then Some (sqrt (x0 * x0 + x1 * x1))
  else x2 ← shifted g x 2; Some (sqrt (x0 * x0 + x1 * x1 + x2 * x2)).
End Notions.

(** The squared modulus of a complex number. *)
Definition cnorm2 (z : complex R) : R := (real z * real z + imag z * imag z)%R.

(** A zero of binary64, of either sign. *)
Definition is_zero (z : float) : Prop := z = 0%float \/ z = (-0)%float.

(** ** Inputs of the examples *)

(** [omega] for the frequency 1.0: the double nearest to 2 pi. *)
Definition two_pi : float := 0x1.921fb54442d18p+2%float.

(** The unit square of a mesh in two dimensions; the bounds of the third
    coordinate are whatever [zcoords] holds. *)
Definition unit_square (zlo zhi : float) : NodalBounds float :=
  mkBounds 0%float 1%float 0%float 1%float zlo zhi.

(** The box of the mesh that [main] builds for the rectangular waveguide,
    [Mesh(8, 1, 1, Element::HEXAHEDRON, true, 8, 1, 1, false)]. *)
Definition waveguide_box : NodalBounds float :=
  mkBounds 0%float 8%float 0%float 1%float 0%float 1%float.

(** Two allocations: one that finds zeros in the new entries, one that
    finds the value 7 left there. *)
Definition zero_filled : Allocation float :=
  mkAlloc (fun _ => 0%float) (fun _ => 0%float) (fun _ => 0%float).
Definition stale : Allocation float :=
  mkAlloc (fun _ => 7%float) (fun _ => 7%float) (fun _ => 7%float).

(** The state of the rectangular waveguide after [compute_pml_mesh_data],
    for each of the two allocations. *)
Definition waveguide_zero_filled : option (globals float) :=
  compute_pml_mesh_data (ops := float_ops libm_squares) waveguide_box zero_filled
    (empty_globals two_pi 3 waveguide).
Definition waveguide_stale : option (globals float) :=
  compute_pml_mesh_data (ops := float_ops libm_squares) waveguide_box stale
    (empty_globals two_pi 3 waveguide).

(** A state over the reals with one axis: domain [0, 4], layers of width 1,
    computational box [1, 3], [omega] 1. *)
Definition bessel_zero : Bessel := mkBessel (fun _ _ => 0%R) (fun _ _ => 0%R).
Definition line_globals : globals R :=
  mkGlobals 1%R 1 (mkArray2D [0; 4; 0; 0; 0; 0]%R 2)
    (mkArray2D [1; 1]%R 2) (mkArray2D [1; 3]%R 2) scatter.

(** The bounds of a mesh of the segment [0, 4], over the reals, and an
    allocation that finds zeros. *)
Definition line_bounds : NodalBounds R := mkBounds 0%R 4%R 0%R 0%R 0%R 0%R.
Definition zero_filled_R : Allocation R :=
  mkAlloc (fun _ => 0%R) (fun _ => 0%R) (fun _ => 0%R).

(** The scattering problem on the unit square, after
    [compute_pml_mesh_data]. *)
Definition square_globals : globals float :=
  mkGlobals two_pi 2 (mkArray2D [0; 1; 0; 1; 0; 0]%float 2)
    (mkArray2D [0.25; 0.25; 0.25; 0.25]%float 2)
    (mkArray2D [0.25; 0.75; 0.25; 0.75]%float 2) scatter.

(** Two elements on three nodes: the first has its three vertices at the
    centre (0.5, 0.5), the second has a vertex at (0, 0). *)
Definition two_elements : ParMesh float :=
  mkParMesh 2
    (fun e => match e with 0%nat => [0; 0; 0]%nat | _ => [0; 1; 2]%nat end)
    3
    (fun i comp =>
       match i with
       | 0%nat => 0.5%float
       | 1%nat => 0%float
       | _ => match comp with 0%nat => 0.5%float | _ => 0%float end
       end).

(** ** Further notions and inputs *)

(** The point at which the coefficients are evaluated for vertex [v]: its
    [dim] coordinates. *)
Definition vertex_point {D : Type} (g : globals D) (pmesh : ParMesh D) (v : nat)
    : list D :=
  node_coord pmesh v <$> seq 0 (dim g).

(** [M] is a square matrix of order [n] whose entries off the diagonal
    are [0.0]. *)
Definition diagonal_matrix {D : Type} {ops : DoubleOps D} (n : nat)
    (M : DenseMatrix D) : Prop :=
  Height M = n /\ Width M = n /\
  forall i j, (i < n)%nat -> (j < n)%nat -> i <> j -> Mget M i j = Some (lit 0.0).

(** No coefficient of [pml_function] divides by zero at the point [x]:
    [omega] is not 0, and every side whose branch applies, [x(i) >=
    comp_max] or [x(i) <= comp_min], has a width that is not 0.  There the
    quotients of the reals are the quotients the formulas mean. *)
Definition coefficients_defined (g : globals R) (x : list R) : Prop :=
  omega g <> 0%R /\
  forall i xi lo hi wlo whi, (i < dim g)%nat -> x !! i = Some xi ->
    A2get (comp_domain_bdr g) i 0 = Some lo ->
    A2get (comp_domain_bdr g) i 1 = Some hi ->
    A2get (pml_lngth g) i 0 = Some wlo ->
    A2get (pml_lngth g) i 1 = Some whi ->
    ((hi <= xi)%R -> whi <> 0%R) /\ ((xi <= lo)%R -> wlo <> 0%R).

(** A mesh of the segment [0, 4] over the reals, of one element whose
    vertices sit at 3.5 and 4, and one whose vertices sit at 1 and 3, the
    faces of the computational box of [line_globals]. *)
Definition line_mesh_outer : ParMesh R :=
  mkParMesh 1 (fun _ => [0; 1]%nat) 2
    (fun i _ => match i with 0%nat => 3.5%R | _ => 4%R end).
Definition line_mesh_faces : ParMesh R :=
  mkParMesh 1 (fun _ => [0; 1]%nat) 2
    (fun i _ => match i with 0%nat => 1%R | _ => 3%R end).

(** The rectangular waveguide in three dimensions over the reals, with
    [omega] 4. *)
Definition waveguide_globals_R : globals R := empty_globals 4%R 3 waveguide.

(** A mesh of the unit square, as [main] sees it. *)
Definition square_mesh : Mesh float := mkMesh 2 (unit_square 0 0).

(** The steps of a run that is known to be defined. *)
Ltac run_steps Hrun :=
  repeat match type of Hrun with
  | context [mbind _ ?m] =>
      lazymatch m with
      | context [mbind _ _] => fail
      | _ => let H := fresh "H" in destruct m eqn:H; simpl in Hrun; [|done]
      end
  end.


(** * Properties *)

(** ** Loops and containers *)

Section LoopLemmas.
Context {St : Type}.
Implicit Types (body : nat -> St -> option St) (l : list nat) (s : St).

Lemma for_each_app l1 l2 body s :
  for_each (l1 ++ l2) body s = s' ← for_each l1 body s; for_each l2 body s'.
Proof.
  revert s; induction l1 as [|i l1 IH]; intros s; simpl; [done|].
  destruct (body i s) as [s'|]; simpl; [apply IH|done].
Qed.

(** The last turn of a counted loop. *)
Lemma for_loop_S n body s :
  for_loop (S n) body s = s' ← for_loop n body s; body n s'.
Proof.
  unfold for_loop. rewrite seq_S, for_each_app. simpl.
  destruct (for_each (seq 0 n) body s) as [s'|]; simpl; [|done].
  destruct (body n s'); done.
Qed.

(** A loop whose every step is defined and keeps [P] is defined and ends
    in a state with [P]. *)
Lemma for_each_total (P : St -> Prop) l body s :
  P s ->
  (forall i s, i ∈ l -> P s -> exists s', body i s = Some s' /\ P s') ->
  exists s', for_each l body s = Some s' /\ P s'.
Proof.
  revert s; induction l as [|i l IH]; intros s Hs Hstep; simpl; [eauto|].
  destruct (Hstep i s) as (s' & -> & Hs'); [left|done|]. simpl.
  apply IH; [done|]. intros j t Hj. apply Hstep. by right.
Qed.
End LoopLemmas.

Lemma any_break_true l test i :
  i ∈ l -> test i = Some true -> (forall j, j ∈ l -> is_Some (test j)) ->
  any_break l test = Some true.
Proof.
  induction l as [|k l IH]; intros Hi Ht Hall; [by apply elem_of_nil in Hi|].
  simpl. destruct (Hall k) as [b Hb]; [left|]. rewrite Hb. simpl.
  destruct b; [done|]. apply elem_of_cons in Hi as [->|Hi]; [congruence|].
  apply IH; [done..|]. intros j Hj. apply Hall. by right.
Qed.

Lemma any_break_existsb l test (f : nat -> bool) :
  (forall j, j ∈ l -> test j = Some (f j)) ->
  any_break l test = Some (existsb f l).
Proof.
  induction l as [|k l IH]; intros Hall; [done|]. simpl.
  rewrite (Hall k) by left. simpl. destruct (f k); [done|].
  apply IH. intros j Hj. apply Hall. by right.
Qed.

Lemma vset_is_Some {A : Type} (v : list A) i a :
  (i < length v)%nat -> vset v i a = Some (<[i := a]> v).
Proof. intros. unfold vset. by rewrite decide_True. Qed.

Section ArrayLemmas.
Context {D : Type}.
Implicit Types (a : Array2D D).

Lemma A2get_is_Some m n a i j :
  Array2D_dims m n a -> (i < m)%nat -> (j < n)%nat -> is_Some (A2get a i j).
Proof.
  intros [Hn Hl] Hi Hj. unfold A2get. rewrite Hn.
  rewrite decide_True by done. apply lookup_lt_is_Some. rewrite Hl. nia.
Qed.

Lemma A2set_is_Some m n a i j v :
  Array2D_dims m n a -> (i < m)%nat -> (j < n)%nat -> is_Some (A2set a i j v).
Proof.
  intros [Hn Hl] Hi Hj. unfold A2set. rewrite Hn, Hl.
  rewrite decide_True; [done|]. split; [done|nia].
Qed.

Lemma A2set_dims m n a a' i j v :
  A2set a i j v = Some a' -> Array2D_dims m n a -> Array2D_dims m n a'.
Proof.
  unfold A2set, Array2D_dims. intros Hset [Hn Hl].
  case_decide; simplify_eq/=. by rewrite length_insert.
Qed.

(** A write is read back at its place and leaves the other places. *)
Lemma A2get_A2set a a' i j v i' j' :
  A2set a i j v = Some a' ->
  A2get a' i' j' = if decide (i = i' /\ j = j') then Some v else A2get a i' j'.
Proof.
  unfold A2set, A2get. intros Hset.
  case_decide as Hin; simplify_eq/=. destruct Hin as [Hj Hlt].
  destruct (decide (j' < NumCols a)%nat) as [Hj'|Hj'].
  - destruct (decide (i = i' /\ j = j')) as [[-> ->]|Hne].
    + by apply list_lookup_insert_eq.
    + apply list_lookup_insert_ne. intros Heq. apply Hne.
      assert (i = i') by nia. split; [done|]. subst. lia.
  - rewrite decide_False; [done|]. intros [_ ->]. lia.
Qed.

Lemma SetSize_dims m n fresh a : Array2D_dims m n (SetSize m n fresh a).
Proof. split; [done|]. simpl. by rewrite length_fmap, length_seq. Qed.
End ArrayLemmas.

(** ** The layer geometry *)

Section Geometry.
Context {D : Type} {ops : DoubleOps D}.
Local Open Scope dbl_scope.

Lemma both_sides_policy b al (g : globals D) :
  (prob g = scatter \/ prob g = load_src) -> (dim g <= 3)%nat ->
  exists g', compute_pml_mesh_data b al g = Some g' /\
    domain_box_is b g' /\ dim g' = dim g /\
    forall i, (i < dim g)%nat ->
      layer_lo b g' i (lit 0.25 * extent b i) /\
      layer_hi b g' i (lit 0.25 * extent b i).
Proof.
  intros Hp Hd. destruct g as [om d dom pml comp p]. simpl in *.
  destruct d as [|[|[|[|d]]]]; [| | | |lia];
    destruct Hp as [-> | ->];
    (eexists; split; [vm_compute; reflexivity|]);
    (split; [reflexivity|]); (split; [reflexivity|]);
    intros i Hi; destruct i as [|[|[|i]]]; try lia; split; split; reflexivity.
Qed.

Lemma waveguide_policy b al (g : globals D) :
  prob g = waveguide -> (1 <= dim g <= 3)%nat ->
  exists g', compute_pml_mesh_data b al g = Some g' /\
    domain_box_is b g' /\ dim g' = dim g /\
    layer_hi b g' 0 (lit 0.25 * extent b 0) /\
    no_layer_lo b g' 0 /\
    forall i, (1 <= i < dim g)%nat -> no_layer_lo b g' i /\ no_layer_hi b g' i.
Proof.
  intros Hp Hd. destruct g as [om d dom pml comp p]. simpl in *. subst.
  destruct d as [|[|[|[|d]]]]; [lia| | | |lia];
    (eexists; split; [vm_compute; reflexivity|]);
    (split; [reflexivity|]); (split; [reflexivity|]);
    (split; [split; reflexivity|]); (split; [reflexivity|]);
    intros i Hi; destruct i as [|[|[|i]]]; try lia; split; reflexivity.
Qed.

Lemma cyl_waveguide_policy b al (g : globals D) :
  prob g = cyl_waveguide -> dim g = 3%nat ->
  exists g', compute_pml_mesh_data b al g = Some g' /\
    domain_box_is b g' /\ dim g' = dim g /\
    layer_hi b g' 2 (lit 0.125 * extent b 2) /\
    no_layer_lo b g' 2 /\
    forall i, (i < 2)%nat -> no_layer_lo b g' i /\ no_layer_hi b g' i.
Proof.
  intros Hp Hd. destruct g as [om d dom pml comp p]. simpl in *. subst.
  eexists; split; [vm_compute; reflexivity|].
  split; [reflexivity|]. split; [reflexivity|].
  split; [split; reflexivity|]. split; [reflexivity|].
  intros i Hi; destruct i as [|[|i]]; try lia; split; reflexivity.
Qed.

(** C2: the layers follow the policy of the variant.  For the scattering
    and the load variants every axis has a layer on both sides, of width
    0.25 times the extent of the axis; for the rectangular waveguide axis 0
    alone has a layer, on its high side, of width 0.25 times its extent;
    for the cylindrical waveguide, whose mesh has three dimensions, axis 2
    alone has a layer, on its high side, of width 0.125 times its extent.
    On a side with a layer the face of the computational box is the face of
    the domain box moved inward by the width; on a side without one it is
    the face of the domain box. *)
Theorem layer_policy b al (g : globals D) :
  (dim g <= 3)%nat ->
  match prob g with
  | scatter | load_src =>
      exists g', compute_pml_mesh_data b al g = Some g' /\
        domain_box_is b g' /\ dim g' = dim g /\
        forall i, (i < dim g)%nat ->
          layer_lo b g' i (lit 0.25 * extent b i) /\
          layer_hi b g' i (lit 0.25 * extent b i)
  | waveguide =>
      (1 <= dim g)%nat ->
      exists g', compute_pml_mesh_data b al g = Some g' /\
        domain_box_is b g' /\ dim g' = dim g /\
        layer_hi b g' 0 (lit 0.25 * extent b 0) /\
        no_layer_lo b g' 0 /\
        forall i, (1 <= i < dim g)%nat -> no_layer_lo b g' i /\ no_layer_hi b g' i
  | cyl_waveguide =>
      dim g = 3%nat ->
      exists g', compute_pml_mesh_data b al g = Some g' /\
        domain_box_is b g' /\ dim g' = dim g /\
        layer_hi b g' 2 (lit 0.125 * extent b 2) /\
        no_layer_lo b g' 2 /\
        forall i, (i < 2)%nat -> no_layer_lo b g' i /\ no_layer_hi b g' i
  end.
Proof.
  intros Hd. destruct (prob g) eqn:Hp.
  - apply both_sides_policy; [by right|done].
  - apply both_sides_policy; [by left|done].
  - intros H1. apply waveguide_policy; [done|lia].
  - intros H3. by apply cyl_waveguide_policy.
Qed.

(** The run leaves the tables with the sizes the functions evaluated at a
    point expect. *)
Lemma compute_pml_mesh_data_wf b al (g g' : globals D) :
  (dim g <= 3)%nat -> compute_pml_mesh_data b al g = Some g' -> globals_wf g'.
Proof.
  intros Hd. destruct g as [om d dom pml comp p]. simpl in *.
  destruct d as [|[|[|[|d]]]]; [| | | |lia]; destruct p;
    vm_compute; intros Hrun; simplify_eq;
    (split; [simpl; lia|]); repeat split.
Qed.

(** The width of a side of the rectangular waveguide that has no layer is
    never written: it is what [SetSize] left there. *)
Lemma waveguide_width_untouched b al (g : globals D) i j :
  prob g = waveguide -> (1 <= dim g <= 3)%nat -> (i < dim g)%nat -> (j < 2)%nat ->
  (i, j) <> (0%nat, 1%nat) ->
  exists g', compute_pml_mesh_data b al g = Some g' /\
    A2get (pml_lngth g') i j =
      Some (default (fresh_pml al (i * 2 + j))
                    (array1d (pml_lngth g) !! (i * 2 + j)%nat)).
Proof.
  intros Hp Hd Hi Hj Hij. destruct g as [om d dom pml comp p]. simpl in *. subst.
  destruct d as [|[|[|[|d]]]]; [lia| | | |lia];
    (eexists; split; [vm_compute; reflexivity|]);
    destruct i as [|[|[|i]]]; try lia; destruct j as [|[|j]]; try lia;
    solve [reflexivity | by destruct Hij].
Qed.
End Geometry.

(** ** The element classifier *)

Section ClassifierProperties.
Context {D : Type} {ops : DoubleOps D}.
Local Open Scope dbl_scope.

Lemma outside_comp_box_spec (g : globals D) pmesh v comp :
  Array2D_dims (dim g) 2 (comp_domain_bdr g) ->
  (v < GetNDofs pmesh)%nat -> (comp < dim g)%nat ->
  outside_comp_box g pmesh v comp = Some (strictly_outside g pmesh v comp).
Proof.
  intros Hc Hv Hcomp. unfold outside_comp_box, strictly_outside, coords.
  rewrite decide_True by done. simpl.
  destruct (A2get_is_Some _ _ _ comp 1%nat Hc) as [hi ->]; [lia..|].
  destruct (A2get_is_Some _ _ _ comp 0%nat Hc) as [lo ->]; [lia..|].
  simpl. by destruct (hi <? node_coord pmesh v comp).
Qed.

(** The loop over the vertices, on a list that grew by one vertex, runs on
    the old part as before. *)
Lemma vertex_loop_prefix (g : globals D) pmesh vs v n s :
  (n <= length vs)%nat ->
  for_loop n (fun iv in_pml =>
    vert_idx ← (vs ++ [v]) !! iv;
    found ← any_break (seq 0 (dim g)) (outside_comp_box g pmesh vert_idx);
    Some (if (found : bool) then true else in_pml)) s =
  for_loop n (fun iv in_pml =>
    vert_idx ← vs !! iv;
    found ← any_break (seq 0 (dim g)) (outside_comp_box g pmesh vert_idx);
    Some (if (found : bool) then true else in_pml)) s.
Proof.
  induction n as [|n IHn]; intros Hn; [done|].
  rewrite !for_loop_S, IHn by lia. clear IHn.
  destruct (for_loop n _ s); simpl; [|done]. by rewrite lookup_app_l by lia.
Qed.

Lemma element_in_pml_spec (g : globals D) pmesh vertices :
  Array2D_dims (dim g) 2 (comp_domain_bdr g) ->
  (forall v, v ∈ vertices -> (v < GetNDofs pmesh)%nat) ->
  element_in_pml g pmesh vertices = Some (some_vertex_outside g pmesh vertices).
Proof.
  intros Hc. unfold element_in_pml, some_vertex_outside.
  induction vertices as [|v vs IH] using rev_ind; intros Hvs; [done|].
  rewrite length_app, Nat.add_1_r, for_loop_S.
  rewrite vertex_loop_prefix by done.
  rewrite IH by (intros w Hw; apply Hvs, elem_of_app; by left).
  simpl. rewrite list_lookup_middle by done. simpl.
  rewrite (any_break_existsb _ _ (strictly_outside g pmesh v)).
  - simpl. rewrite existsb_app. simpl. rewrite orb_false_r.
    by destruct (existsb (strictly_outside g pmesh v) _), (existsb _ vs).
  - intros j Hj. apply elem_of_seq in Hj. apply outside_comp_box_spec; [done| |lia].
    apply Hvs, elem_of_app. right. by left.
Qed.

Lemma compute_pml_elem_list_spec (g : globals D) pmesh :
  Array2D_dims (dim g) 2 (comp_domain_bdr g) ->
  (forall e v, (e < GetNE pmesh)%nat -> v ∈ GetVertices pmesh e ->
               (v < GetNDofs pmesh)%nat) ->
  exists elem_pml,
    compute_pml_elem_list g pmesh = Some elem_pml /\
    length elem_pml = GetNE pmesh /\
    forall e, (e < GetNE pmesh)%nat ->
      elem_pml !! e =
        Some (if some_vertex_outside g pmesh (GetVertices pmesh e) then 0%Z else 1%Z).
Proof.
  intros Hc Hv. unfold compute_pml_elem_list.
  set (body := fun (i : nat) (elem_pml : list Z) =>
    in_pml ← element_in_pml g pmesh (GetVertices pmesh i);
    if (in_pml : bool) then vset elem_pml i 0%Z else Some elem_pml).
  assert (Hn: forall n, (n <= GetNE pmesh)%nat -> exists l,
    for_loop n body (replicate (GetNE pmesh) 1%Z) = Some l /\
    length l = GetNE pmesh /\
    (forall e, (e < n)%nat -> l !! e =
       Some (if some_vertex_outside g pmesh (GetVertices pmesh e) then 0%Z else 1%Z)) /\
    (forall e, (n <= e < GetNE pmesh)%nat -> l !! e = Some 1%Z)).
  { induction n as [|n IHn]; intros Hle.
    - eexists; split; [done|]. split; [by rewrite length_replicate|].
      split; [lia|]. intros e He. apply lookup_replicate_2. lia.
    - destruct IHn as (l & Hrun & Hlen & Hlo & Hhi); [lia|].
      rewrite for_loop_S, Hrun. simpl. unfold body at 1.
      rewrite element_in_pml_spec; [|done|intros v Hin; eapply Hv; [|done]; lia].
      simpl. destruct (some_vertex_outside g pmesh (GetVertices pmesh n)) eqn:Hout.
      + rewrite vset_is_Some by lia. eexists; split; [done|].
        split; [by rewrite length_insert|]. split.
        * intros e He. destruct (decide (e = n)) as [->|Hne].
          -- rewrite list_lookup_insert_eq by lia. by rewrite Hout.
          -- rewrite list_lookup_insert_ne by done. apply Hlo. lia.
        * intros e He. rewrite list_lookup_insert_ne by lia. apply Hhi. lia.
      + eexists; split; [done|]. split; [done|]. split.
        * intros e He. destruct (decide (e = n)) as [->|Hne].
          -- rewrite Hout. apply Hhi. lia.
          -- apply Hlo. lia.
        * intros e He. apply Hhi. lia. }
  destruct (Hn (GetNE pmesh)) as (l & Hrun & Hlen & Hlo & _); [done|].
  exists l. split; [done|]. split; [done|]. done.
Qed.

Lemma some_vertex_outside_iff (g : globals D) pmesh e :
  some_vertex_outside g pmesh (GetVertices pmesh e) = true <->
  has_vertex_outside g pmesh e.
Proof.
  unfold some_vertex_outside, has_vertex_outside. rewrite existsb_exists. split.
  - intros (v & Hv & Hex). apply existsb_exists in Hex as (comp & Hcomp & Hout).
    rewrite <- list_elem_of_In in Hv. rewrite <- list_elem_of_In, elem_of_seq in Hcomp.
    unfold strictly_outside in Hout.
    destruct (A2get (comp_domain_bdr g) comp 1) as [hi|] eqn:Hhi; [|done].
    destruct (A2get (comp_domain_bdr g) comp 0) as [lo|] eqn:Hlo; [|done].
    exists v, comp, hi, lo. split; [done|]. split; [lia|].
    split; [done|]. split; [done|]. by apply orb_true_iff.
  - intros (v & comp & hi & lo & Hv & Hcomp & Hhi & Hlo & Hout).
    exists v. split; [by rewrite <- list_elem_of_In|].
    apply existsb_exists. exists comp. split.
    + rewrite <- list_elem_of_In, elem_of_seq. lia.
    + unfold strictly_outside. rewrite Hhi, Hlo. by apply orb_true_iff.
Qed.
End ClassifierProperties.

(** C4: the classifier labels an element pml (0) exactly when one of its
    vertices has, on some axis, a coordinate above the high face or below
    the low face of the computational box, and interior (1) otherwise.  For
    the scattering variant on the unit square, in binary64, the
    computational box is [0.25, 0.75] on both axes, an element whose
    vertices all sit at the centre (0.5, 0.5) is interior and an element
    with a vertex at (0, 0) is pml. *)
Theorem classifier_rule :
  (forall (D : Type) (ops : DoubleOps D) (g : globals D) (pmesh : ParMesh D),
     Array2D_dims (dim g) 2 (comp_domain_bdr g) ->
     (forall e v, (e < GetNE pmesh)%nat -> v ∈ GetVertices pmesh e ->
                  (v < GetNDofs pmesh)%nat) ->
     exists elem_pml,
       compute_pml_elem_list g pmesh = Some elem_pml /\
       length elem_pml = GetNE pmesh /\
       forall e, (e < GetNE pmesh)%nat ->
         (has_vertex_outside g pmesh e -> elem_pml !! e = Some 0%Z) /\
         (~ has_vertex_outside g pmesh e -> elem_pml !! e = Some 1%Z)) /\
  (forall (lm : Libm) (al : Allocation float) (zlo zhi : float) (pmesh : ParMesh float),
     (forall e v, (e < GetNE pmesh)%nat -> v ∈ GetVertices pmesh e ->
                  (v < GetNDofs pmesh)%nat) ->
     exists g elem_pml,
       compute_pml_mesh_data (ops := float_ops lm) (unit_square zlo zhi) al
         (empty_globals two_pi 2 scatter) = Some g /\
       comp_domain_bdr g = mkArray2D [0.25; 0.75; 0.25; 0.75]%float 2 /\
       compute_pml_elem_list (ops := float_ops lm) g pmesh = Some elem_pml /\
       forall e, (e < GetNE pmesh)%nat ->
         ((forall v, v ∈ GetVertices pmesh e ->
             node_coord pmesh v 0 = 0.5%float /\ node_coord pmesh v 1 = 0.5%float) ->
          elem_pml !! e = Some 1%Z) /\
         ((exists v, v ∈ GetVertices pmesh e /\
             node_coord pmesh v 0 = 0%float /\ node_coord pmesh v 1 = 0%float) ->
          elem_pml !! e = Some 0%Z)).
Proof.
  split.
  - intros D ops g pmesh Hc Hv.
    destruct (compute_pml_elem_list_spec g pmesh Hc Hv) as (l & Hrun & Hlen & Hl).
    exists l. split; [done|]. split; [done|]. intros e He. rewrite (Hl e He).
    split; intros Hout.
    + apply some_vertex_outside_iff in Hout. by rewrite Hout.
    + destruct (some_vertex_outside g pmesh (GetVertices pmesh e)) eqn:Hb; [|done].
      by apply some_vertex_outside_iff in Hb.
  - intros lm al zlo zhi pmesh Hv.
    eexists.
    assert (Hg: compute_pml_mesh_data (ops := float_ops lm) (unit_square zlo zhi) al
      (empty_globals two_pi 2 scatter) =
      Some (mkGlobals two_pi 2 (mkArray2D [0; 1; 0; 1; zlo; zhi]%float 2)
              (mkArray2D [0.25; 0.25; 0.25; 0.25]%float 2)
              (mkArray2D [0.25; 0.75; 0.25; 0.75]%float 2) scatter)).
    { vm_compute. reflexivity. }
    set (g := mkGlobals _ _ _ _ _ _) in Hg.
    destruct (compute_pml_elem_list_spec (ops := float_ops lm) g pmesh)
      as (l & Hrun & Hlen & Hl); [split; reflexivity|exact Hv|].
    exists l. split; [exact Hg|]. split; [reflexivity|]. split; [exact Hrun|].
    clear Hg. intros e He. rewrite (Hl e He). split.
    + intros Hall.
      destruct (some_vertex_outside g pmesh (GetVertices pmesh e)) eqn:Hb; [|done].
      apply (some_vertex_outside_iff (ops := float_ops lm)) in Hb
        as (v & comp & hi & lo & Hin & Hcomp & Hhi & Hlo & Hout).
      destruct (Hall v Hin) as [H0 H1]. simpl in Hcomp.
      destruct comp as [|[|comp]]; [| |lia]; vm_compute in Hhi, Hlo;
        injection Hhi as <-; injection Hlo as <-;
        rewrite ?H0, ?H1 in Hout; vm_compute in Hout; by destruct Hout.
    + intros (v & Hin & H0 & H1).
      assert (Hout: has_vertex_outside (ops := float_ops lm) g pmesh e).
      { exists v, 0%nat, 0.75%float, 0.25%float. split; [done|]. split; [simpl; lia|].
        split; [done|]. split; [done|]. right. rewrite H0. reflexivity. }
      apply (some_vertex_outside_iff (ops := float_ops lm)) in Hout. by rewrite Hout.
Qed.

(** ** The load *)

(** C9: [source_im] writes the first component of [f_im] only: the result
    is [f_im] with a new entry at index 0, so every component of index 1
    and above holds what it held, zero or not. *)
Theorem source_im_frame {D : Type} {ops : DoubleOps D} (g : globals D) (x f_im : list D) :
  globals_wf g -> (dim g <= length x)%nat -> (0 < length f_im)%nat ->
  exists v f', source_im g x f_im = Some f' /\ f' = <[0%nat := v]> f_im /\
    length f' = length f_im /\
    forall i, (1 <= i)%nat -> f' !! i = f_im !! i.
Proof.
  intros (Hdim & _ & _ & Hcomp) Hx Hf. unfold source_im.
  edestruct (for_each_total
    (fun s : list D * D => length s.1 = dim g) (seq 0 (dim g))) as ([center r] & Hrun & _);
    [| |unfold for_loop; rewrite Hrun].
  - simpl. by rewrite length_replicate.
  - intros i [center r] Hi Hlen. simpl in Hlen.
    apply elem_of_seq in Hi as [_ Hi]. simpl in Hi.
    destruct (A2get_is_Some _ _ _ i 0%nat Hcomp) as [lo ->]; [done|lia|].
    destruct (A2get_is_Some _ _ _ i 1%nat Hcomp) as [hi ->]; [done|lia|].
    simpl. rewrite vset_is_Some by lia. simpl.
    destruct (lookup_lt_is_Some_2 x i) as [xi ->]; [lia|]. simpl.
    rewrite list_lookup_insert_eq by lia. simpl.
    eexists; split; [done|]. simpl. by rewrite length_insert.
  - simpl. rewrite vset_is_Some by done.
    eexists _, _; split; [done|]. split; [done|]. split; [by rewrite length_insert|].
    intros i Hi. apply list_lookup_insert_ne. lia.
Qed.

(** ** The stretching function, for every arithmetic *)

Section StretchingProperties.
Context {D : Type} {ops : DoubleOps D}.
Local Open Scope dbl_scope.

Lemma init_loop_spec (n : nat) (dxs0 : list (complex D)) :
  (n <= length dxs0)%nat ->
  exists dxs, for_loop n (fun i dxs => vset dxs i cone) dxs0 = Some dxs /\
    length dxs = length dxs0 /\
    (forall i, (i < n)%nat -> dxs !! i = Some cone) /\
    (forall i, (n <= i)%nat -> dxs !! i = dxs0 !! i).
Proof.
  induction n as [|n IH]; intros Hn.
  - exists dxs0. split; [done|]. split; [done|]. split; [lia|done].
  - destruct IH as (dxs & Hrun & Hlen & Hlo & Hhi); [lia|].
    rewrite for_loop_S, Hrun. simpl. rewrite vset_is_Some by lia.
    eexists; split; [done|]. split; [by rewrite length_insert|]. split.
    + intros i Hi. destruct (decide (i = n)) as [->|].
      * apply list_lookup_insert_eq. lia.
      * rewrite list_lookup_insert_ne by done. apply Hlo. lia.
    + intros i Hi. rewrite list_lookup_insert_ne by lia. apply Hhi. lia.
Qed.

(** One turn of the loop over [j]: the high side, then the low side. *)
Lemma stretch_pass (g : globals D) x i dxs xi lo hi wlo whi :
  x !! i = Some xi ->
  A2get (comp_domain_bdr g) i 0 = Some lo ->
  A2get (comp_domain_bdr g) i 1 = Some hi ->
  A2get (pml_lngth g) i 0 = Some wlo ->
  A2get (pml_lngth g) i 1 = Some whi ->
  (i < length dxs)%nat ->
  (dxs' ← stretch_high g x i dxs; stretch_low g x i dxs') =
    Some (if xi <=? lo then <[i := stretch_factor g wlo (xi - lo)]> dxs
          else if xi >=? hi then <[i := stretch_factor g whi (xi - hi)]> dxs
          else dxs).
Proof.
  intros Hx Hlo Hhi Hwlo Hwhi Hi.
  unfold stretch_high, stretch_low, high_side_test, low_side_test.
  rewrite Hx, Hlo, Hhi, Hwlo, Hwhi. simpl.
  destruct (hi <=? xi) eqn:Hge; simpl.
  - rewrite vset_is_Some by done. simpl.
    destruct (xi <=? lo) eqn:Hle; [|done].
    rewrite vset_is_Some by (by rewrite length_insert).
    by rewrite list_insert_insert_eq.
  - destruct (xi <=? lo) eqn:Hle; [|done]. by rewrite vset_is_Some.
Qed.

(** The two turns of the loop over [j] do what one does: they write the
    factor of the axis, or leave [dxs[i]] when no side applies. *)
Lemma axis_loop_spec (g : globals D) x i dxs f :
  axis_factor g x i = Some f -> (i < length dxs)%nat ->
  for_loop 2 (fun (j : nat) dxs =>
    dxs ← stretch_high g x i dxs; stretch_low g x i dxs) dxs = Some (<[i := f]> dxs)
  \/ (f = cone /\
      for_loop 2 (fun (j : nat) dxs =>
        dxs ← stretch_high g x i dxs; stretch_low g x i dxs) dxs = Some dxs).
Proof.
  unfold axis_factor. intros Hf Hi.
  destruct (x !! i) as [xi|] eqn:Hx; simplify_eq/=.
  destruct (A2get (comp_domain_bdr g) i 0) as [lo|] eqn:Hlo; simplify_eq/=.
  destruct (A2get (comp_domain_bdr g) i 1) as [hi|] eqn:Hhi; simplify_eq/=.
  destruct (A2get (pml_lngth g) i 0) as [wlo|] eqn:Hwlo; simplify_eq/=.
  destruct (A2get (pml_lngth g) i 1) as [whi|] eqn:Hwhi; simplify_eq/=.
  unfold for_loop. simpl.
  rewrite (stretch_pass g x i dxs xi lo hi wlo whi) by done. simpl.
  destruct (xi <=? lo) eqn:Hle.
  - left. rewrite (stretch_pass g x i _ xi lo hi wlo whi)
      by (try done; by rewrite length_insert).
    rewrite Hle. simpl. by rewrite list_insert_insert_eq.
  - destruct (hi <=? xi) eqn:Hge.
    + left. rewrite (stretch_pass g x i _ xi lo hi wlo whi)
        by (try done; by rewrite length_insert).
      rewrite Hle, Hge. simpl. by rewrite list_insert_insert_eq.
    + right. split; [done|].
      rewrite (stretch_pass g x i _ xi lo hi wlo whi) by done.
      by rewrite Hle, Hge.
Qed.

Lemma axis_factor_is_Some (g : globals D) x i :
  globals_wf g -> (dim g <= length x)%nat -> (i < dim g)%nat ->
  is_Some (axis_factor g x i).
Proof.
  intros (_ & _ & Hpml & Hcomp) Hx Hi. unfold axis_factor.
  destruct (lookup_lt_is_Some_2 x i) as [xi ->]; [lia|]. simpl.
  destruct (A2get_is_Some _ _ _ i 0%nat Hcomp) as [lo ->]; [lia..|].
  destruct (A2get_is_Some _ _ _ i 1%nat Hcomp) as [hi ->]; [lia..|].
  destruct (A2get_is_Some _ _ _ i 0%nat Hpml) as [wlo ->]; [lia..|].
  destruct (A2get_is_Some _ _ _ i 1%nat Hpml) as [whi ->]; [lia..|].
  done.
Qed.

(** [pml_function] is defined on a state of the right sizes, and leaves in
    each of the first [dim] entries of [dxs] the factor of its axis. *)
Lemma pml_function_spec (g : globals D) x dxs0 :
  globals_wf g -> (dim g <= length x)%nat -> (dim g <= length dxs0)%nat ->
  exists dxs, pml_function g x dxs0 = Some dxs /\
    length dxs = length dxs0 /\
    (forall i, (i < dim g)%nat -> dxs !! i = axis_factor g x i) /\
    (forall i, (dim g <= i)%nat -> dxs !! i = dxs0 !! i).
Proof.
  intros Hwf Hx Hd. unfold pml_function.
  destruct (init_loop_spec (dim g) dxs0 Hd) as (dxs1 & -> & Hlen1 & Hone & Hrest).
  simpl.
  assert (Hn: forall n, (n <= dim g)%nat -> exists dxs,
    for_loop n (fun i dxs => for_loop 2 (fun (j : nat) dxs =>
      dxs ← stretch_high g x i dxs; stretch_low g x i dxs) dxs) dxs1 = Some dxs /\
    length dxs = length dxs0 /\
    (forall i, (i < n)%nat -> dxs !! i = axis_factor g x i) /\
    (forall i, (n <= i)%nat -> dxs !! i = dxs1 !! i)).
  { induction n as [|n IH]; intros Hn.
    - exists dxs1. split; [done|]. split; [done|]. split; [lia|done].
    - destruct IH as (dxs & Hrun & Hlen & Hlo & Hhi); [lia|].
      rewrite for_loop_S, Hrun. simpl.
      destruct (axis_factor_is_Some g x n) as [f Hf]; [done..|].
      destruct (axis_loop_spec g x n dxs f Hf) as [->|[-> ->]]; [lia| |].
      + eexists; split; [done|]. split; [by rewrite length_insert|]. split.
        * intros i Hi. destruct (decide (i = n)) as [->|].
          -- rewrite Hf. apply list_lookup_insert_eq. lia.
          -- rewrite list_lookup_insert_ne by done. apply Hlo. lia.
        * intros i Hi. rewrite list_lookup_insert_ne by lia. apply Hhi. lia.
      + eexists; split; [done|]. split; [done|]. split.
        * intros i Hi. destruct (decide (i = n)) as [->|].
          -- rewrite Hf, Hhi by lia. apply Hone. lia.
          -- apply Hlo. lia.
        * intros i Hi. apply Hhi. lia. }
  destruct (Hn (dim g)) as (dxs & Hrun & Hlen & Hlo & Hhi); [done|].
  exists dxs. split; [done|]. split; [done|]. split; [done|].
  intros i Hi. rewrite Hhi by done. by apply Hrest.
Qed.

(** Where no side applies on any axis, [pml_function] returns the factor
    [one] on every axis. *)
Lemma pml_function_unstretched (g : globals D) x :
  globals_wf g -> (dim g <= length x)%nat ->
  (forall i, (i < dim g)%nat -> axis_factor g x i = Some cone) ->
  pml_function g x (replicate (dim g) czero) = Some (replicate (dim g) cone).
Proof.
  intros Hwf Hx Hone.
  destruct (pml_function_spec g x (replicate (dim g) czero) Hwf Hx)
    as (dxs & -> & Hlen & Hfac & _); [by rewrite length_replicate|].
  f_equal. rewrite length_replicate in Hlen.
  apply list_eq. intros i. destruct (decide (i < dim g)%nat) as [Hi|Hi].
  - by rewrite (Hfac i Hi), lookup_replicate_2, Hone.
  - rewrite !lookup_ge_None_2; [done|rewrite length_replicate; lia|lia].
Qed.

(** The loop [det *= dxs[i]] forms the product of the first [n] factors. *)
Lemma det_loop_spec (dxs : list (complex D)) (n : nat) det :
  (n <= length dxs)%nat ->
  for_loop n (fun i det => d ← dxs !! i; Some (cmul det d)) det
    = Some (foldl cmul det (take n dxs)).
Proof.
  induction n as [|n IH]; intros Hn; [done|].
  rewrite for_loop_S, IH by lia. simpl.
  destruct (lookup_lt_is_Some_2 dxs n) as [d Hd]; [lia|]. rewrite Hd. simpl.
  by rewrite (take_S_r _ _ _ Hd), foldl_app.
Qed.
End StretchingProperties.

(** ** The boundary data, for every arithmetic *)

Section BoundaryDataProperties.
Context {D : Type} {ops : DoubleOps D}.
Local Open Scope dbl_scope.

Lemma on_domain_bdr_is_Some (g : globals D) x i :
  globals_wf g -> (dim g <= length x)%nat -> (i < dim g)%nat ->
  is_Some (on_domain_bdr g x i).
Proof.
  intros (Hdim & Hdom & _) Hx Hi. unfold on_domain_bdr.
  destruct (lookup_lt_is_Some_2 x i) as [xi ->]; [lia|]. simpl.
  destruct (A2get_is_Some _ _ _ i 0%nat Hdom) as [d0 ->]; [lia..|].
  destruct (A2get_is_Some _ _ _ i 1%nat Hdom) as [d1 ->]; [lia..|].
  simpl. by case_match.
Qed.

Lemma E_bdr_data_scatter_zero part (g : globals D) x E i :
  globals_wf g -> prob g = scatter -> (dim g <= length x)%nat ->
  (i < dim g)%nat -> on_domain_bdr g x i = Some true ->
  E_bdr_data part g x E = Some (replicate (length E) (lit 0.0)).
Proof.
  intros Hwf Hp Hx Hi Hon. unfold E_bdr_data. rewrite Hp.
  rewrite (any_break_true _ _ i); [done| |done|].
  - apply elem_of_seq. lia.
  - intros j Hj. apply elem_of_seq in Hj. apply on_domain_bdr_is_Some; [done..|lia].
Qed.

(** On the mesh of the waveguide, in three dimensions, the mode is
    evaluated and copied without an access out of bounds. *)
Lemma copy_ess_data_waveguide part (g : globals D) x E :
  prob g = waveguide -> dim g = 3%nat -> length x = 3%nat -> length E = 3%nat ->
  exists E', copy_ess_data part g x E = Some E' /\ length E' = 3%nat.
Proof.
  intros Hp Hd Hx HE. destruct g as [om d dom pml comp p]. simpl in *. subst.
  destruct x as [|x0 [|x1 [|x2 [|]]]]; try done.
  destruct E as [|e0 [|e1 [|e2 [|]]]]; try done.
  eexists. split; [reflexivity|done].
Qed.

Lemma E_bdr_data_waveguide_zero part (g : globals D) x E x0 d1 :
  prob g = waveguide -> dim g = 3%nat -> length x = 3%nat -> length E = 3%nat ->
  x !! 0%nat = Some x0 -> A2get (domain_bdr g) 0 1 = Some d1 ->
  (fabs (x0 - d1) <? lit 1e-13) = true ->
  E_bdr_data part g x E = Some (replicate 3 (lit 0.0)).
Proof.
  intros Hp Hd Hx HE Hx0 Hd1 Ht. unfold E_bdr_data. rewrite Hp.
  destruct (copy_ess_data_waveguide part g x (replicate (length E) (lit 0.0)))
    as (E' & -> & HE'); [done..|by rewrite length_replicate|].
  simpl. rewrite Hx0. simpl. rewrite Hd1. simpl. rewrite Ht. by rewrite HE'.
Qed.
End BoundaryDataProperties.

(** C10: for the load variant [E_bdr_data_Re] and [E_bdr_data_Im] return
    the zero vector at every point, in every state and for every
    arithmetic: no branch follows the initial [E = 0.0].  The constant
    [0.0] is the zero of the reals and the zero of binary64. *)
Theorem E_bdr_data_load_src_zero :
  (forall (D : Type) (ops : DoubleOps D) (om : D) (d : nat)
          (dom pml comp : Array2D D) (x E : list D),
     E_bdr_data_Re (mkGlobals om d dom pml comp load_src) x E
       = Some (replicate (length E) (lit 0.0)) /\
     E_bdr_data_Im (mkGlobals om d dom pml comp load_src) x E
       = Some (replicate (length E) (lit 0.0))) /\
  (forall bf : Bessel, lit (ops := R_ops bf) 0.0 = 0%R) /\
  (forall lm : Libm, lit (ops := float_ops lm) 0.0 = 0%float).
Proof.
  split; [done|]. split.
  - intros bf. unfold lit. simpl. lra.
  - intros lm. reflexivity.
Qed.

(** ** The arithmetic of the reals *)

Lemma Rltb_true x y : Rltb x y = true <-> (x < y)%R.
Proof. unfold Rltb. destruct (Rlt_dec x y); split; (done || lra). Qed.

Lemma Rleb_true x y : Rleb x y = true <-> (x <= y)%R.
Proof. unfold Rleb. destruct (Rle_dec x y); split; (done || lra). Qed.

Lemma Rleb_false x y : Rleb x y = false <-> (y < x)%R.
Proof. unfold Rleb. destruct (Rle_dec x y); split; (done || lra). Qed.

Lemma Int_part_IZR z : Int_part (IZR z) = z.
Proof. symmetry. apply Int_part_spec. lra. Qed.

Lemma Rpow_IZR x z : Rpow x (IZR z) = powerRZ x z.
Proof.
  unfold Rpow. rewrite Int_part_IZR. by destruct (Req_dec_T (IZR z) (IZR z)).
Qed.

(** [pow(x, 2.0)] is the square and [pow(x, 1.0)] is [x], for [x] of either
    sign. *)
Lemma Rpow_2 x y : y = 2%R -> Rpow x y = (x * x)%R.
Proof. intros ->. rewrite Rpow_IZR. simpl. ring. Qed.

Lemma Rpow_1 x y : y = 1%R -> Rpow x y = x.
Proof. intros ->. rewrite Rpow_IZR. simpl. ring. Qed.

Section RealProperties.
Context (bf : Bessel).
Local Open Scope R_scope.

Lemma lit_zero_R : lit (ops := R_ops bf) 0.0 = 0.
Proof. unfold lit. simpl. lra. Qed.

Lemma cone_R : cone (ops := R_ops bf) = Cx 1 0.
Proof. unfold cone, lit. simpl. f_equal; lra. Qed.

(** The factor over the reals: [1 + i coeff |d|^(n-1)] with
    [coeff = n c / (omega w^n)], [n = 2] and [c = 10]. *)
Lemma stretch_factor_R (g : globals R) w d :
  stretch_factor (ops := R_ops bf) g w d =
    Cx 1 (2 * 10 / (omega g * w ^ 2) * Rabs d ^ 1).
Proof.
  unfold stretch_factor, cadd, cmul_d, cone, zi, lit. simpl.
  rewrite (Rpow_2 w) by lra. rewrite (Rpow_1 d) by lra.
  f_equal; unfold Rdiv; rewrite ?Rinv_mult; simpl; ring_simplify; try lra.
Qed.

Lemma axis_factor_R (g : globals R) x i xi lo hi wlo whi :
  x !! i = Some xi ->
  A2get (comp_domain_bdr g) i 0 = Some lo ->
  A2get (comp_domain_bdr g) i 1 = Some hi ->
  A2get (pml_lngth g) i 0 = Some wlo ->
  A2get (pml_lngth g) i 1 = Some whi ->
  axis_factor (ops := R_ops bf) g x i =
    Some (if Rle_dec xi lo then Cx 1 (2 * 10 / (omega g * wlo ^ 2) * Rabs (xi - lo) ^ 1)
          else if Rle_dec hi xi then Cx 1 (2 * 10 / (omega g * whi ^ 2) * Rabs (xi - hi) ^ 1)
          else Cx 1 0).
Proof.
  intros Hx Hlo Hhi Hwlo Hwhi. unfold axis_factor.
  rewrite Hx, Hlo, Hhi, Hwlo, Hwhi. simpl. unfold Rleb.
  rewrite !stretch_factor_R, cone_R.
  by destruct (Rle_dec xi lo), (Rle_dec hi xi).
Qed.

(** C1: over the reals, on a state whose computational box is not
    inverted on axis [i], the factor that [pml_function] leaves for the axis
    is [1 + 0i] when the coordinate is strictly inside the box, [1 + i coeff
    |x(i) - comp_max|^(n-1)] with [coeff = n c / (omega width_hi^n)], [n = 2]
    and [c = 10], when it exceeds [comp_max], and the same with [comp_min]
    and [width_lo] when it is below [comp_min]. *)
Theorem pml_function_stretching (g : globals R) x dxs0 i xi lo hi wlo whi :
  globals_wf g -> (dim g <= length x)%nat -> (dim g <= length dxs0)%nat ->
  (i < dim g)%nat ->
  x !! i = Some xi ->
  A2get (comp_domain_bdr g) i 0 = Some lo ->
  A2get (comp_domain_bdr g) i 1 = Some hi ->
  A2get (pml_lngth g) i 0 = Some wlo ->
  A2get (pml_lngth g) i 1 = Some whi ->
  lo <= hi ->
  exists dxs, pml_function (ops := R_ops bf) g x dxs0 = Some dxs /\
    (lo < xi < hi -> dxs !! i = Some (Cx 1 0)) /\
    (hi < xi ->
       dxs !! i = Some (Cx 1 (2 * 10 / (omega g * whi ^ 2) * Rabs (xi - hi) ^ (2 - 1)))) /\
    (xi < lo ->
       dxs !! i = Some (Cx 1 (2 * 10 / (omega g * wlo ^ 2) * Rabs (xi - lo) ^ (2 - 1)))).
Proof.
  intros Hwf Hx Hd Hi Hxi Hlo Hhi Hwlo Hwhi Hbox.
  destruct (pml_function_spec (ops := R_ops bf) g x dxs0 Hwf Hx Hd)
    as (dxs & Hrun & _ & Hin & _).
  exists dxs. split; [done|].
  rewrite (Hin i Hi), (axis_factor_R g x i xi lo hi wlo whi) by done.
  change (2 - 1)%nat with 1%nat.
  repeat split; intros; destruct (Rle_dec xi lo), (Rle_dec hi xi); (done || lra).
Qed.

(** The computational box that [compute_pml_mesh_data] forms from an
    ordered domain box is not inverted: the hypothesis of C1 holds of every
    state the program reaches. *)
Lemma comp_box_ordered b al (g g' : globals R) i :
  (dim g <= 3)%nat ->
  (forall k, bound_lo (D := R) b k <= bound_hi b k) ->
  compute_pml_mesh_data (ops := R_ops bf) b al g = Some g' ->
  (i < dim g)%nat ->
  exists lo hi, A2get (comp_domain_bdr g') i 0 = Some lo /\
    A2get (comp_domain_bdr g') i 1 = Some hi /\ lo <= hi.
Proof.
  intros Hd Hb Hrun Hi.
  pose proof (Hb 0%nat) as H0. pose proof (Hb 1%nat) as H1. pose proof (Hb 2%nat) as H2.
  simpl in H0, H1, H2.
  destruct (prob g) eqn:Hp.
  - destruct (both_sides_policy (ops := R_ops bf) b al g) as (g1 & Hg1 & _ & _ & Hl);
      [by right|done|].
    rewrite Hrun in Hg1. injection Hg1 as <-.
    destruct (Hl i Hi) as [[_ Hlo] [_ Hhi]]. eexists _, _. split; [done|]. split; [done|].
    unfold extent, lit. simpl. destruct i as [|[|i]]; simpl; lra.
  - destruct (both_sides_policy (ops := R_ops bf) b al g) as (g1 & Hg1 & _ & _ & Hl);
      [by left|done|].
    rewrite Hrun in Hg1. injection Hg1 as <-.
    destruct (Hl i Hi) as [[_ Hlo] [_ Hhi]]. eexists _, _. split; [done|]. split; [done|].
    unfold extent, lit. simpl. destruct i as [|[|i]]; simpl; lra.
  - destruct (waveguide_policy (ops := R_ops bf) b al g)
      as (g1 & Hg1 & _ & _ & [_ Hhi0] & Hlo0 & Hrest); [done|lia|].
    rewrite Hrun in Hg1. injection Hg1 as <-.
    destruct i as [|i].
    + eexists _, _. split; [done|]. split; [done|].
      unfold extent, lit. simpl. lra.
    + destruct (Hrest (S i)) as [Hlo Hhi]; [lia|].
      eexists _, _. split; [done|]. split; [done|]. apply Hb.
  - destruct g as [om d dom pml comp p]. simpl in *. subst.
    destruct d as [|[|[|[|d]]]]; [lia| | | |lia]; try (vm_compute in Hrun; done).
    destruct (cyl_waveguide_policy (ops := R_ops bf) b al
                (mkGlobals om 3 dom pml comp cyl_waveguide))
      as (g1 & Hg1 & _ & _ & [_ Hhi2] & Hlo2 & Hrest); [done..|].
    rewrite Hrun in Hg1. injection Hg1 as <-.
    destruct i as [|[|[|i]]]; [| | |lia].
    + destruct (Hrest 0%nat) as [Hlo Hhi]; [lia|].
      eexists _, _. split; [done|]. split; [done|]. apply Hb.
    + destruct (Hrest 1%nat) as [Hlo Hhi]; [lia|].
      eexists _, _. split; [done|]. split; [done|]. apply Hb.
    + eexists _, _. split; [done|]. split; [done|].
      unfold extent, lit. simpl. lra.
Qed.

Lemma cnorm2_cmul z w :
  cnorm2 (cmul (ops := R_ops bf) z w) = cnorm2 z * cnorm2 w.
Proof. unfold cnorm2, cmul. simpl. ring. Qed.

(** A product of factors of real part 1 has modulus at least 1. *)
Lemma foldl_cmul_norm (l : list (complex R)) z :
  Forall (fun d => real d = 1) l -> 1 <= cnorm2 z ->
  1 <= cnorm2 (foldl (cmul (ops := R_ops bf)) z l).
Proof.
  revert z. induction l as [|d l IH]; intros z Hl Hz; [done|].
  apply Forall_cons in Hl as [Hd Hl]. simpl. apply IH; [done|].
  rewrite cnorm2_cmul. unfold cnorm2 at 2. rewrite Hd.
  assert (0 <= imag d * imag d) by nra. nra.
Qed.


Lemma axis_factor_real_one (g : globals R) x i f :
  axis_factor (ops := R_ops bf) g x i = Some f -> real f = 1.
Proof.
  unfold axis_factor. intros Hf.
  destruct (x !! i) as [xi|] eqn:Hx; simplify_eq/=.
  destruct (A2get (comp_domain_bdr g) i 0) as [lo|] eqn:Hlo; simplify_eq/=.
  destruct (A2get (comp_domain_bdr g) i 1) as [hi|] eqn:Hhi; simplify_eq/=.
  destruct (A2get (pml_lngth g) i 0) as [wlo|] eqn:Hwlo; simplify_eq/=.
  destruct (A2get (pml_lngth g) i 1) as [whi|] eqn:Hwhi; simplify_eq/=.
  rewrite !stretch_factor_R, cone_R. by repeat case_match.
Qed.

End RealProperties.

(** ** The arithmetic of binary64 *)

Lemma SFcompare_Lt_Gt x y : SFcompare x y = Some Lt -> SFcompare y x = Some Gt.
Proof.
  destruct x as [sx|sx| |sx mx ex], y as [sy|sy| |sy my ey]; simpl;
    try destruct sx; try destruct sy; try congruence.
  - rewrite (Z.compare_antisym ex ey). destruct (ex ?= ey)%Z; simpl; try congruence.
    pose proof (Pos.compare_cont_antisym my mx Eq) as Ha. simpl in Ha.
    rewrite <- Ha. destruct (Pos.compare_cont Eq my mx); simpl; congruence.
  - rewrite (Z.compare_antisym ex ey). destruct (ex ?= ey)%Z; simpl; try congruence.
    pose proof (Pos.compare_cont_antisym my mx Eq) as Ha. simpl in Ha.
    rewrite <- Ha. destruct (Pos.compare_cont Eq my mx); simpl; congruence.
Qed.

(** [x < y] excludes [y <= x], NaN included. *)
Lemma float_ltb_leb x y : PrimFloat.ltb x y = true -> PrimFloat.leb y x = false.
Proof.
  rewrite ltb_spec, leb_spec. unfold SFltb, SFleb.
  destruct (SFcompare (Prim2SF x) (Prim2SF y)) as [[]|] eqn:Hc; try done.
  intros _. by rewrite (SFcompare_Lt_Gt _ _ Hc).
Qed.

Lemma is_nan_eq x : Prim2SF x = S754_nan -> x = nan.
Proof. intros Hx. apply Prim2SF_inj. by rewrite Hx. Qed.

(** NaN absorbs the arithmetic operations. *)
Lemma mul_nan_r x : (x * nan)%float = nan.
Proof. apply is_nan_eq. rewrite mul_spec. by destruct (Prim2SF x). Qed.
Lemma mul_nan_l x : (nan * x)%float = nan.
Proof. apply is_nan_eq. by rewrite mul_spec. Qed.
Lemma add_nan_r x : (x + nan)%float = nan.
Proof. apply is_nan_eq. rewrite add_spec. by destruct (Prim2SF x). Qed.
Lemma add_nan_l x : (nan + x)%float = nan.
Proof. apply is_nan_eq. by rewrite add_spec. Qed.
Lemma sub_nan_r x : (x - nan)%float = nan.
Proof. apply is_nan_eq. rewrite sub_spec. by destruct (Prim2SF x). Qed.
Lemma sub_nan_l x : (nan - x)%float = nan.
Proof. apply is_nan_eq. by rewrite sub_spec. Qed.
Lemma div_nan_r x : (x / nan)%float = nan.
Proof. apply is_nan_eq. rewrite div_spec. by destruct (Prim2SF x). Qed.
Lemma div_nan_l x : (nan / x)%float = nan.
Proof. apply is_nan_eq. by rewrite div_spec. Qed.

Create Rewrite HintDb nan_absorbs.
#[local] Hint Rewrite mul_nan_r mul_nan_l add_nan_r add_nan_l
  sub_nan_r sub_nan_l div_nan_r div_nan_l : nan_absorbs.

Lemma lit_zero_float lm : lit (ops := float_ops lm) 0.0 = 0%float.
Proof. reflexivity. Qed.

(** ** The boundary data on the outer faces *)

(** C5: the boundary data, real and imaginary part, is the zero vector at
    a point with a coordinate within the tolerance 1e-13 of an outer face
    on the side of the layer.  For the scattering variant these are the
    two faces of every axis; for the waveguide, whose mesh has three
    dimensions, it is the high face of axis 0, whatever the mode evaluates
    to.  Over the reals the point with [x(0) = domain_max] is such a point,
    and the data there is [0, 0, 0]. *)
Theorem E_bdr_data_zero_on_outer_faces :
  (forall (D : Type) (ops : DoubleOps D) (g : globals D) (x E : list D)
          (i : nat) (xi d0 d1 : D),
     globals_wf g -> prob g = scatter -> (dim g <= length x)%nat ->
     (i < dim g)%nat -> x !! i = Some xi ->
     A2get (domain_bdr g) i 0 = Some d0 -> A2get (domain_bdr g) i 1 = Some d1 ->
     (fabs (xi - d0) <? lit 1e-13)%dbl = true \/
     (fabs (xi - d1) <? lit 1e-13)%dbl = true ->
     E_bdr_data_Re g x E = Some (replicate (length E) (lit 0.0)) /\
     E_bdr_data_Im g x E = Some (replicate (length E) (lit 0.0))) /\
  (forall (D : Type) (ops : DoubleOps D) (g : globals D) (x E : list D) (x0 d1 : D),
     prob g = waveguide -> dim g = 3%nat -> length x = 3%nat -> length E = 3%nat ->
     x !! 0%nat = Some x0 -> A2get (domain_bdr g) 0 1 = Some d1 ->
     (fabs (x0 - d1) <? lit 1e-13)%dbl = true ->
     E_bdr_data_Re g x E = Some (replicate 3 (lit 0.0)) /\
     E_bdr_data_Im g x E = Some (replicate 3 (lit 0.0))) /\
  (forall (bf : Bessel) (g : globals R) (x E : list R) (d1 : R),
     prob g = waveguide -> dim g = 3%nat -> length x = 3%nat -> length E = 3%nat ->
     x !! 0%nat = Some d1 -> A2get (domain_bdr g) 0 1 = Some d1 ->
     E_bdr_data_Re (ops := R_ops bf) g x E = Some [0; 0; 0]%R /\
     E_bdr_data_Im (ops := R_ops bf) g x E = Some [0; 0; 0]%R).
Proof.
  split; [|split].
  - intros D ops g x E i xi d0 d1 Hwf Hp Hx Hi Hxi Hd0 Hd1 Hnear.
    assert (Hon: on_domain_bdr g x i = Some true).
    { unfold on_domain_bdr. rewrite Hxi, Hd0, Hd1. simpl.
      destruct (dlt (fabs (dsub xi d0)) (lit 1e-13)); [done|].
      by destruct Hnear as [?| ->]. }
    split; by eapply E_bdr_data_scatter_zero.
  - intros D ops g x E x0 d1 Hp Hd Hx HE Hx0 Hd1 Hnear.
    split; by eapply E_bdr_data_waveguide_zero.
  - intros bf g x E d1 Hp Hd Hx HE Hx0 Hd1.
    assert (Hnear: @dlt R (R_ops bf)
              (@fabs R (R_ops bf) (@dsub R (R_ops bf) d1 d1))
              (lit (ops := R_ops bf) 1e-13) = true).
    { change (lit (ops := R_ops bf) 1e-13) with (1 / 10000000000000)%R.
      simpl. apply Rltb_true. rewrite Rminus_diag, Rabs_R0. lra. }
    assert (Hz: replicate 3 (lit (ops := R_ops bf) 0.0) = [0; 0; 0]%R).
    { rewrite <- (lit_zero_R bf). reflexivity. }
    rewrite <- Hz.
    split; by eapply E_bdr_data_waveguide_zero.
Qed.

(** ** The round trip of the scalar coefficient *)



(** ** The side without a layer *)

(** C7, as the code has it: on a side of width zero, where the face of
    the computational box is the face of the domain box, the test of the
    high side fails and [stretch_high] leaves [dxs] alone at every point
    with [x(i)] strictly below that face, over the reals and in binary64:
    no coefficient is formed there. *)
Theorem high_side_not_reached_inside :
  (forall (bf : Bessel) (g : globals R) x i xi dmax dxs,
     x !! i = Some xi ->
     A2get (pml_lngth g) i 1 = Some 0%R ->
     A2get (domain_bdr g) i 1 = Some dmax ->
     A2get (comp_domain_bdr g) i 1 = Some dmax ->
     (xi < dmax)%R ->
     high_side_test (ops := R_ops bf) g x i = Some false /\
     stretch_high (ops := R_ops bf) g x i dxs = Some dxs) /\
  (forall (lm : Libm) (g : globals float) x i xi dmax dxs,
     x !! i = Some xi ->
     A2get (pml_lngth g) i 1 = Some 0%float ->
     A2get (domain_bdr g) i 1 = Some dmax ->
     A2get (comp_domain_bdr g) i 1 = Some dmax ->
     PrimFloat.ltb xi dmax = true ->
     high_side_test (ops := float_ops lm) g x i = Some false /\
     stretch_high (ops := float_ops lm) g x i dxs = Some dxs).
Proof.
  split.
  - intros bf g x i xi dmax dxs Hx _ _ Hc Hlt.
    unfold stretch_high, high_side_test. rewrite Hx, Hc. simpl.
    by rewrite (proj2 (Rleb_false dmax xi) Hlt).
  - intros lm g x i xi dmax dxs Hx _ _ Hc Hlt.
    unfold stretch_high, high_side_test. rewrite Hx, Hc. simpl.
    by rewrite (float_ltb_leb _ _ Hlt).
Qed.

(** C7, as the claim has it, fails on the face itself.  The rectangular
    waveguide on the box of [main], the allocation zero-filled: axis 1 has
    no layer, its width is 0 and the face of its computational box is the
    face [y = 1] of the domain.  At the point (4, 1, 0.5) of that face the
    test of the high side holds, the coefficient is formed with the width
    0, and the factor of the axis is NaN. *)
Lemma high_side_reached_on_face :
  exists g, waveguide_zero_filled = Some g /\
    A2get (pml_lngth g) 1 1 = Some 0%float /\
    A2get (comp_domain_bdr g) 1 1 = Some 1%float /\
    A2get (domain_bdr g) 1 1 = Some 1%float /\
    high_side_test (ops := float_ops libm_squares) g [4; 1; 0.5]%float 1 = Some true /\
    (dxs ← pml_function (ops := float_ops libm_squares) g [4; 1; 0.5]%float
             (replicate 3 (czero (ops := float_ops libm_squares)));
     dxs !! 1%nat) = Some (Cx nan nan).
Proof.
  eexists. split; [vm_compute; reflexivity|]. repeat split; vm_compute; reflexivity.
Qed.

(** ** The widths of the sides without a layer *)

(** C3 at a failing input: the rectangular waveguide on the box of
    [main], the new entries of [pml_lngth] holding 7.  After
    [compute_pml_mesh_data] the width of the low side of axis 1, which has
    no layer, is still 7, not 0, and the face of the computational box
    there is 0, the face of the domain box, while the face of the domain
    box moved inward by the width is 0 + 7 = 7. *)
Theorem unlayered_width_left_unset :
  exists g, waveguide_stale = Some g /\
    A2get (pml_lngth g) 1 0 = Some 7%float /\
    A2get (domain_bdr g) 1 0 = Some 0%float /\
    A2get (comp_domain_bdr g) 1 0 = Some 0%float /\
    (0 + 7)%float = 7%float.
Proof.
  eexists. split; [vm_compute; reflexivity|]. repeat split.
Qed.

(** ** The point source at its own position *)

Lemma scatter_source_point_2d lm (g : globals float) x E :
  prob g = scatter -> Array2D_dims 3 2 (domain_bdr g) -> dim g = 2%nat ->
  length x = 2%nat -> length E = 2%nat ->
  (forall i, (i < 2)%nat ->
     exists z, shifted (ops := float_ops lm) g x i = Some z /\ is_zero z) ->
  radial_distance (ops := float_ops lm) g x = Some 0%float /\
  maxwell_ess_data (ops := float_ops lm) g x E = Some (replicate 2 (Cx nan nan)).
Proof.
  intros Hp [Hn Hl] Hd Hx HE Hz.
  destruct g as [om d [dom n] pml comp p]. simpl in *. subst.
  destruct x as [|x0 [|x1 [|]]]; try done.
  destruct E as [|e0 [|e1 [|]]]; try done.
  destruct dom as [|d00 [|d01 [|d10 [|d11 [|d20 [|d21 [|]]]]]]]; try done.
  destruct (Hz 0%nat) as (z0 & Hz0 & Hzero0); [lia|].
  destruct (Hz 1%nat) as (z1 & Hz1 & Hzero1); [lia|].
  clear Hz. vm_compute in Hz0, Hz1.
  injection Hz0 as <-. injection Hz1 as <-.
  vm_compute.
  destruct Hzero0 as [Hz0 | Hz0], Hzero1 as [Hz1 | Hz1]; rewrite ?Hz0, ?Hz1;
    vm_compute; autorewrite with nan_absorbs; split; reflexivity.
Qed.

Lemma scatter_source_point_3d lm (g : globals float) x E :
  prob g = scatter -> Array2D_dims 3 2 (domain_bdr g) -> dim g = 3%nat ->
  length x = 3%nat -> length E = 3%nat ->
  (forall i, (i < 3)%nat ->
     exists z, shifted (ops := float_ops lm) g x i = Some z /\ is_zero z) ->
  radial_distance (ops := float_ops lm) g x = Some 0%float /\
  maxwell_ess_data (ops := float_ops lm) g x E = Some (replicate 3 (Cx nan nan)).
Proof.
  intros Hp [Hn Hl] Hd Hx HE Hz.
  destruct g as [om d [dom n] pml comp p]. simpl in *. subst.
  destruct x as [|x0 [|x1 [|x2 [|]]]]; try done.
  destruct E as [|e0 [|e1 [|e2 [|]]]]; try done.
  destruct dom as [|d00 [|d01 [|d10 [|d11 [|d20 [|d21 [|]]]]]]]; try done.
  destruct (Hz 0%nat) as (z0 & Hz0 & Hzero0); [lia|].
  destruct (Hz 1%nat) as (z1 & Hz1 & Hzero1); [lia|].
  destruct (Hz 2%nat) as (z2 & Hz2 & Hzero2); [lia|].
  clear Hz. vm_compute in Hz0, Hz1, Hz2.
  injection Hz0 as <-. injection Hz1 as <-. injection Hz2 as <-.
  vm_compute.
  destruct Hzero0 as [Hz0 | Hz0], Hzero1 as [Hz1 | Hz1], Hzero2 as [Hz2 | Hz2];
    rewrite ?Hz0, ?Hz1, ?Hz2;
    vm_compute; autorewrite with nan_absorbs; split; reflexivity.
Qed.

(** C8: in binary64, for the scattering variant in two or three
    dimensions, at the point where the source sits (every shifted
    coordinate is a zero) the radial distance [r] is 0, no test guards the
    divisions by [r], and [maxwell_ess_data] returns, without failing, a
    field whose every component is NaN + NaN i, whatever the functions of
    [<cmath>] return. *)
Theorem maxwell_ess_data_at_source_point lm (g : globals float) x E :
  prob g = scatter -> Array2D_dims 3 2 (domain_bdr g) ->
  dim g = 2%nat \/ dim g = 3%nat ->
  length x = dim g -> length E = dim g ->
  (forall i, (i < dim g)%nat ->
     exists z, shifted (ops := float_ops lm) g x i = Some z /\ is_zero z) ->
  radial_distance (ops := float_ops lm) g x = Some 0%float /\
  maxwell_ess_data (ops := float_ops lm) g x E = Some (replicate (dim g) (Cx nan nan)).
Proof.
  intros Hp Hdom [Hd|Hd] Hx HE Hz; rewrite Hd in *.
  - by apply scatter_source_point_2d.
  - by apply scatter_source_point_3d.
Qed.

(** ** Further properties of the layer and of the stretching *)

Section GeometryFrame.
Context {D : Type} {ops : DoubleOps D}.
Local Open Scope dbl_scope.

(** The widths that the cylindrical waveguide does not write. *)
Lemma cyl_waveguide_width_untouched b al (g : globals D) i j :
  prob g = cyl_waveguide -> dim g = 3%nat -> (i < 3)%nat -> (j < 2)%nat ->
  (i, j) <> (2%nat, 1%nat) ->
  exists g', compute_pml_mesh_data b al g = Some g' /\
    A2get (pml_lngth g') i j =
      Some (default (fresh_pml al (i * 2 + j))
                    (array1d (pml_lngth g) !! (i * 2 + j)%nat)).
Proof.
  intros Hp Hd Hi Hj Hij. destruct g as [om d dom pml comp p]. simpl in *. subst.
  eexists; split; [vm_compute; reflexivity|].
  destruct i as [|[|[|i]]]; try lia; destruct j as [|[|j]]; try lia;
    solve [reflexivity | by destruct Hij].
Qed.
End GeometryFrame.

(** X1: in binary64, on a state of the right sizes, [pml_function] leaves
    for axis [i] the factor [1 + 0i] when [comp_min < x(i) < comp_max], the
    factor of the high side when [comp_min < x(i)] and [x(i) >= comp_max],
    and the factor of the low side when [x(i) <= comp_min]; the factors
    are the expressions of lines 840-841 and 845-846, rounded as written. *)
Theorem pml_function_binary64 lm (g : globals float) x dxs0 i xi lo hi wlo whi :
  globals_wf g -> (dim g <= length x)%nat -> (dim g <= length dxs0)%nat ->
  (i < dim g)%nat ->
  x !! i = Some xi ->
  A2get (comp_domain_bdr g) i 0 = Some lo ->
  A2get (comp_domain_bdr g) i 1 = Some hi ->
  A2get (pml_lngth g) i 0 = Some wlo ->
  A2get (pml_lngth g) i 1 = Some whi ->
  exists dxs, pml_function (ops := float_ops lm) g x dxs0 = Some dxs /\
    (PrimFloat.ltb lo xi = true -> PrimFloat.ltb xi hi = true ->
       dxs !! i = Some (Cx 1%float 0%float)) /\
    (PrimFloat.ltb lo xi = true -> PrimFloat.leb hi xi = true ->
       dxs !! i = Some (stretch_factor (ops := float_ops lm) g whi (xi - hi)%float)) /\
    (PrimFloat.leb xi lo = true ->
       dxs !! i = Some (stretch_factor (ops := float_ops lm) g wlo (xi - lo)%float)).
Proof.
  intros Hwf Hx Hd Hi Hxi Hlo Hhi Hwlo Hwhi.
  destruct (pml_function_spec (ops := float_ops lm) g x dxs0 Hwf Hx Hd)
    as (dxs & Hrun & _ & Hin & _).
  exists dxs. split; [done|]. rewrite (Hin i Hi). unfold axis_factor.
  rewrite Hxi, Hlo, Hhi, Hwlo, Hwhi. simpl.
  split; [|split].
  - intros H1 H2. by rewrite (float_ltb_leb _ _ H1), (float_ltb_leb _ _ H2).
  - intros H1 H2. by rewrite (float_ltb_leb _ _ H1), H2.
  - intros H1. by rewrite H1.
Qed.

Section RealExtras.
Context (bf : Bessel).
Local Open Scope R_scope.

(** X2: over the reals, the computational box that
    [compute_pml_mesh_data] forms from an ordered domain box is not
    inverted on any axis. *)
Theorem computational_box_ordered b al (g g' : globals R) i :
  (dim g <= 3)%nat ->
  (forall k, bound_lo (D := R) b k <= bound_hi b k) ->
  compute_pml_mesh_data (ops := R_ops bf) b al g = Some g' ->
  (i < dim g)%nat ->
  exists lo hi, A2get (comp_domain_bdr g') i 0 = Some lo /\
    A2get (comp_domain_bdr g') i 1 = Some hi /\ lo <= hi.
Proof. apply comp_box_ordered. Qed.

(** X3: over the reals, beyond [comp_max] the imaginary part of the
    factor is linear in the distance: at twice the distance it is twice as
    large. *)
Theorem stretching_linear_in_distance (g : globals R) x x' i xi xi' lo hi wlo whi :
  globals_wf g -> length x = dim g -> length x' = dim g -> (i < dim g)%nat ->
  x !! i = Some xi -> x' !! i = Some xi' ->
  A2get (comp_domain_bdr g) i 0 = Some lo ->
  A2get (comp_domain_bdr g) i 1 = Some hi ->
  A2get (pml_lngth g) i 0 = Some wlo ->
  A2get (pml_lngth g) i 1 = Some whi ->
  lo <= hi -> hi < xi -> xi' - hi = 2 * (xi - hi) ->
  exists dxs dxs' f f',
    pml_function (ops := R_ops bf) g x
      (replicate (dim g) (czero (ops := R_ops bf))) = Some dxs /\
    pml_function (ops := R_ops bf) g x'
      (replicate (dim g) (czero (ops := R_ops bf))) = Some dxs' /\
    dxs !! i = Some f /\ dxs' !! i = Some f' /\
    imag f' = 2 * imag f.
Proof.
  intros Hwf Hx Hx' Hi Hxi Hxi' Hlo Hhi Hwlo Hwhi Hbox Hout Hdouble.
  destruct (pml_function_spec (ops := R_ops bf) g x
              (replicate (dim g) (czero (ops := R_ops bf))) Hwf)
    as (dxs & Hrun & _ & Hin & _); [lia|by rewrite length_replicate|].
  destruct (pml_function_spec (ops := R_ops bf) g x'
              (replicate (dim g) (czero (ops := R_ops bf))) Hwf)
    as (dxs' & Hrun' & _ & Hin' & _); [lia|by rewrite length_replicate|].
  pose proof (Hin i Hi) as Hf.
  rewrite (axis_factor_R bf g x i xi lo hi wlo whi) in Hf by done.
  pose proof (Hin' i Hi) as Hf'.
  rewrite (axis_factor_R bf g x' i xi' lo hi wlo whi) in Hf' by done.
  eexists dxs, dxs', _, _. split; [done|]. split; [done|].
  split; [exact Hf|]. split; [exact Hf'|].
  destruct (Rle_dec xi lo), (Rle_dec hi xi), (Rle_dec xi' lo), (Rle_dec hi xi');
    try lra.
  simpl. rewrite Hdouble, Rabs_mult, (Rabs_pos_eq 2) by lra. ring.
Qed.

(** X4: over the reals, when the tables are empty before the call and the
    allocation is zero-filled, the state after [compute_pml_mesh_data] is
    the one the data model describes: on every axis the faces of the
    computational box are the faces of the domain box moved inward by the
    recorded widths, and the width of a side without a layer is 0. *)
Theorem widths_zero_when_allocation_zero b al (g : globals R) :
  (dim g <= 3)%nat ->
  (prob g = waveguide -> (1 <= dim g)%nat) ->
  (prob g = cyl_waveguide -> dim g = 3%nat) ->
  array1d (pml_lngth g) = [] ->
  (forall k, fresh_pml al k = 0) ->
  forall i, (i < dim g)%nat ->
    exists g' wlo whi,
      compute_pml_mesh_data (ops := R_ops bf) b al g = Some g' /\
      A2get (pml_lngth g') i 0 = Some wlo /\
      A2get (pml_lngth g') i 1 = Some whi /\
      A2get (comp_domain_bdr g') i 0 = Some (bound_lo b i + wlo) /\
      A2get (comp_domain_bdr g') i 1 = Some (bound_hi b i - whi) /\
      match prob g with
      | scatter | load_src => True
      | waveguide => wlo = 0 /\ (i <> 0%nat -> whi = 0)
      | cyl_waveguide => wlo = 0 /\ (i <> 2%nat -> whi = 0)
      end.
Proof.
  intros Hd Hw Hc Hempty Hfresh i Hi.
  assert (Hstale: forall k, default (fresh_pml al k) (array1d (pml_lngth g) !! k) = 0).
  { intros k. by rewrite Hempty, Hfresh. }
  destruct (prob g) eqn:Hp.
  - destruct (both_sides_policy (ops := R_ops bf) b al g) as (g' & Hrun & _ & _ & Hl);
      [by right|done|].
    destruct (Hl i Hi) as [[Hw0 Hc0] [Hw1 Hc1]].
    exists g', (lit (ops := R_ops bf) 0.25 * extent (ops := R_ops bf) b i),
           (lit (ops := R_ops bf) 0.25 * extent (ops := R_ops bf) b i).
    split; [exact Hrun|]. split; [exact Hw0|]. split; [exact Hw1|].
    split; [exact Hc0|]. split; [exact Hc1|]. exact I.
  - destruct (both_sides_policy (ops := R_ops bf) b al g) as (g' & Hrun & _ & _ & Hl);
      [by left|done|].
    destruct (Hl i Hi) as [[Hw0 Hc0] [Hw1 Hc1]].
    exists g', (lit (ops := R_ops bf) 0.25 * extent (ops := R_ops bf) b i),
           (lit (ops := R_ops bf) 0.25 * extent (ops := R_ops bf) b i).
    split; [exact Hrun|]. split; [exact Hw0|]. split; [exact Hw1|].
    split; [exact Hc0|]. split; [exact Hc1|]. exact I.
  - specialize (Hw eq_refl).
    destruct (waveguide_policy (ops := R_ops bf) b al g)
      as (g' & Hrun & _ & _ & [Hw01 Hc01] & Hc00 & Hrest); [done|lia|].
    destruct (waveguide_width_untouched (ops := R_ops bf) b al g i 0)
      as (g1 & Hrun1 & Hwlo); [done|lia|done|lia|congruence|].
    rewrite Hrun in Hrun1. injection Hrun1 as <-. rewrite Hstale in Hwlo.
    destruct (decide (i = 0%nat)) as [->|Hne].
    + exists g', 0, (lit (ops := R_ops bf) 0.25 * extent (ops := R_ops bf) b 0).
      split; [exact Hrun|]. split; [exact Hwlo|]. split; [exact Hw01|].
      split; [rewrite Hc00; f_equal; simpl; lra|]. split; [exact Hc01|].
      split; [reflexivity|]. intros Hne. by destruct Hne.
    + destruct (waveguide_width_untouched (ops := R_ops bf) b al g i 1)
        as (g1 & Hrun1 & Hwhi); [done|lia|done|lia|congruence|].
      rewrite Hrun in Hrun1. injection Hrun1 as <-. rewrite Hstale in Hwhi.
      destruct (Hrest i) as [Hlo Hhi]; [lia|].
      exists g', 0, 0. split; [exact Hrun|]. split; [exact Hwlo|]. split; [exact Hwhi|].
      split; [rewrite Hlo; f_equal; lra|]. split; [rewrite Hhi; f_equal; lra|].
      split; [reflexivity|]. intros _. reflexivity.
  - specialize (Hc eq_refl). rewrite Hc in Hi.
    destruct (cyl_waveguide_policy (ops := R_ops bf) b al g)
      as (g' & Hrun & _ & _ & [Hw21 Hc21] & Hc20 & Hrest); [done..|].
    destruct (cyl_waveguide_width_untouched (ops := R_ops bf) b al g i 0)
      as (g1 & Hrun1 & Hwlo); [done|done|done|lia|congruence|].
    rewrite Hrun in Hrun1. injection Hrun1 as <-. rewrite Hstale in Hwlo.
    destruct (decide (i = 2%nat)) as [->|Hne].
    + exists g', 0, (lit (ops := R_ops bf) 0.125 * extent (ops := R_ops bf) b 2).
      split; [exact Hrun|]. split; [exact Hwlo|]. split; [exact Hw21|].
      split; [rewrite Hc20; f_equal; simpl; lra|]. split; [exact Hc21|].
      split; [reflexivity|]. intros Hne. by destruct Hne.
    + destruct (cyl_waveguide_width_untouched (ops := R_ops bf) b al g i 1)
        as (g1 & Hrun1 & Hwhi); [done|done|done|lia|congruence|].
      rewrite Hrun in Hrun1. injection Hrun1 as <-. rewrite Hstale in Hwhi.
      destruct (Hrest i) as [Hlo Hhi]; [lia|].
      exists g', 0, 0. split; [exact Hrun|]. split; [exact Hwlo|]. split; [exact Hwhi|].
      split; [rewrite Hlo; f_equal; lra|]. split; [rewrite Hhi; f_equal; lra|].
      split; [reflexivity|]. intros _. reflexivity.
Qed.
End RealExtras.

(** ** Bounds, frames and the remaining coefficients *)

Lemma Rltb_false x y : Rltb x y = false <-> (y <= x)%R.
Proof. unfold Rltb. destruct (Rlt_dec x y); split; (done || lra). Qed.

Section LoopFailure.
Context {St : Type}.
Implicit Types (body : nat -> St -> option St) (l : list nat) (s : St).

(** A loop one of whose steps is undefined in every state that keeps [P]
    is undefined. *)
Lemma for_each_None (P : St -> Prop) l body s i :
  i ∈ l -> P s ->
  (forall j s s', P s -> body j s = Some s' -> P s') ->
  (forall s, P s -> body i s = None) ->
  for_each l body s = None.
Proof.
  revert s. induction l as [|k l IH]; intros s Hi Hs Hkeep Hfail.
  - by apply elem_of_nil in Hi.
  - simpl. destruct (body k s) as [s'|] eqn:Hk; [|done]. simpl.
    apply elem_of_cons in Hi as [->|Hi].
    + rewrite Hfail in Hk; done.
    + apply IH; [done| |done..]. by eapply Hkeep.
Qed.
End LoopFailure.

Section GeometryBounds.
Context {D : Type} {ops : DoubleOps D}.
Local Open Scope dbl_scope.

Lemma A2get_None_row m n (a : Array2D D) i j :
  Array2D_dims m n a -> (m <= i)%nat -> A2get a i j = None.
Proof.
  intros [Hn Hl] Hi. unfold A2get. case_decide; [|done].
  apply lookup_ge_None. rewrite Hl. nia.
Qed.

Lemma set_pml_lngth_domain i j v (g g' : globals D) :
  set_pml_lngth i j v g = Some g' -> domain_bdr g' = domain_bdr g.
Proof.
  unfold set_pml_lngth. destruct (A2set (pml_lngth g) i j v); intros; by simplify_eq/=.
Qed.

Lemma set_comp_domain_bdr_domain i j v (g g' : globals D) :
  set_comp_domain_bdr i j v g = Some g' -> domain_bdr g' = domain_bdr g.
Proof.
  unfold set_comp_domain_bdr.
  destruct (A2set (comp_domain_bdr g) i j v); intros; by simplify_eq/=.
Qed.

Lemma layer_both_sides_domain i (g g' : globals D) :
  layer_both_sides i g = Some g' -> domain_bdr g' = domain_bdr g.
Proof.
  unfold layer_both_sides, for_loop. simpl. intros Hrun. run_steps Hrun.
  repeat match goal with
  | H : set_pml_lngth _ _ _ _ = Some _ |- _ => apply set_pml_lngth_domain in H
  | H : set_comp_domain_bdr _ _ _ _ = Some _ |- _ => apply set_comp_domain_bdr_domain in H
  end.
  congruence.
Qed.

Lemma copy_domain_box_domain i (g g' : globals D) :
  copy_domain_box i g = Some g' -> domain_bdr g' = domain_bdr g.
Proof.
  unfold copy_domain_box. intros Hrun. run_steps Hrun.
  repeat match goal with
  | H : set_comp_domain_bdr _ _ _ _ = Some _ |- _ => apply set_comp_domain_bdr_domain in H
  end.
  congruence.
Qed.

Lemma layer_both_sides_None i (g : globals D) :
  Array2D_dims 3 2 (domain_bdr g) -> (3 <= i)%nat -> layer_both_sides i g = None.
Proof.
  intros Hdom Hi. unfold layer_both_sides, for_loop. simpl.
  by rewrite (A2get_None_row 3 2 _ i 1 Hdom Hi).
Qed.

Lemma copy_domain_box_None i (g : globals D) :
  Array2D_dims 3 2 (domain_bdr g) -> (3 <= i)%nat -> copy_domain_box i g = None.
Proof.
  intros Hdom Hi. unfold copy_domain_box.
  by rewrite (A2get_None_row 3 2 _ i 0 Hdom Hi).
Qed.

Lemma set_domain_box_dims b al (g g' : globals D) :
  set_domain_box b al g = Some g' ->
  Array2D_dims 3 2 (domain_bdr g') /\ dim g' = dim g /\ prob g' = prob g /\
  omega g' = omega g /\ pml_lngth g' = pml_lngth g /\
  comp_domain_bdr g' = comp_domain_bdr g.
Proof.
  destruct g as [om d dom pml comp p]. vm_compute. intros Hrun.
  injection Hrun as <-. repeat split.
Qed.

(** In more than three dimensions the loops over the axes read
    [domain_bdr], which has three rows, out of bounds. *)
Lemma compute_pml_mesh_data_dim b al (g : globals D) :
  (3 < dim g)%nat -> compute_pml_mesh_data b al g = None.
Proof.
  intros Hd. unfold compute_pml_mesh_data.
  destruct (set_domain_box b al g) as [g1|] eqn:Hbox; [|done]. simpl.
  apply set_domain_box_dims in Hbox as (Hdom & Hdim & Hprob & _).
  set (g2 := mkGlobals _ _ _ _ _ _).
  assert (Hloop1: for_loop (dim g1) layer_both_sides g2 = None).
  { apply (for_each_None (fun s => Array2D_dims 3 2 (domain_bdr s)) _ _ _ 3%nat).
    - apply elem_of_seq. lia.
    - exact Hdom.
    - intros j s s' Hs Hj. by rewrite (layer_both_sides_domain _ _ _ Hj).
    - intros s Hs. by apply layer_both_sides_None. }
  assert (Hloop2: for_loop (dim g1) copy_domain_box g2 = None).
  { apply (for_each_None (fun s => Array2D_dims 3 2 (domain_bdr s)) _ _ _ 3%nat).
    - apply elem_of_seq. lia.
    - exact Hdom.
    - intros j s s' Hs Hj. by rewrite (copy_domain_box_domain _ _ _ Hj).
    - intros s Hs. by apply copy_domain_box_None. }
  destruct (prob g1); by rewrite ?Hloop1, ?Hloop2.
Qed.

(** X5: the run stays within the bounds of the tables exactly when the mesh
    has at most three dimensions and has the axis on which the variant puts
    its layer: axis 0 for the rectangular waveguide, axis 2 for the
    cylindrical one. *)
Theorem compute_pml_mesh_data_defined_iff b al (g : globals D) :
  is_Some (compute_pml_mesh_data b al g) <->
  match prob g with
  | scatter | load_src => (dim g <= 3)%nat
  | waveguide => (1 <= dim g <= 3)%nat
  | cyl_waveguide => dim g = 3%nat
  end.
Proof.
  destruct (decide (dim g <= 3)%nat) as [Hd|Hd].
  - destruct g as [om d dom pml comp p]. simpl in *.
    destruct d as [|[|[|[|d]]]]; [| | | |lia]; destruct p; vm_compute;
      (split; [intros [? ?]; (done || lia) | intros; (done || lia || eauto)]).
  - rewrite compute_pml_mesh_data_dim by lia. split.
    + by intros [? ?].
    + destruct (prob g); lia.
Qed.

(** The run changes neither [omega], [dim] nor [prob], and leaves the
    tables with their sizes. *)
Lemma compute_pml_mesh_data_frame b al (g g' : globals D) :
  compute_pml_mesh_data b al g = Some g' ->
  omega g' = omega g /\ dim g' = dim g /\ prob g' = prob g /\ globals_wf g'.
Proof.
  intros Hrun.
  assert (Hd: (dim g <= 3)%nat).
  { destruct (decide (dim g <= 3)%nat) as [|Hd]; [done|].
    rewrite compute_pml_mesh_data_dim in Hrun by lia. discriminate Hrun. }
  destruct g as [om d dom pml comp p]. simpl in *.
  destruct d as [|[|[|[|d]]]]; [| | | |lia]; destruct p;
    vm_compute in Hrun; try discriminate;
    injection Hrun as <-;
    (split; [reflexivity|]); (split; [reflexivity|]); (split; [reflexivity|]);
    (split; [simpl; lia|repeat split]).
Qed.

(** X6: the domain box and the computational box that the run leaves depend
    on the extreme coordinates, on [dim] and on the variant only, not on
    what the tables or the allocated memory held; the run changes neither
    [omega], [dim] nor [prob]. *)
Theorem comp_box_independent_of_memory b al1 al2 (g1 g2 g1' g2' : globals D) :
  dim g1 = dim g2 -> prob g1 = prob g2 ->
  compute_pml_mesh_data b al1 g1 = Some g1' ->
  compute_pml_mesh_data b al2 g2 = Some g2' ->
  omega g1' = omega g1 /\ dim g1' = dim g1 /\ prob g1' = prob g1 /\
  domain_bdr g1' = domain_bdr g2' /\ comp_domain_bdr g1' = comp_domain_bdr g2'.
Proof.
  intros Hdim Hprob Hrun1 Hrun2.
  destruct (compute_pml_mesh_data_frame b al1 g1 g1' Hrun1) as (Ho & Hd' & Hp & Hwf).
  split; [exact Ho|]. split; [exact Hd'|]. split; [exact Hp|].
  assert (Hd: (dim g1 <= 3)%nat) by (destruct Hwf as [Hd3 _]; lia).
  clear Ho Hd' Hp Hwf.
  destruct g1 as [om1 d dom1 pml1 comp1 p], g2 as [om2 d2 dom2 pml2 comp2 p2].
  simpl in *. subst d2 p2.
  destruct d as [|[|[|[|d]]]]; [| | | |lia]; destruct p;
    vm_compute in Hrun1, Hrun2; try discriminate;
    injection Hrun1 as <-; injection Hrun2 as <-; split; reflexivity.
Qed.
End GeometryBounds.

Section ClassifierBounds.
Context {D : Type} {ops : DoubleOps D}.
Local Open Scope dbl_scope.

Lemma element_in_pml_None (g : globals D) pmesh vertices v :
  (1 <= dim g)%nat -> v ∈ vertices -> ~ (v < GetNDofs pmesh)%nat ->
  element_in_pml g pmesh vertices = None.
Proof.
  intros Hd Hv Hout. apply list_elem_of_lookup in Hv as [iv Hiv].
  unfold element_in_pml, for_loop.
  apply (for_each_None (fun _ => True) _ _ _ iv); [|done|done|].
  - apply elem_of_seq. apply lookup_lt_Some in Hiv. lia.
  - intros s _. rewrite Hiv. simpl.
    destruct (dim g) as [|n]; [lia|]. simpl.
    unfold outside_comp_box, coords. rewrite decide_False; [done|]. tauto.
Qed.

Lemma compute_pml_elem_list_None (g : globals D) pmesh e v :
  (1 <= dim g)%nat -> (e < GetNE pmesh)%nat -> v ∈ GetVertices pmesh e ->
  ~ (v < GetNDofs pmesh)%nat ->
  compute_pml_elem_list g pmesh = None.
Proof.
  intros Hd He Hv Hout. unfold compute_pml_elem_list, for_loop.
  apply (for_each_None (fun _ => True) _ _ _ e); [|done|done|].
  - apply elem_of_seq. lia.
  - intros s _. by rewrite (element_in_pml_None g pmesh _ v).
Qed.

(** X7: the classifier uses the number of a vertex as the number of its node:
    the run stays within the bounds of [coords] exactly when every vertex
    of every element is below the number of nodal degrees of freedom. *)
Theorem compute_pml_elem_list_defined_iff (g : globals D) pmesh :
  Array2D_dims (dim g) 2 (comp_domain_bdr g) -> (1 <= dim g)%nat ->
  is_Some (compute_pml_elem_list g pmesh) <->
  forall e v, (e < GetNE pmesh)%nat -> v ∈ GetVertices pmesh e ->
              (v < GetNDofs pmesh)%nat.
Proof.
  intros Hc Hd. split.
  - intros [l Hl] e v He Hv.
    destruct (decide (v < GetNDofs pmesh)%nat) as [|Hout]; [done|].
    rewrite (compute_pml_elem_list_None g pmesh e v) in Hl by done.
    discriminate Hl.
  - intros Hv. destruct (compute_pml_elem_list_spec g pmesh Hc Hv) as (l & -> & _).
    by eexists.
Qed.
End ClassifierBounds.

Section ClassifierReal.
Context (bf : Bessel).
Local Open Scope R_scope.

(** X8: for the rectangular waveguide, on the state that
    [compute_pml_mesh_data] leaves, the label of an element depends on the
    first coordinate of its vertices only: an element with a vertex beyond
    [xmax - 0.25 (xmax - xmin)] is pml; an element whose vertices lie in
    the domain box and not beyond that face is interior. *)
Theorem waveguide_classifier_rule b al (g g' : globals R) (pmesh : ParMesh R) :
  prob g = waveguide -> (1 <= dim g <= 3)%nat ->
  compute_pml_mesh_data (ops := R_ops bf) b al g = Some g' ->
  (forall e v, (e < GetNE pmesh)%nat -> v ∈ GetVertices pmesh e ->
               (v < GetNDofs pmesh)%nat) ->
  exists elem_pml,
    compute_pml_elem_list (ops := R_ops bf) g' pmesh = Some elem_pml /\
    forall e, (e < GetNE pmesh)%nat ->
      ((exists v, v ∈ GetVertices pmesh e /\
          xmax b - 0.25 * (xmax b - xmin b) < node_coord pmesh v 0) ->
       elem_pml !! e = Some 0%Z) /\
      ((forall v i, v ∈ GetVertices pmesh e -> (i < dim g)%nat ->
          bound_lo b i <= node_coord pmesh v i <= bound_hi b i) ->
       (forall v, v ∈ GetVertices pmesh e ->
          node_coord pmesh v 0 <= xmax b - 0.25 * (xmax b - xmin b)) ->
       elem_pml !! e = Some 1%Z).
Proof.
  intros Hp Hd Hrun Hv.
  destruct (waveguide_policy (ops := R_ops bf) b al g)
    as (g1 & Hg1 & _ & Hdim & [_ Hhi0] & Hlo0 & Hrest); [done..|].
  rewrite Hrun in Hg1. injection Hg1 as <-.
  pose proof (compute_pml_mesh_data_wf (ops := R_ops bf) b al g g') as Hwf.
  destruct Hwf as (_ & _ & _ & Hc); [lia|exact Hrun|].
  destruct (compute_pml_elem_list_spec (ops := R_ops bf) g' pmesh Hc Hv)
    as (l & Hl & _ & Hlab).
  exists l. split; [exact Hl|]. intros e He. rewrite (Hlab e He). split.
  - intros (v & Hin & Hout).
    assert (Hs: has_vertex_outside (ops := R_ops bf) g' pmesh e).
    { exists v, 0%nat, (bound_hi b 0 - lit (ops := R_ops bf) 0.25 * extent (ops := R_ops bf) b 0),
        (bound_lo b 0).
      split; [exact Hin|]. split; [lia|]. split; [exact Hhi0|]. split; [exact Hlo0|].
      left. apply Rltb_true. unfold extent, lit. simpl. lra. }
    apply (some_vertex_outside_iff (ops := R_ops bf)) in Hs. by rewrite Hs.
  - intros Hbox Hx.
    destruct (some_vertex_outside (ops := R_ops bf) g' pmesh (GetVertices pmesh e))
      eqn:Hs; [|reflexivity].
    apply (some_vertex_outside_iff (ops := R_ops bf)) in Hs
      as (v & i & hi & lo & Hin & Hi & Hhi & Hlo & Hout).
    rewrite Hdim in Hi. specialize (Hbox v i Hin Hi). specialize (Hx v Hin).
    exfalso. destruct i as [|i].
    + rewrite Hhi0 in Hhi. rewrite Hlo0 in Hlo.
      injection Hhi as <-. injection Hlo as <-.
      destruct Hout as [Hout|Hout]; apply Rltb_true in Hout;
        unfold extent, lit in Hout; simpl in *; lra.
    + destruct (Hrest (S i)) as [Hl1 Hh1]; [lia|].
      unfold no_layer_lo in Hl1. unfold no_layer_hi in Hh1.
      rewrite Hh1 in Hhi. rewrite Hl1 in Hlo.
      injection Hhi as <-. injection Hlo as <-.
      destruct Hout as [Hout|Hout]; apply Rltb_true in Hout; simpl in Hbox, Hout; lra.
Qed.

(** X9: over the reals, with [omega] not 0 and a layer of nonzero width on
    every side, at a vertex of an element that the classifier labels
    interior every stretching factor is [1 + 0i], the vertices on a face of
    the computational box included: there the branch of [pml_function]
    applies with distance 0. *)
Theorem interior_vertices_unstretched (g : globals R) (pmesh : ParMesh R)
    elem_pml e v :
  globals_wf g -> omega g <> 0 ->
  (forall i j w, (i < dim g)%nat -> (j < 2)%nat ->
     A2get (pml_lngth g) i j = Some w -> w <> 0) ->
  compute_pml_elem_list (ops := R_ops bf) g pmesh = Some elem_pml ->
  (e < GetNE pmesh)%nat -> elem_pml !! e = Some 1%Z ->
  v ∈ GetVertices pmesh e ->
  pml_function (ops := R_ops bf) g (vertex_point g pmesh v)
    (replicate (dim g) (czero (ops := R_ops bf))) = Some (replicate (dim g) (Cx 1 0)).
Proof.
  intros Hwf Hom Hw Hrun He Hlab Hin.
  pose proof Hwf as (Hd3 & _ & Hpml & Hc).
  destruct (decide (1 <= dim g)%nat) as [Hd|Hd].
  2: { assert (dim g = 0%nat) as Hd0 by lia.
       unfold pml_function, vertex_point. rewrite Hd0. reflexivity. }
  assert (Hv: forall e v, (e < GetNE pmesh)%nat -> v ∈ GetVertices pmesh e ->
                          (v < GetNDofs pmesh)%nat).
  { intros e' v' He' Hv'.
    destruct (decide (v' < GetNDofs pmesh)%nat) as [|Hout]; [done|].
    rewrite (compute_pml_elem_list_None (ops := R_ops bf) g pmesh e' v') in Hrun
      by done.
    discriminate Hrun. }
  destruct (compute_pml_elem_list_spec (ops := R_ops bf) g pmesh Hc Hv)
    as (l & Hl & _ & Hlab').
  rewrite Hrun in Hl. injection Hl as <-. rewrite (Hlab' e He) in Hlab.
  assert (Hnone: some_vertex_outside (ops := R_ops bf) g pmesh (GetVertices pmesh e)
                 = false).
  { destruct (some_vertex_outside _ _ _); [discriminate Hlab|reflexivity]. }
  clear Hlab Hlab'.
  assert (Hx: forall i, (i < dim g)%nat ->
            vertex_point g pmesh v !! i = Some (node_coord pmesh v i)).
  { intros i Hi. unfold vertex_point. rewrite list_lookup_fmap, lookup_seq_lt by done.
    reflexivity. }
  destruct (pml_function_spec (ops := R_ops bf) g (vertex_point g pmesh v)
              (replicate (dim g) (czero (ops := R_ops bf))) Hwf)
    as (dxs & Hdxs & Hlen & Hfac & _).
  { unfold vertex_point. by rewrite length_fmap, length_seq. }
  { by rewrite length_replicate. }
  rewrite Hdxs. f_equal. rewrite length_replicate in Hlen.
  apply list_eq. intros i. destruct (decide (i < dim g)%nat) as [Hi|Hi].
  2: { rewrite !lookup_ge_None_2; [done|rewrite length_replicate; lia|lia]. }
  rewrite (Hfac i Hi), lookup_replicate_2 by done.
  destruct (A2get_is_Some _ _ _ i 0%nat Hc) as [lo Hlo]; [lia..|].
  destruct (A2get_is_Some _ _ _ i 1%nat Hc) as [hi Hhi]; [lia..|].
  destruct (A2get_is_Some _ _ _ i 0%nat Hpml) as [wlo Hwlo]; [lia..|].
  destruct (A2get_is_Some _ _ _ i 1%nat Hpml) as [whi Hwhi]; [lia..|].
  rewrite (axis_factor_R bf g _ i _ lo hi wlo whi (Hx i Hi) Hlo Hhi Hwlo Hwhi).
  assert (Hin': ~ (hi < node_coord pmesh v i) /\ ~ (node_coord pmesh v i < lo)).
  { split; intros Hout.
    - assert (Hs: has_vertex_outside (ops := R_ops bf) g pmesh e).
      { exists v, i, hi, lo. repeat (split; [done|]). left. by apply Rltb_true. }
      apply (some_vertex_outside_iff (ops := R_ops bf)) in Hs. congruence.
    - assert (Hs: has_vertex_outside (ops := R_ops bf) g pmesh e).
      { exists v, i, hi, lo. repeat (split; [done|]). right. by apply Rltb_true. }
      apply (some_vertex_outside_iff (ops := R_ops bf)) in Hs. congruence. }
  destruct Hin' as [Hnhi Hnlo]. f_equal.
  destruct (Rle_dec (node_coord pmesh v i) lo) as [Hle|Hle].
  - replace (node_coord pmesh v i - lo) with 0 by lra.
    rewrite Rabs_R0. f_equal. simpl. ring.
  - destruct (Rle_dec hi (node_coord pmesh v i)) as [Hge|Hge]; [|reflexivity].
    replace (node_coord pmesh v i - hi) with 0 by lra.
    rewrite Rabs_R0. f_equal. simpl. ring.
Qed.
End ClassifierReal.

Section StretchingBounds.
Context {D : Type} {ops : DoubleOps D}.
Local Open Scope dbl_scope.

Lemma vset_length {A : Type} (v v' : list A) i a :
  vset v i a = Some v' -> length v' = length v.
Proof. unfold vset. case_decide; intros; simplify_eq. by rewrite length_insert. Qed.

Lemma vset_None {A : Type} (v : list A) i a :
  (length v <= i)%nat -> vset v i a = None.
Proof. intros. unfold vset. rewrite decide_False; [done|lia]. Qed.

Lemma stretch_high_length (g : globals D) x i dxs dxs' :
  stretch_high g x i dxs = Some dxs' -> length dxs' = length dxs.
Proof.
  unfold stretch_high. intros Hrun. run_steps Hrun.
  case_match; [|by simplify_eq]. run_steps Hrun. by apply vset_length in Hrun.
Qed.

Lemma stretch_low_length (g : globals D) x i dxs dxs' :
  stretch_low g x i dxs = Some dxs' -> length dxs' = length dxs.
Proof.
  unfold stretch_low. intros Hrun. run_steps Hrun.
  case_match; [|by simplify_eq]. run_steps Hrun. by apply vset_length in Hrun.
Qed.

(** X10: [pml_function] stays within the bounds of [x] and [dxs] exactly when
    both have at least [dim] entries; it keeps the size of [dxs] and
    leaves the entries of index [dim] and above as they were. *)
Theorem pml_function_bounds (g : globals D) x dxs0 :
  globals_wf g ->
  (is_Some (pml_function g x dxs0) <->
     (dim g <= length x)%nat /\ (dim g <= length dxs0)%nat) /\
  (forall dxs, pml_function g x dxs0 = Some dxs ->
     length dxs = length dxs0 /\
     forall i, (dim g <= i)%nat -> dxs !! i = dxs0 !! i).
Proof.
  intros Hwf.
  assert (Hnone: ~ ((dim g <= length x)%nat /\ (dim g <= length dxs0)%nat) ->
                 pml_function g x dxs0 = None).
  { intros Hn. unfold pml_function.
    destruct (decide (dim g <= length dxs0)%nat) as [Hd|Hd].
    - destruct (init_loop_spec (dim g) dxs0 Hd) as (dxs1 & -> & Hlen1 & _). simpl.
      apply (for_each_None (fun _ => True) _ _ _ (length x)); [|done|done|].
      + apply elem_of_seq. lia.
      + intros s _. unfold for_loop. simpl.
        unfold stretch_high, high_side_test.
        by rewrite (lookup_ge_None_2 x (length x)) by lia.
    - unfold for_loop.
      rewrite (for_each_None (fun s => length s = length dxs0) (seq 0 (dim g))
                 (fun i dxs => vset dxs i cone) dxs0 (length dxs0)); [done| |done| |].
      + apply elem_of_seq. lia.
      + intros j s s' Hs Hj. apply vset_length in Hj. congruence.
      + intros s Hs. apply vset_None. lia. }
  split.
  - split.
    + intros [dxs Hrun].
      destruct (decide ((dim g <= length x)%nat /\ (dim g <= length dxs0)%nat))
        as [|Hn]; [done|].
      rewrite (Hnone Hn) in Hrun. discriminate Hrun.
    + intros [Hx Hd].
      destruct (pml_function_spec g x dxs0 Hwf Hx Hd) as (dxs & -> & _). by eexists.
  - intros dxs Hrun.
    destruct (decide ((dim g <= length x)%nat /\ (dim g <= length dxs0)%nat))
      as [[Hx Hd]|Hn].
    + destruct (pml_function_spec g x dxs0 Hwf Hx Hd) as (dxs' & Hrun' & Hlen & _ & Hrest).
      rewrite Hrun in Hrun'. injection Hrun' as <-. by split.
    + rewrite (Hnone Hn) in Hrun. discriminate Hrun.
Qed.

(** X11: the second turn of the loop over [j] writes what the first has
    written: the two turns do what one does. *)
Theorem second_pass_redundant (g : globals D) x i dxs :
  for_loop 2 (fun (j : nat) dxs =>
    dxs ← stretch_high g x i dxs; stretch_low g x i dxs) dxs =
  (dxs ← stretch_high g x i dxs; stretch_low g x i dxs).
Proof.
  unfold for_loop. simpl.
  destruct (dxs' ← stretch_high g x i dxs; stretch_low g x i dxs')
    as [d|] eqn:Hpass; simpl; [|done].
  destruct (stretch_high g x i dxs) as [d1|] eqn:Hh; simpl in Hpass; [|done].
  pose proof (stretch_high_length _ _ _ _ _ Hh) as Hl1.
  pose proof (stretch_low_length _ _ _ _ _ Hpass) as Hl2.
  unfold stretch_high, stretch_low, high_side_test, low_side_test in *.
  destruct (x !! i) as [xi|]; simpl in *; [|done].
  destruct (A2get (comp_domain_bdr g) i 1) as [hi|]; simpl in *; [|done].
  destruct (A2get (comp_domain_bdr g) i 0) as [lo|]; simpl in *;
    [|by destruct (hi <=? xi)].
  destruct (hi <=? xi); simpl in *.
  - destruct (A2get (pml_lngth g) i 1) as [whi|]; simpl in *; [|done].
    unfold vset in Hh. case_decide; [|done]. injection Hh as <-.
    destruct (xi <=? lo); simpl in *.
    + destruct (A2get (pml_lngth g) i 0) as [wlo|]; simpl in *; [|done].
      unfold vset in Hpass. case_decide; [|done]. injection Hpass as <-.
      rewrite !vset_is_Some by (rewrite ?length_insert in *; lia). simpl.
      rewrite !vset_is_Some by (rewrite ?length_insert in *; lia). simpl.
      by rewrite !list_insert_insert_eq.
    + injection Hpass as <-.
      rewrite !vset_is_Some by (rewrite ?length_insert in *; lia). simpl.
      by rewrite !list_insert_insert_eq.
  - injection Hh as <-. destruct (xi <=? lo); simpl in *.
    + destruct (A2get (pml_lngth g) i 0) as [wlo|]; simpl in *; [|done].
      unfold vset in Hpass. case_decide; [|done]. injection Hpass as <-.
      rewrite !vset_is_Some by (rewrite ?length_insert in *; lia). simpl.
      by rewrite !list_insert_insert_eq.
    + by injection Hpass as <-.
Qed.

End StretchingBounds.

Section StretchingReal.
Context (bf : Bessel).
Local Open Scope R_scope.

(** X12: over the reals, with a positive [omega] and layers of nonzero width,
    every stretching factor has real part 1 and a nonnegative imaginary
    part. *)
Theorem stretching_factor_shape (g : globals R) x dxs0 :
  globals_wf g -> (dim g <= length x)%nat -> (dim g <= length dxs0)%nat ->
  0 < omega g ->
  (forall i j w, (i < dim g)%nat -> (j < 2)%nat ->
     A2get (pml_lngth g) i j = Some w -> w <> 0) ->
  exists dxs, pml_function (ops := R_ops bf) g x dxs0 = Some dxs /\
    forall i, (i < dim g)%nat ->
      exists f, dxs !! i = Some f /\ real f = 1 /\ 0 <= imag f.
Proof.
  intros Hwf Hx Hd Hom Hw.
  pose proof Hwf as (_ & _ & Hpml & Hc).
  destruct (pml_function_spec (ops := R_ops bf) g x dxs0 Hwf Hx Hd)
    as (dxs & Hrun & _ & Hfac & _).
  exists dxs. split; [exact Hrun|]. intros i Hi. rewrite (Hfac i Hi).
  destruct (lookup_lt_is_Some_2 x i) as [xi Hxi]; [lia|].
  destruct (A2get_is_Some _ _ _ i 0%nat Hc) as [lo Hlo]; [lia..|].
  destruct (A2get_is_Some _ _ _ i 1%nat Hc) as [hi Hhi]; [lia..|].
  destruct (A2get_is_Some _ _ _ i 0%nat Hpml) as [wlo Hwlo]; [lia..|].
  destruct (A2get_is_Some _ _ _ i 1%nat Hpml) as [whi Hwhi]; [lia..|].
  rewrite (axis_factor_R bf g x i xi lo hi wlo whi Hxi Hlo Hhi Hwlo Hwhi).
  assert (Hpos: forall w d, w <> 0 -> 0 <= 2 * 10 / (omega g * w ^ 2) * Rabs d ^ 1).
  { intros w d Hw0. apply Rmult_le_pos.
    - apply Rlt_le, Rdiv_lt_0_compat; [lra|].
      apply Rmult_lt_0_compat; [done|]. simpl. nra.
    - simpl. pose proof (Rabs_pos d). lra. }
  eexists. split; [reflexivity|].
  destruct (Rle_dec xi lo); [|destruct (Rle_dec hi xi)]; simpl.
  - split; [reflexivity|]. apply Hpos. by apply (Hw i 0%nat); [|lia|].
  - split; [reflexivity|]. apply Hpos. by apply (Hw i 1%nat); [|lia|].
  - split; [reflexivity|lra].
Qed.

(** X13: over the reals, on a face of the computational box that has a layer,
    the branch of the face applies and gives [1 + 0i], the value inside: the
    stretching sets in continuously. *)
Theorem stretching_continuous_at_faces (g : globals R) x dxs0 i xi lo hi wlo whi :
  globals_wf g -> (dim g <= length x)%nat -> (dim g <= length dxs0)%nat ->
  (i < dim g)%nat ->
  x !! i = Some xi ->
  A2get (comp_domain_bdr g) i 0 = Some lo ->
  A2get (comp_domain_bdr g) i 1 = Some hi ->
  A2get (pml_lngth g) i 0 = Some wlo ->
  A2get (pml_lngth g) i 1 = Some whi ->
  lo <= hi -> omega g <> 0 -> wlo <> 0 -> whi <> 0 ->
  xi = lo \/ xi = hi ->
  (high_side_test (ops := R_ops bf) g x i = Some true \/
   low_side_test (ops := R_ops bf) g x i = Some true) /\
  exists dxs, pml_function (ops := R_ops bf) g x dxs0 = Some dxs /\
    dxs !! i = Some (Cx 1 0).
Proof.
  intros Hwf Hx Hd Hi Hxi Hlo Hhi Hwlo Hwhi Hbox Hom Hw0 Hw1 Hface. split.
  - unfold high_side_test, low_side_test. rewrite Hxi, Hlo, Hhi. simpl.
    destruct Hface as [-> | ->]; [right|left]; f_equal; apply Rleb_true; lra.
  - destruct (pml_function_spec (ops := R_ops bf) g x dxs0 Hwf Hx Hd)
      as (dxs & Hrun & _ & Hfac & _).
    exists dxs. split; [exact Hrun|]. rewrite (Hfac i Hi).
    rewrite (axis_factor_R bf g x i xi lo hi wlo whi Hxi Hlo Hhi Hwlo Hwhi).
    f_equal. destruct (Rle_dec xi lo) as [Hle|Hle].
    + replace (xi - lo) with 0 by lra. rewrite Rabs_R0. f_equal. simpl. ring.
    + destruct (Rle_dec hi xi) as [Hge|Hge]; [|lra].
      replace (xi - hi) with 0 by lra. rewrite Rabs_R0. f_equal. simpl. ring.
Qed.

Lemma foldl_cmul_one_R n :
  foldl (cmul (ops := R_ops bf)) (Cx 1 0) (replicate n (Cx 1 0)) = Cx 1 0.
Proof.
  induction n as [|n IH]; [done|]. simpl.
  replace (cmul (ops := R_ops bf) (Cx 1 0) (Cx 1 0)) with (Cx 1 0); [exact IH|].
  unfold cmul. simpl. f_equal; ring.
Qed.

Lemma lit_one_R : lit (ops := R_ops bf) 1.0 = 1.
Proof. unfold lit. simpl. lra. Qed.

(** X14: over the reals, at a point strictly inside the computational box on
    every axis the coefficient is 1: [pml_detJ_inv_Re] returns 1 and
    [pml_detJ_inv_Im] returns 0. *)
Theorem pml_detJ_inv_inside (g : globals R) x :
  globals_wf g -> (dim g <= length x)%nat ->
  (forall i xi lo hi, (i < dim g)%nat -> x !! i = Some xi ->
     A2get (comp_domain_bdr g) i 0 = Some lo ->
     A2get (comp_domain_bdr g) i 1 = Some hi -> lo < xi < hi) ->
  pml_detJ_inv_Re (ops := R_ops bf) g x = Some 1 /\
  pml_detJ_inv_Im (ops := R_ops bf) g x = Some 0.
Proof.
  intros Hwf Hx Hin. pose proof Hwf as (_ & _ & Hpml & Hc).
  assert (Hone: forall i, (i < dim g)%nat ->
            axis_factor (ops := R_ops bf) g x i = Some (cone (ops := R_ops bf))).
  { intros i Hi.
    destruct (lookup_lt_is_Some_2 x i) as [xi Hxi]; [lia|].
    destruct (A2get_is_Some _ _ _ i 0%nat Hc) as [lo Hlo]; [lia..|].
    destruct (A2get_is_Some _ _ _ i 1%nat Hc) as [hi Hhi]; [lia..|].
    destruct (A2get_is_Some _ _ _ i 0%nat Hpml) as [wlo Hwlo]; [lia..|].
    destruct (A2get_is_Some _ _ _ i 1%nat Hpml) as [whi Hwhi]; [lia..|].
    rewrite (axis_factor_R bf g x i xi lo hi wlo whi Hxi Hlo Hhi Hwlo Hwhi).
    specialize (Hin i xi lo hi Hi Hxi Hlo Hhi). rewrite cone_R.
    destruct (Rle_dec xi lo), (Rle_dec hi xi); (reflexivity || lra). }
  assert (Hdet: for_loop (dim g)
            (fun i det => d ← replicate (dim g) (cone (ops := R_ops bf)) !! i;
                          Some (cmul (ops := R_ops bf) det d))
            (Cx (lit (ops := R_ops bf) 1.0) (lit (ops := R_ops bf) 0.0))
          = Some (Cx 1 0)).
  { rewrite det_loop_spec by (by rewrite length_replicate).
    rewrite firstn_all2 by (by rewrite length_replicate).
    by rewrite cone_R, lit_one_R, lit_zero_R, foldl_cmul_one_R. }
  unfold pml_detJ_inv_Re, pml_detJ_inv_Im, pml_detJ_inv. cbv zeta.
  rewrite (pml_function_unstretched (ops := R_ops bf) g x Hwf Hx Hone).
  cbn [mbind option_bind]. rewrite Hdet. cbn [mbind option_bind].
  rewrite cone_R. unfold cdiv. simpl. split; f_equal; field.
Qed.

Lemma cnorm2_cdiv_one z :
  1 <= cnorm2 z -> cnorm2 (cdiv (ops := R_ops bf) (cone (ops := R_ops bf)) z) <= 1.
Proof.
  destruct z as [a b]. unfold cnorm2, cdiv, cone, lit. simpl. intros Hn.
  match goal with
  | |- ?L <= 1 => replace L with (/ (a * a + b * b)) by (field; lra)
  end.
  rewrite <- Rinv_1. apply Rinv_le_contravar; lra.
Qed.

(** X15: over the reals, at a point at which no coefficient divides by
    zero, the coefficient has modulus at most 1. *)
Theorem pml_detJ_inv_modulus (g : globals R) x :
  globals_wf g -> (dim g <= length x)%nat ->
  coefficients_defined g x ->
  exists re im,
    pml_detJ_inv_Re (ops := R_ops bf) g x = Some re /\
    pml_detJ_inv_Im (ops := R_ops bf) g x = Some im /\
    re * re + im * im <= 1.
Proof.
  intros Hwf Hx _.
  destruct (pml_function_spec (ops := R_ops bf) g x
              (replicate (dim g) (czero (ops := R_ops bf))) Hwf Hx)
    as (dxs & Hrun & Hlen & Hin & _); [by rewrite length_replicate|].
  rewrite length_replicate in Hlen.
  unfold pml_detJ_inv_Re, pml_detJ_inv_Im, pml_detJ_inv. cbv zeta.
  rewrite Hrun. cbn [mbind option_bind].
  rewrite det_loop_spec by lia. cbn [mbind option_bind].
  rewrite <- Hlen, firstn_all.
  eexists _, _. split; [reflexivity|]. split; [reflexivity|].
  fold (cprod (ops := R_ops bf) dxs).
  apply (cnorm2_cdiv_one (cprod (ops := R_ops bf) dxs)).
  apply foldl_cmul_norm.
  - apply Forall_lookup. intros i d Hd.
    assert (i < dim g)%nat as Hi by (apply lookup_lt_Some in Hd; lia).
    rewrite (Hin i Hi) in Hd. by eapply axis_factor_real_one.
  - unfold cnorm2, lit. simpl. lra.
Qed.
End StretchingReal.


Section MatrixLemmas.
Context {D : Type} {ops : DoubleOps D}.
Local Open Scope dbl_scope.

(** A write is read back at its place and leaves the other places. *)
Lemma Mget_Mset (M M' : DenseMatrix D) i j v i' j' :
  Mset M i j v = Some M' ->
  Height M' = Height M /\ Width M' = Width M /\
  length (Data M') = length (Data M) /\
  Mget M' i' j' = if decide (i = i' /\ j = j') then Some v else Mget M i' j'.
Proof.
  unfold Mset, Mget. intros Hset.
  case_decide as Hin; [|done]. injection Hset as <-. simpl.
  destruct Hin as (Hi & Hj & Hlt).
  split; [done|]. split; [done|]. split; [by rewrite length_insert|].
  destruct (decide (i' < Height M /\ j' < Width M)%nat) as [[Hi' Hj']|Hn].
  - destruct (decide (i = i' /\ j = j')) as [[-> ->]|Hne].
    + by apply list_lookup_insert_eq.
    + apply list_lookup_insert_ne. intros Heq. apply Hne.
      assert (j = j') by nia. split; [|done]. subst. lia.
  - rewrite decide_False; [done|]. intros [-> ->]. apply Hn. done.
Qed.

Lemma Mget_zero_matrix s i j :
  (i < s)%nat -> (j < s)%nat -> Mget (zero_matrix s) i j = Some (lit 0.0).
Proof.
  intros Hi Hj. unfold Mget, zero_matrix. simpl.
  rewrite decide_True by done. apply lookup_replicate_2. nia.
Qed.

(** The loop that fills [diag] and forms [det]. *)
Lemma diag_loop_spec (F : complex D -> complex D) (dxs : list (complex D)) n diag0 det0 :
  (n <= length dxs)%nat -> (n <= length diag0)%nat ->
  exists diag,
    for_loop n (fun i '(diag, det) =>
      d ← dxs !! i;
      diag ← vset diag i (F d);
      d ← dxs !! i;
      Some (diag, cmul det d)) (diag0, det0)
    = Some (diag, foldl cmul det0 (take n dxs)) /\
    length diag = length diag0 /\
    (forall i, (i < n)%nat -> diag !! i = F <$> dxs !! i) /\
    (forall i, (n <= i)%nat -> diag !! i = diag0 !! i).
Proof.
  induction n as [|n IH]; intros Hn Hd.
  - exists diag0. split; [done|]. split; [done|]. split; [lia|done].
  - destruct IH as (diag & Hrun & Hlen & Hlo & Hhi); [lia..|].
    rewrite for_loop_S, Hrun. simpl.
    destruct (lookup_lt_is_Some_2 dxs n) as [d Hdn]; [lia|].
    rewrite Hdn. simpl. rewrite vset_is_Some by lia. simpl.
    eexists. split; [by rewrite (take_S_r _ _ _ Hdn), foldl_app|].
    split; [by rewrite length_insert|]. split.
    + intros i Hi. destruct (decide (i = n)) as [->|].
      * rewrite list_lookup_insert_eq by lia. by rewrite Hdn.
      * rewrite list_lookup_insert_ne by done. apply Hlo. lia.
    + intros i Hi. rewrite list_lookup_insert_ne by lia. apply Hhi. lia.
Qed.

(** The loop that writes the diagonal of [M]. *)
Lemma diagonal_loop_spec (T : complex D -> D) (diag : list (complex D)) s n :
  (n <= s)%nat -> (n <= length diag)%nat ->
  exists M,
    for_loop n (fun i M => di ← diag !! i; Mset M i i (T di)) (zero_matrix s)
      = Some M /\
    Height M = s /\ Width M = s /\ length (Data M) = (s * s)%nat /\
    forall i j, (i < s)%nat -> (j < s)%nat ->
      Mget M i j = if decide (i = j /\ i < n)%nat then T <$> diag !! i
                   else Some (lit 0.0).
Proof.
  induction n as [|n IH]; intros Hn Hd.
  - exists (zero_matrix s). split; [done|]. split; [done|]. split; [done|].
    split; [simpl; by rewrite length_replicate|].
    intros i j Hi Hj. rewrite decide_False by lia. by apply Mget_zero_matrix.
  - destruct IH as (M & Hrun & Hh & Hw & Hlen & Hget); [lia..|].
    rewrite for_loop_S, Hrun. simpl.
    destruct (lookup_lt_is_Some_2 diag n) as [di Hdi]; [lia|].
    rewrite Hdi. simpl.
    destruct (Mset M n n (T di)) as [M'|] eqn:Hset.
    2: { unfold Mset in Hset. rewrite decide_True in Hset; [done|].
         rewrite Hh, Hw, Hlen. split; [lia|]. split; [lia|nia]. }
    exists M'. split; [done|].
    destruct (Mget_Mset M M' n n (T di) 0 0 Hset) as (Hh' & Hw' & Hlen' & _).
    split; [congruence|]. split; [congruence|]. split; [congruence|].
    intros i j Hi Hj.
    destruct (Mget_Mset M M' n n (T di) i j Hset) as (_ & _ & _ & ->).
    destruct (decide (n = i /\ n = j)) as [[<- <-]|Hne].
    + rewrite decide_True by lia. by rewrite Hdi.
    + rewrite (Hget i j Hi Hj).
      destruct (decide (i = j /\ i < n)%nat) as [[-> Hlt]|Hn'].
      * by rewrite decide_True by lia.
      * rewrite decide_False; [done|]. intros [-> Hlt]. apply Hn'. split; [done|]. lia.
Qed.
End MatrixLemmas.

Section MatrixProperties.
Context {D : Type} {ops : DoubleOps D} {cp : ComplexPow D}.
Local Open Scope dbl_scope.

(** The matrix of [pml_detJ_JT_J_inv]: its diagonal holds the part of
    [det / dxs[i]^2] that the function keeps. *)
Lemma pml_detJ_JT_J_inv_spec det0 part (g : globals D) x :
  globals_wf g -> (dim g <= length x)%nat ->
  exists dxs M,
    pml_function g x (replicate (dim g) czero) = Some dxs /\
    length dxs = dim g /\
    pml_detJ_JT_J_inv det0 part g x = Some M /\
    diagonal_matrix (dim g) M /\
    forall i d, dxs !! i = Some d ->
      Mget M i i = Some (part (cmul (foldl cmul det0 dxs) (cdiv cone (cpow d 2)))).
Proof.
  intros Hwf Hx.
  destruct (pml_function_spec g x (replicate (dim g) czero) Hwf Hx)
    as (dxs & Hrun & Hlen & _); [by rewrite length_replicate|].
  rewrite length_replicate in Hlen.
  destruct (diag_loop_spec (fun d => cdiv cone (cpow d 2)) dxs (dim g)
              (replicate (dim g) czero) det0)
    as (diag & Hdiag & Hdlen & Hdval & _); [lia|by rewrite length_replicate|].
  rewrite length_replicate in Hdlen.
  rewrite <- Hlen, firstn_all, Hlen in Hdiag.
  destruct (diagonal_loop_spec
              (fun di => part (cmul (foldl cmul det0 dxs) di)) diag (dim g) (dim g))
    as (M & HM & Hh & Hw & _ & Hget); [lia..|].
  exists dxs, M. split; [exact Hrun|]. split; [exact Hlen|].
  split.
  { unfold pml_detJ_JT_J_inv. cbv zeta. rewrite Hrun. cbn [mbind option_bind].
    rewrite Hdiag. cbn [mbind option_bind]. exact HM. }
  split.
  { split; [exact Hh|]. split; [exact Hw|]. intros i j Hi Hj Hne.
    rewrite (Hget i j Hi Hj). rewrite decide_False; [done|]. intros [? _]. done. }
  intros i d Hd. assert (i < dim g)%nat as Hi by (apply lookup_lt_Some in Hd; lia).
  rewrite (Hget i i Hi Hi), decide_True by done.
  rewrite (Hdval i Hi), Hd. reflexivity.
Qed.

(** The matrix of [pml_detJ_inv_JT_J]: its diagonal holds the part of
    [dxs[i]^2 / det] that the function keeps. *)
Lemma pml_detJ_inv_JT_J_spec det0 part (g : globals D) x :
  globals_wf g -> (dim g <= length x)%nat ->
  exists dxs M,
    pml_function g x (replicate (dim g) czero) = Some dxs /\
    length dxs = dim g /\
    pml_detJ_inv_JT_J det0 part g x = Some M /\
    diagonal_matrix (dim g) M /\
    forall i d, dxs !! i = Some d ->
      Mget M i i = Some (part (cdiv (cpow d 2) (foldl cmul det0 dxs))).
Proof.
  intros Hwf Hx.
  destruct (pml_function_spec g x (replicate (dim g) czero) Hwf Hx)
    as (dxs & Hrun & Hlen & _); [by rewrite length_replicate|].
  rewrite length_replicate in Hlen.
  destruct (diag_loop_spec (fun d => cpow d 2) dxs (dim g)
              (replicate (dim g) czero) det0)
    as (diag & Hdiag & Hdlen & Hdval & _); [lia|by rewrite length_replicate|].
  rewrite length_replicate in Hdlen.
  rewrite <- Hlen, firstn_all, Hlen in Hdiag.
  destruct (diagonal_loop_spec
              (fun di => part (cdiv di (foldl cmul det0 dxs))) diag (dim g) (dim g))
    as (M & HM & Hh & Hw & _ & Hget); [lia..|].
  exists dxs, M. split; [exact Hrun|]. split; [exact Hlen|].
  split.
  { unfold pml_detJ_inv_JT_J. cbv zeta. rewrite Hrun. cbn [mbind option_bind].
    rewrite Hdiag. cbn [mbind option_bind]. exact HM. }
  split.
  { split; [exact Hh|]. split; [exact Hw|]. intros i j Hi Hj Hne.
    rewrite (Hget i j Hi Hj). rewrite decide_False; [done|]. intros [? _]. done. }
  intros i d Hd. assert (i < dim g)%nat as Hi by (apply lookup_lt_Some in Hd; lia).
  rewrite (Hget i i Hi Hi), decide_True by done.
  rewrite (Hdval i Hi), Hd. reflexivity.
Qed.

(** X16: the four matrix coefficients are defined on a state of the right
    sizes, whatever the arithmetic and the complex power, and return a
    square matrix of order [dim] whose entries off the diagonal are [0.0]. *)
Theorem pml_matrices_diagonal (g : globals D) x :
  globals_wf g -> (dim g <= length x)%nat ->
  (exists M, pml_detJ_JT_J_inv_Re g x = Some M /\ diagonal_matrix (dim g) M) /\
  (exists M, pml_detJ_JT_J_inv_Im g x = Some M /\ diagonal_matrix (dim g) M) /\
  (exists M, pml_detJ_inv_JT_J_Re g x = Some M /\ diagonal_matrix (dim g) M) /\
  (exists M, pml_detJ_inv_JT_J_Im g x = Some M /\ diagonal_matrix (dim g) M).
Proof.
  intros Hwf Hx.
  split; [|split; [|split]].
  - destruct (pml_detJ_JT_J_inv_spec (Cx (lit 1.0) (lit 0.0)) real g x Hwf Hx)
      as (_ & M & _ & _ & HM & Hdiag & _). by exists M.
  - destruct (pml_detJ_JT_J_inv_spec (cdbl (lit 1.0)) imag g x Hwf Hx)
      as (_ & M & _ & _ & HM & Hdiag & _). by exists M.
  - destruct (pml_detJ_inv_JT_J_spec (Cx (lit 1.0) (lit 0.0)) real g x Hwf Hx)
      as (_ & M & _ & _ & HM & Hdiag & _). by exists M.
  - destruct (pml_detJ_inv_JT_J_spec (cdbl (lit 1.0)) imag g x Hwf Hx)
      as (_ & M & _ & _ & HM & Hdiag & _). by exists M.
Qed.
End MatrixProperties.

Section CoefficientSpec.
Context {D : Type} {ops : DoubleOps D}.
Local Open Scope dbl_scope.

(** [pml_detJ_inv] returns the inverse of the product of the factors. *)
Lemma pml_detJ_inv_spec (g : globals D) x :
  globals_wf g -> (dim g <= length x)%nat ->
  exists dxs,
    pml_function g x (replicate (dim g) czero) = Some dxs /\
    length dxs = dim g /\
    pml_detJ_inv g x = Some (cdiv cone (cprod dxs)).
Proof.
  intros Hwf Hx.
  destruct (pml_function_spec g x (replicate (dim g) czero) Hwf Hx)
    as (dxs & Hrun & Hlen & _); [by rewrite length_replicate|].
  rewrite length_replicate in Hlen.
  exists dxs. split; [exact Hrun|]. split; [exact Hlen|].
  unfold pml_detJ_inv. cbv zeta. rewrite Hrun. cbn [mbind option_bind].
  rewrite det_loop_spec by lia. cbn [mbind option_bind].
  by rewrite <- Hlen, firstn_all.
Qed.
End CoefficientSpec.

Section MatrixReal.
Context (bf : Bessel).
Local Open Scope R_scope.

Lemma cdbl_one_R : cdbl (ops := R_ops bf) (lit (ops := R_ops bf) 1.0) = Cx 1 0.
Proof. unfold cdbl, lit. simpl. f_equal; lra. Qed.

Lemma det_one_R :
  Cx (lit (ops := R_ops bf) 1.0) (lit (ops := R_ops bf) 0.0) = Cx 1 0.
Proof. unfold lit. simpl. f_equal; lra. Qed.

Lemma cpow_R_2 z :
  @cpow R (cpow_R bf) z 2 = cmul (ops := R_ops bf) z z.
Proof.
  unfold cpow, cpow_R. simpl. rewrite cone_R. destruct z as [a b].
  unfold cmul. simpl. f_equal; ring.
Qed.

Lemma complex_eta (z : complex R) : Cx (real z) (imag z) = z.
Proof. by destruct z. Qed.

Lemma cnorm2_real_one (d : complex R) : real d = 1 -> 1 <= cnorm2 d.
Proof. unfold cnorm2. intros ->. nra. Qed.

(** The algebra of the two diagonal entries, [p] the product of the
    factors and [q] the square of the factor of the axis. *)
Lemma cmul_cdiv_pair p q :
  cnorm2 p <> 0 -> cnorm2 q <> 0 ->
  cmul (ops := R_ops bf)
    (cmul (ops := R_ops bf) p (cdiv (ops := R_ops bf) (Cx 1 0) q))
    (cdiv (ops := R_ops bf) q p) = Cx 1 0.
Proof.
  destruct p as [a b], q as [c e]. unfold cnorm2, cmul, cdiv. simpl.
  intros Hp Hq. f_equal; field; done.
Qed.

Lemma cmul_cdiv_cancel p q :
  cnorm2 q <> 0 ->
  cmul (ops := R_ops bf)
    (cmul (ops := R_ops bf) p (cdiv (ops := R_ops bf) (Cx 1 0) q)) q = p.
Proof.
  destruct p as [a b], q as [c e]. unfold cnorm2, cmul, cdiv. simpl.
  intros Hq. f_equal; field; done.
Qed.

Lemma cdiv_as_cmul p q :
  cnorm2 p <> 0 ->
  cdiv (ops := R_ops bf) q p =
  cmul (ops := R_ops bf) q (cdiv (ops := R_ops bf) (Cx 1 0) p).
Proof.
  destruct p as [a b], q as [c e]. unfold cnorm2, cmul, cdiv. simpl.
  intros Hp. f_equal; field; done.
Qed.

(** The factors that [pml_function] returns and their product are not 0. *)
Lemma factors_nonzero (g : globals R) x dxs :
  globals_wf g -> (dim g <= length x)%nat ->
  pml_function (ops := R_ops bf) g x
    (replicate (dim g) (czero (ops := R_ops bf))) = Some dxs ->
  1 <= cnorm2 (foldl (cmul (ops := R_ops bf)) (Cx 1 0) dxs) /\
  forall i d, dxs !! i = Some d ->
    1 <= cnorm2 (cmul (ops := R_ops bf) d d).
Proof.
  intros Hwf Hx Hrun.
  destruct (pml_function_spec (ops := R_ops bf) g x
              (replicate (dim g) (czero (ops := R_ops bf))) Hwf Hx)
    as (dxs' & Hrun' & Hlen & Hin & _); [by rewrite length_replicate|].
  rewrite Hrun in Hrun'. injection Hrun' as <-.
  rewrite length_replicate in Hlen.
  assert (Hone: forall i d, dxs !! i = Some d -> real d = 1).
  { intros i d Hd.
    assert (i < dim g)%nat as Hi by (apply lookup_lt_Some in Hd; lia).
    rewrite (Hin i Hi) in Hd. by eapply axis_factor_real_one. }
  split.
  - apply foldl_cmul_norm.
    + apply Forall_lookup. intros i d Hd. by eapply Hone.
    + unfold cnorm2. simpl. lra.
  - intros i d Hd. rewrite cnorm2_cmul.
    pose proof (cnorm2_real_one d (Hone i d Hd)). nra.
Qed.

(** X17: over the reals, at a point at which no coefficient divides by
    zero, on each axis the diagonal entries of the matrix of
    [pml_detJ_JT_J_inv_Re] and [pml_detJ_JT_J_inv_Im] and those of the
    matrix of [pml_detJ_inv_JT_J_Re] and [pml_detJ_inv_JT_J_Im] are the
    parts of two complex numbers that are inverse to each other. *)
Theorem pml_matrices_inverse_pair (g : globals R) x :
  globals_wf g -> (dim g <= length x)%nat ->
  coefficients_defined g x ->
  exists A B C E,
    pml_detJ_JT_J_inv_Re (ops := R_ops bf) (cp := cpow_R bf) g x = Some A /\
    pml_detJ_JT_J_inv_Im (ops := R_ops bf) (cp := cpow_R bf) g x = Some B /\
    pml_detJ_inv_JT_J_Re (ops := R_ops bf) (cp := cpow_R bf) g x = Some C /\
    pml_detJ_inv_JT_J_Im (ops := R_ops bf) (cp := cpow_R bf) g x = Some E /\
    forall i, (i < dim g)%nat ->
      exists a b c e,
        Mget A i i = Some a /\ Mget B i i = Some b /\
        Mget C i i = Some c /\ Mget E i i = Some e /\
        cmul (ops := R_ops bf) (Cx a b) (Cx c e) = Cx 1 0.
Proof.
  intros Hwf Hx _.
  destruct (pml_detJ_JT_J_inv_spec (ops := R_ops bf) (cp := cpow_R bf)
              (Cx (lit (ops := R_ops bf) 1.0) (lit (ops := R_ops bf) 0.0)) real g x Hwf Hx)
    as (dxs & A & Hrun & Hlen & HA & _ & HAd).
  destruct (pml_detJ_JT_J_inv_spec (ops := R_ops bf) (cp := cpow_R bf)
              (cdbl (ops := R_ops bf) (lit (ops := R_ops bf) 1.0)) imag g x Hwf Hx)
    as (dxs1 & B & Hrun1 & _ & HB & _ & HBd).
  destruct (pml_detJ_inv_JT_J_spec (ops := R_ops bf) (cp := cpow_R bf)
              (Cx (lit (ops := R_ops bf) 1.0) (lit (ops := R_ops bf) 0.0)) real g x Hwf Hx)
    as (dxs2 & C & Hrun2 & _ & HC & _ & HCd).
  destruct (pml_detJ_inv_JT_J_spec (ops := R_ops bf) (cp := cpow_R bf)
              (cdbl (ops := R_ops bf) (lit (ops := R_ops bf) 1.0)) imag g x Hwf Hx)
    as (dxs3 & E & Hrun3 & _ & HE & _ & HEd).
  rewrite Hrun in Hrun1, Hrun2, Hrun3.
  injection Hrun1 as <-. injection Hrun2 as <-. injection Hrun3 as <-.
  exists A, B, C, E. repeat (split; [assumption|]).
  intros i Hi. destruct (lookup_lt_is_Some_2 dxs i) as [d Hd]; [lia|].
  eexists _, _, _, _.
  split; [exact (HAd i d Hd)|]. split; [exact (HBd i d Hd)|].
  split; [exact (HCd i d Hd)|]. split; [exact (HEd i d Hd)|].
  rewrite cdbl_one_R, det_one_R, cone_R, !complex_eta, cpow_R_2.
  destruct (factors_nonzero g x dxs Hwf Hx Hrun) as [Hdet Hsq].
  specialize (Hsq i d Hd).
  apply cmul_cdiv_pair; lra.
Qed.

(** X18: over the reals, at a point at which no coefficient divides by
    zero, the diagonal entries in terms of the stretching
    factors: the entry of [pml_detJ_inv_JT_J] on axis [i] is the
    coefficient of [pml_detJ_inv] times the square of the factor of the
    axis, and the entry of [pml_detJ_JT_J_inv] times that square is the
    product of the factors of all the axes. *)
Theorem pml_matrix_entries (g : globals R) x :
  globals_wf g -> (dim g <= length x)%nat ->
  coefficients_defined g x ->
  exists A B C E dxs re im,
    pml_detJ_JT_J_inv_Re (ops := R_ops bf) (cp := cpow_R bf) g x = Some A /\
    pml_detJ_JT_J_inv_Im (ops := R_ops bf) (cp := cpow_R bf) g x = Some B /\
    pml_detJ_inv_JT_J_Re (ops := R_ops bf) (cp := cpow_R bf) g x = Some C /\
    pml_detJ_inv_JT_J_Im (ops := R_ops bf) (cp := cpow_R bf) g x = Some E /\
    pml_function (ops := R_ops bf) g x
      (replicate (dim g) (czero (ops := R_ops bf))) = Some dxs /\
    pml_detJ_inv_Re (ops := R_ops bf) g x = Some re /\
    pml_detJ_inv_Im (ops := R_ops bf) g x = Some im /\
    forall i, (i < dim g)%nat ->
      exists a b c e d,
        Mget A i i = Some a /\ Mget B i i = Some b /\
        Mget C i i = Some c /\ Mget E i i = Some e /\
        dxs !! i = Some d /\
        Cx c e = cmul (ops := R_ops bf) (cmul (ops := R_ops bf) d d) (Cx re im) /\
        cmul (ops := R_ops bf) (Cx a b) (cmul (ops := R_ops bf) d d)
          = cprod (ops := R_ops bf) dxs.
Proof.
  intros Hwf Hx _.
  destruct (pml_detJ_JT_J_inv_spec (ops := R_ops bf) (cp := cpow_R bf)
              (Cx (lit (ops := R_ops bf) 1.0) (lit (ops := R_ops bf) 0.0)) real g x Hwf Hx)
    as (dxs & A & Hrun & Hlen & HA & _ & HAd).
  destruct (pml_detJ_JT_J_inv_spec (ops := R_ops bf) (cp := cpow_R bf)
              (cdbl (ops := R_ops bf) (lit (ops := R_ops bf) 1.0)) imag g x Hwf Hx)
    as (dxs1 & B & Hrun1 & _ & HB & _ & HBd).
  destruct (pml_detJ_inv_JT_J_spec (ops := R_ops bf) (cp := cpow_R bf)
              (Cx (lit (ops := R_ops bf) 1.0) (lit (ops := R_ops bf) 0.0)) real g x Hwf Hx)
    as (dxs2 & C & Hrun2 & _ & HC & _ & HCd).
  destruct (pml_detJ_inv_JT_J_spec (ops := R_ops bf) (cp := cpow_R bf)
              (cdbl (ops := R_ops bf) (lit (ops := R_ops bf) 1.0)) imag g x Hwf Hx)
    as (dxs3 & E & Hrun3 & _ & HE & _ & HEd).
  destruct (pml_detJ_inv_spec (ops := R_ops bf) g x Hwf Hx)
    as (dxs4 & Hrun4 & _ & Hinv).
  rewrite Hrun in Hrun1, Hrun2, Hrun3, Hrun4.
  injection Hrun1 as <-. injection Hrun2 as <-. injection Hrun3 as <-.
  injection Hrun4 as <-.
  exists A, B, C, E, dxs.
  exists (real (cdiv (ops := R_ops bf) (cone (ops := R_ops bf)) (cprod (ops := R_ops bf) dxs))),
         (imag (cdiv (ops := R_ops bf) (cone (ops := R_ops bf)) (cprod (ops := R_ops bf) dxs))).
  repeat (split; [assumption|]).
  split; [unfold pml_detJ_inv_Re; by rewrite Hinv|].
  split; [unfold pml_detJ_inv_Im; by rewrite Hinv|].
  intros i Hi. destruct (lookup_lt_is_Some_2 dxs i) as [d Hd]; [lia|].
  eexists _, _, _, _, d.
  split; [exact (HAd i d Hd)|]. split; [exact (HBd i d Hd)|].
  split; [exact (HCd i d Hd)|]. split; [exact (HEd i d Hd)|].
  split; [exact Hd|].
  unfold cprod.
  rewrite cdbl_one_R, det_one_R, cone_R, !complex_eta, cpow_R_2.
  destruct (factors_nonzero g x dxs Hwf Hx Hrun) as [Hdet Hsq].
  specialize (Hsq i d Hd). split.
  - apply cdiv_as_cmul. lra.
  - apply cmul_cdiv_cancel. lra.
Qed.

(** X19: over the reals, at a point strictly inside the computational box on
    every axis, the matrices of [pml_detJ_JT_J_inv_Re] and
    [pml_detJ_inv_JT_J_Re] are the identity and those of
    [pml_detJ_JT_J_inv_Im] and [pml_detJ_inv_JT_J_Im] are 0. *)
Theorem pml_matrices_inside (g : globals R) x :
  globals_wf g -> (dim g <= length x)%nat ->
  (forall i xi lo hi, (i < dim g)%nat -> x !! i = Some xi ->
     A2get (comp_domain_bdr g) i 0 = Some lo ->
     A2get (comp_domain_bdr g) i 1 = Some hi -> lo < xi < hi) ->
  exists A B C E,
    pml_detJ_JT_J_inv_Re (ops := R_ops bf) (cp := cpow_R bf) g x = Some A /\
    pml_detJ_JT_J_inv_Im (ops := R_ops bf) (cp := cpow_R bf) g x = Some B /\
    pml_detJ_inv_JT_J_Re (ops := R_ops bf) (cp := cpow_R bf) g x = Some C /\
    pml_detJ_inv_JT_J_Im (ops := R_ops bf) (cp := cpow_R bf) g x = Some E /\
    forall i j, (i < dim g)%nat -> (j < dim g)%nat ->
      Mget A i j = Some (if decide (i = j) then 1 else 0) /\
      Mget B i j = Some 0 /\
      Mget C i j = Some (if decide (i = j) then 1 else 0) /\
      Mget E i j = Some 0.
Proof.
  intros Hwf Hx Hin. pose proof Hwf as (_ & _ & Hpml & Hc).
  assert (Hone: forall i, (i < dim g)%nat ->
            axis_factor (ops := R_ops bf) g x i = Some (cone (ops := R_ops bf))).
  { intros i Hi.
    destruct (lookup_lt_is_Some_2 x i) as [xi Hxi]; [lia|].
    destruct (A2get_is_Some _ _ _ i 0%nat Hc) as [lo Hlo]; [lia..|].
    destruct (A2get_is_Some _ _ _ i 1%nat Hc) as [hi Hhi]; [lia..|].
    destruct (A2get_is_Some _ _ _ i 0%nat Hpml) as [wlo Hwlo]; [lia..|].
    destruct (A2get_is_Some _ _ _ i 1%nat Hpml) as [whi Hwhi]; [lia..|].
    rewrite (axis_factor_R bf g x i xi lo hi wlo whi Hxi Hlo Hhi Hwlo Hwhi).
    specialize (Hin i xi lo hi Hi Hxi Hlo Hhi). rewrite cone_R.
    destruct (Rle_dec xi lo), (Rle_dec hi xi); (reflexivity || lra). }
  pose proof (pml_function_unstretched (ops := R_ops bf) g x Hwf Hx Hone) as Hun.
  destruct (pml_detJ_JT_J_inv_spec (ops := R_ops bf) (cp := cpow_R bf)
              (Cx (lit (ops := R_ops bf) 1.0) (lit (ops := R_ops bf) 0.0)) real g x Hwf Hx)
    as (dxs & A & Hrun & Hlen & HA & (_ & _ & HAo) & HAd).
  destruct (pml_detJ_JT_J_inv_spec (ops := R_ops bf) (cp := cpow_R bf)
              (cdbl (ops := R_ops bf) (lit (ops := R_ops bf) 1.0)) imag g x Hwf Hx)
    as (dxs1 & B & Hrun1 & _ & HB & (_ & _ & HBo) & HBd).
  destruct (pml_detJ_inv_JT_J_spec (ops := R_ops bf) (cp := cpow_R bf)
              (Cx (lit (ops := R_ops bf) 1.0) (lit (ops := R_ops bf) 0.0)) real g x Hwf Hx)
    as (dxs2 & C & Hrun2 & _ & HC & (_ & _ & HCo) & HCd).
  destruct (pml_detJ_inv_JT_J_spec (ops := R_ops bf) (cp := cpow_R bf)
              (cdbl (ops := R_ops bf) (lit (ops := R_ops bf) 1.0)) imag g x Hwf Hx)
    as (dxs3 & E & Hrun3 & _ & HE & (_ & _ & HEo) & HEd).
  rewrite Hun in Hrun, Hrun1, Hrun2, Hrun3.
  injection Hrun as <-. injection Hrun1 as <-. injection Hrun2 as <-.
  injection Hrun3 as <-.
  exists A, B, C, E. repeat (split; [assumption|]).
  intros i j Hi Hj.
  assert (Hd: replicate (dim g) (cone (ops := R_ops bf)) !! i
              = Some (cone (ops := R_ops bf))) by (by apply lookup_replicate_2).
  destruct (decide (i = j)) as [<-|Hne].
  - rewrite (HAd i _ Hd), (HBd i _ Hd), (HCd i _ Hd), (HEd i _ Hd).
    rewrite cdbl_one_R, det_one_R, !cone_R, foldl_cmul_one_R, cpow_R_2.
    unfold cmul, cdiv. simpl. repeat split; f_equal; field.
  - rewrite (HAo i j Hi Hj Hne), (HBo i j Hi Hj Hne), (HCo i j Hi Hj Hne),
      (HEo i j Hi Hj Hne), lit_zero_R. done.
Qed.
End MatrixReal.

Section DataBounds.
Context {D : Type} {ops : DoubleOps D}.
Local Open Scope dbl_scope.

(** The loop that copies one part of [Eval] into [E] keeps the size of
    [E] and the entries of index [n] and above. *)
Lemma copy_loop_frame (part : complex D -> D) (Eval : list (complex D)) n E0 E' :
  for_loop n (fun i E => e ← Eval !! i; vset E i (part e)) E0 = Some E' ->
  length E' = length E0 /\ forall i, (n <= i)%nat -> E' !! i = E0 !! i.
Proof.
  revert E'. induction n as [|n IH]; intros E' Hrun.
  - injection Hrun as <-. done.
  - rewrite for_loop_S in Hrun.
    destruct (for_loop n _ E0) as [E1|] eqn:H1; simpl in Hrun; [|done].
    destruct (IH E1 eq_refl) as [Hlen Hrest].
    destruct (Eval !! n) as [e|]; simpl in Hrun; [|done].
    unfold vset in Hrun. case_decide; [|done]. injection Hrun as <-.
    split; [by rewrite length_insert|].
    intros i Hi. rewrite list_lookup_insert_ne by lia. apply Hrest. lia.
Qed.

Lemma copy_ess_data_frame part (g : globals D) x E E' :
  copy_ess_data part g x E = Some E' ->
  length E' = length E /\ forall i, (dim g <= i)%nat -> E' !! i = E !! i.
Proof.
  unfold copy_ess_data. cbv zeta. intros Hrun.
  destruct (maxwell_ess_data g x _) as [Eval|]; simpl in Hrun; [|done].
  by apply copy_loop_frame in Hrun.
Qed.

(** X20: [E_bdr_data_Re] and [E_bdr_data_Im] keep the size of [E], and leave
    [0.0] in the components of index [dim] and above: on a mesh whose space
    has more dimensions than the mesh, the extra components of the
    boundary data are zero. *)
Theorem E_bdr_data_size (g : globals D) x E E' :
  E_bdr_data_Re g x E = Some E' \/ E_bdr_data_Im g x E = Some E' ->
  length E' = length E /\
  forall i, (dim g <= i < length E)%nat -> E' !! i = Some (lit 0.0).
Proof.
  assert (Hpart: forall part, E_bdr_data part g x E = Some E' ->
    length E' = length E /\
    forall i, (dim g <= i < length E)%nat -> E' !! i = Some (lit 0.0)).
  { intros part. unfold E_bdr_data. cbv zeta. intros Hrun.
    assert (Hzero: length (replicate (length E) (lit 0.0)) = length E /\
              forall i, (dim g <= i < length E)%nat ->
                replicate (length E) (lit 0.0) !! i = Some (lit 0.0)).
    { split; [by rewrite length_replicate|]. intros i Hi.
      apply lookup_replicate_2. lia. }
    assert (Hcopy: forall E1,
              copy_ess_data part g x (replicate (length E) (lit 0.0)) = Some E1 ->
              length E1 = length E /\
              forall i, (dim g <= i < length E)%nat -> E1 !! i = Some (lit 0.0)).
    { intros E1 H1. apply copy_ess_data_frame in H1 as [Hlen Hrest].
      rewrite length_replicate in Hlen. split; [done|].
      intros i Hi. rewrite Hrest by lia. apply lookup_replicate_2. lia. }
    destruct (prob g).
    - by injection Hrun as <-.
    - destruct (any_break _ _) as [[|]|]; simpl in Hrun; [| |done].
      + by injection Hrun as <-.
      + by apply Hcopy.
    - destruct (copy_ess_data _ _ _ _) as [E1|] eqn:H1; simpl in Hrun; [|done].
      destruct (Hcopy E1 eq_refl) as [Hlen Hrest].
      destruct (x !! 0%nat) as [x0|]; simpl in Hrun; [|done].
      destruct (A2get (domain_bdr g) 0 1) as [d1|]; simpl in Hrun; [|done].
      destruct (fabs (x0 - d1) <? lit 1e-13); injection Hrun as <-.
      * rewrite Hlen. done.
      * done.
    - by apply Hcopy. }
  intros [H|H]; by eapply Hpart.
Qed.

(** X21: the modes of the two waveguides read the third coordinate of the
    point: at a point with fewer than three coordinates
    [maxwell_ess_data], and with it [E_bdr_data_Re] and [E_bdr_data_Im],
    read [x] out of bounds. *)
Theorem waveguide_needs_three_coordinates (g : globals D) x E Eval :
  prob g = waveguide \/ prob g = cyl_waveguide -> (length x <= 2)%nat ->
  maxwell_ess_data g x Eval = None /\
  E_bdr_data_Re g x E = None /\ E_bdr_data_Im g x E = None.
Proof.
  intros Hp Hx.
  assert (Hess: forall Eval, maxwell_ess_data g x Eval = None).
  { intros Ev. unfold maxwell_ess_data.
    destruct (for_loop (dim g) _ Ev) as [E1|]; simpl; [|done].
    destruct Hp as [-> | ->].
    - unfold waveguide_mode. by rewrite (lookup_ge_None_2 x 2) by lia.
    - unfold cyl_waveguide_data. by rewrite (lookup_ge_None_2 x 2) by lia. }
  split; [apply Hess|].
  assert (Hcopy: forall part E, copy_ess_data part g x E = None).
  { intros part E0. unfold copy_ess_data. cbv zeta. by rewrite Hess. }
  unfold E_bdr_data_Re, E_bdr_data_Im, E_bdr_data. cbv zeta.
  destruct Hp as [-> | ->]; by rewrite !Hcopy.
Qed.

(** The loop of [source_im], with an invariant of [r]. *)
Lemma source_im_loop (Inv : nat -> D -> Prop) (g : globals D) x :
  globals_wf g -> (dim g <= length x)%nat ->
  Inv 0%nat (lit 0.0) ->
  (forall i r xi lo hi, (i < dim g)%nat -> x !! i = Some xi ->
     A2get (comp_domain_bdr g) i 0 = Some lo ->
     A2get (comp_domain_bdr g) i 1 = Some hi ->
     Inv i r -> Inv (S i) (r + pow (xi - lit 0.5 * (lo + hi)) (lit 2.0))) ->
  exists center r,
    for_loop (dim g) (fun i '(center, r) =>
      lo ← A2get (comp_domain_bdr g) i 0;
      hi ← A2get (comp_domain_bdr g) i 1;
      center ← vset center i (lit 0.5 * (lo + hi));
      xi ← x !! i;
      ci ← center !! i;
      Some (center, r + pow (xi - ci) (lit 2.0)))
      (replicate (dim g) (lit 0), lit 0.0) = Some (center, r) /\
    Inv (dim g) r.
Proof.
  intros (Hdim & _ & _ & Hcomp) Hx H0 Hstep.
  assert (Hn: forall n, (n <= dim g)%nat -> exists center r,
    for_loop n (fun i '(center, r) =>
      lo ← A2get (comp_domain_bdr g) i 0;
      hi ← A2get (comp_domain_bdr g) i 1;
      center ← vset center i (lit 0.5 * (lo + hi));
      xi ← x !! i;
      ci ← center !! i;
      Some (center, r + pow (xi - ci) (lit 2.0)))
      (replicate (dim g) (lit 0), lit 0.0) = Some (center, r) /\
    length center = dim g /\ Inv n r).
  { induction n as [|n IH]; intros Hn.
    - eexists _, _. split; [reflexivity|]. split; [by rewrite length_replicate|done].
    - destruct IH as (center & r & Hrun & Hlen & Hinv); [lia|].
      rewrite for_loop_S, Hrun. simpl.
      destruct (A2get_is_Some _ _ _ n 0%nat Hcomp) as [lo Hlo]; [lia..|].
      destruct (A2get_is_Some _ _ _ n 1%nat Hcomp) as [hi Hhi]; [lia..|].
      rewrite Hlo, Hhi. simpl. rewrite vset_is_Some by lia. simpl.
      destruct (lookup_lt_is_Some_2 x n) as [xi Hxi]; [lia|]. rewrite Hxi. simpl.
      rewrite list_lookup_insert_eq by lia. simpl.
      eexists _, _. split; [reflexivity|]. split; [by rewrite length_insert|].
      apply (Hstep n r xi lo hi); (done || lia). }
  destruct (Hn (dim g)) as (center & r & Hrun & _ & Hinv); [done|].
  by exists center, r.
Qed.

(** X22: [source_im] stays within the bounds of [x] and [f_im] exactly when
    the point has at least [dim] coordinates and [f_im] has a first
    component. *)
Theorem source_im_defined_iff (g : globals D) x f_im :
  globals_wf g ->
  is_Some (source_im g x f_im) <->
  (dim g <= length x)%nat /\ (0 < length f_im)%nat.
Proof.
  intros Hwf. split.
  - intros [f' Hrun]. unfold source_im in Hrun. cbv zeta in Hrun.
    destruct (decide (dim g <= length x)%nat) as [Hx|Hx].
    + split; [done|].
      destruct (for_loop (dim g) _ _) as [[center r]|]; simpl in Hrun; [|done].
      unfold vset in Hrun. case_decide; [done|discriminate Hrun].
    + exfalso. unfold for_loop in Hrun.
      rewrite (for_each_None (fun _ => True) (seq 0 (dim g)) _ _ (length x))
        in Hrun; [done| |done|done|].
      * apply elem_of_seq. lia.
      * intros [center r] _.
        destruct (A2get (comp_domain_bdr g) (length x) 0); simpl; [|done].
        destruct (A2get (comp_domain_bdr g) (length x) 1); simpl; [|done].
        destruct (vset center (length x) _); simpl; [|done].
        by rewrite (lookup_ge_None_2 x (length x)) by lia.
  - intros [Hx Hf]. unfold source_im. cbv zeta.
    destruct (source_im_loop (fun _ _ => True) g x Hwf Hx) as (center & r & -> & _);
      [done..|].
    simpl. rewrite vset_is_Some by done. by eexists.
Qed.
End DataBounds.

Section LoadReal.
Context (bf : Bessel).
Local Open Scope R_scope.

(** X23: over the reals, with [omega] not 0, the load that [source_im] writes
    to [f_im[0]] is a Gaussian around the centre of the computational box:
    it is positive, it is [n^2 / pi] with [n = 5 omega / pi] at the centre,
    and it is smaller at every other point. *)
Theorem source_im_gaussian (g : globals R) x f_im :
  globals_wf g -> (dim g <= length x)%nat -> (0 < length f_im)%nat ->
  omega g <> 0 ->
  exists v, source_im (ops := R_ops bf) g x f_im = Some (<[0%nat := v]> f_im) /\
    0 < v /\
    ((forall i xi lo hi, (i < dim g)%nat -> x !! i = Some xi ->
        A2get (comp_domain_bdr g) i 0 = Some lo ->
        A2get (comp_domain_bdr g) i 1 = Some hi -> xi = 0.5 * (lo + hi)) ->
     v = (5 * omega g / PI) * (5 * omega g / PI) / PI) /\
    ((exists i xi lo hi, (i < dim g)%nat /\ x !! i = Some xi /\
        A2get (comp_domain_bdr g) i 0 = Some lo /\
        A2get (comp_domain_bdr g) i 1 = Some hi /\ xi <> 0.5 * (lo + hi)) ->
     v < (5 * omega g / PI) * (5 * omega g / PI) / PI).
Proof.
  intros Hwf Hx Hf Hom.
  set (at_centre := fun n : nat =>
    forall i xi lo hi, (i < n)%nat -> x !! i = Some xi ->
      A2get (comp_domain_bdr g) i 0 = Some lo ->
      A2get (comp_domain_bdr g) i 1 = Some hi -> xi = 0.5 * (lo + hi)).
  set (off_centre := fun n : nat =>
    exists i xi lo hi, (i < n)%nat /\ x !! i = Some xi /\
      A2get (comp_domain_bdr g) i 0 = Some lo /\
      A2get (comp_domain_bdr g) i 1 = Some hi /\ xi <> 0.5 * (lo + hi)).
  destruct (source_im_loop (ops := R_ops bf)
              (fun n r => 0 <= r /\ (at_centre n -> r = 0) /\ (off_centre n -> 0 < r))
              g x Hwf Hx) as (center & r & Hrun & Hr0 & Hc & Ho).
  { split; [rewrite lit_zero_R; lra|]. split; [intros _; apply lit_zero_R|].
    intros (i & ? & ? & ? & Hi & _). lia. }
  { intros i r xi lo hi Hi Hxi Hlo Hhi (Hr0 & Hc & Ho). simpl.
    rewrite Rpow_2 by lra.
    match goal with |- context [r + ?u * ?u] => set (t := u) end.
    assert (Ht: t = xi - 0.5 * (lo + hi)) by (unfold t; lra).
    assert (0 <= t * t) by nra.
    split; [lra|]. split.
    - intros Hat. rewrite Hc.
      + assert (t = 0) as ->; [|ring].
        rewrite Ht. rewrite (Hat i xi lo hi) by (done || lia). lra.
      + intros j xj lj hj Hj. apply Hat. lia.
    - intros (j & xj & lj & hj & Hj & Hxj & Hlj & Hhj & Hne).
      destruct (decide (j = i)) as [->|Hji].
      + rewrite Hxi in Hxj. rewrite Hlo in Hlj. rewrite Hhi in Hhj.
        injection Hxj as <-. injection Hlj as <-. injection Hhj as <-.
        assert (t <> 0) by (rewrite Ht; lra). assert (0 < t * t) by nra. lra.
      + assert (0 < r); [|lra]. apply Ho. exists j, xj, lj, hj.
        split; [lia|]. done. }
  unfold source_im. cbv zeta. rewrite Hrun. cbn [mbind option_bind].
  rewrite vset_is_Some by done. eexists. split; [reflexivity|].
  simpl. rewrite !Rpow_2 by (unfold lit; simpl; lra).
  pose proof PI_RGT_0 as Hpi.
  replace (50 / 10 * omega g / PI) with (5 * omega g / PI) by (field; lra).
  set (n := 5 * omega g / PI).
  assert (Hn: 0 < n * n).
  { assert (n <> 0); [|nra]. unfold n. unfold Rdiv.
    apply Rmult_integral_contrapositive_currified; [lra|].
    apply Rinv_neq_0_compat. lra. }
  assert (Hcoef: 0 < n * n / PI) by (apply Rdiv_lt_0_compat; lra).
  split; [|split].
  - apply Rmult_lt_0_compat; [done|apply exp_pos].
  - intros Hat. rewrite (Hc Hat).
    replace (- (n * n) * 0) with 0 by ring. rewrite exp_0. ring.
  - intros Hoff. specialize (Ho Hoff).
    assert (Hexp: Rtrigo_def.exp (- (n * n) * r) < 1).
    { rewrite <- exp_0. apply exp_increasing. nra. }
    nra.
Qed.
End LoadReal.

Section ModeReal.
Context (bf : Bessel).
Local Open Scope R_scope.

(** X24: over the reals, with [omega] at least pi, the mode of the rectangular
    waveguide has its second component only, of modulus [|sin (pi x(2))|]:
    [E[1] = sin (pi x(2)) (sin (k x(0)) - i cos (k x(0)))] with
    [k = sqrt (omega^2 - pi^2)]; it is 0 on the walls [x(2) = 0] and
    [x(2) = 1]. *)
Theorem waveguide_mode_closed_form (g : globals R) x0 x1 x2 E :
  prob g = waveguide -> dim g = 3%nat -> length E = 3%nat -> PI <= omega g ->
  exists e1,
    maxwell_ess_data (ops := R_ops bf) g [x0; x1; x2] E
      = Some [Cx 0 0; e1; Cx 0 0] /\
    e1 = Cx (Rtrigo_def.sin (PI * x2)
               * Rtrigo_def.sin (R_sqrt.sqrt (omega g * omega g - PI * PI) * x0))
            (- (Rtrigo_def.sin (PI * x2)
               * Rtrigo_def.cos (R_sqrt.sqrt (omega g * omega g - PI * PI) * x0))) /\
    cnorm2 e1 = Rtrigo_def.sin (PI * x2) * Rtrigo_def.sin (PI * x2) /\
    (x2 = 0 \/ x2 = 1 -> e1 = Cx 0 0).
Proof.
  intros Hp Hd HE Hom. pose proof PI_RGT_0 as Hpi.
  destruct g as [om d dom pml comp p]. simpl in *. subst.
  destruct E as [|e0 [|e1 [|e2 [|]]]]; try done.
  set (s := Rtrigo_def.sin (PI * x2)).
  set (k := R_sqrt.sqrt (om * om - PI * PI)).
  exists (Cx (s * Rtrigo_def.sin (k * x0)) (- (s * Rtrigo_def.cos (k * x0)))).
  split; [|split; [reflexivity|split]].
  - unfold maxwell_ess_data, waveguide_mode, for_loop. simpl. fold s k.
    rewrite vset_is_Some by (simpl; lia).
    unfold cdiv_d, cmul, cmul_d, cexp, cneg, zi, lit. simpl.
    f_equal. repeat (apply (f_equal2 cons)); try reflexivity.
    + f_equal; lra.
    + replace (0 / 1 * k * x0) with 0 by (field; lra).
      replace (1 / 1 * k * x0) with (k * x0) by (field; lra).
      rewrite exp_0. f_equal; field; lra.
    + f_equal; lra.
  - unfold cnorm2. simpl.
    pose proof (sin2_cos2 (k * x0)) as Hsc. unfold Rsqr in Hsc. nra.
  - intros [-> | ->].
    + unfold s. rewrite Rmult_0_r, sin_0. f_equal; ring.
    + unfold s. rewrite Rmult_1_r, sin_PI. f_equal; ring.
Qed.
End ModeReal.

(** X25: in binary64, for the cylindrical waveguide, the boundary data is a
    constant: the real part is [1, 1, 0] at the points with [x(2) == 0.0],
    the zero of either sign, and 0 elsewhere, a NaN coordinate included;
    the imaginary part is 0 everywhere. *)
Theorem cyl_waveguide_boundary_data lm (g : globals float) x0 x1 x2 E :
  prob g = cyl_waveguide -> dim g = 3%nat -> length E = 3%nat ->
  E_bdr_data_Re (ops := float_ops lm) g [x0; x1; x2] E
    = Some (if PrimFloat.eqb x2 0 then [1; 1; 0]%float else [0; 0; 0]%float) /\
  E_bdr_data_Im (ops := float_ops lm) g [x0; x1; x2] E = Some [0; 0; 0]%float /\
  E_bdr_data_Re (ops := float_ops lm) g [x0; x1; (-0)%float] E
    = Some [1; 1; 0]%float /\
  E_bdr_data_Re (ops := float_ops lm) g [x0; x1; nan] E = Some [0; 0; 0]%float.
Proof.
  intros Hp Hd HE.
  destruct g as [om d dom pml comp p]. simpl in *. subst.
  destruct E as [|e0 [|e1 [|e2 [|]]]]; try done.
  unfold E_bdr_data_Re, E_bdr_data_Im, E_bdr_data, copy_ess_data, maxwell_ess_data,
    cyl_waveguide_data, for_loop. simpl.
  change (lit (ops := float_ops lm) 0.0) with 0%float.
  split; [|split; [|split]].
  - destruct (PrimFloat.eqb x2 0); reflexivity.
  - destruct (PrimFloat.eqb x2 0); reflexivity.
  - reflexivity.
  - reflexivity.
Qed.

Section MainProperties.
Context {D : Type} {ops : DoubleOps D}.
Local Open Scope dbl_scope.

(** X26: whatever the options and the mesh, [main] computes the layer for the
    load variant: after its setup [prob] is [load_src] and [omega] is
    [2 pi freq], every axis of a mesh of at most three dimensions has a
    layer of a quarter of its extent on both sides, and the boundary data
    is zero at every point. *)
Theorem main_setup_load_variant (freq : D) (mesh : Mesh D) al (g : globals D) :
  (Dimension mesh <= 3)%nat ->
  exists g', main_setup freq mesh al g = Some g' /\
    prob g' = load_src /\ omega g' = lit 2.0 * M_PI * freq /\
    dim g' = Dimension mesh /\ globals_wf g' /\
    (forall i, (i < Dimension mesh)%nat ->
       layer_lo (nodal_bounds mesh) g' i (lit 0.25 * extent (nodal_bounds mesh) i) /\
       layer_hi (nodal_bounds mesh) g' i (lit 0.25 * extent (nodal_bounds mesh) i)) /\
    forall x E,
      E_bdr_data_Re g' x E = Some (replicate (length E) (lit 0.0)) /\
      E_bdr_data_Im g' x E = Some (replicate (length E) (lit 0.0)).
Proof.
  intros Hd. unfold main_setup. cbv zeta. simpl.
  set (g0 := mkGlobals _ _ _ _ _ _).
  destruct (both_sides_policy (nodal_bounds mesh) al g0)
    as (g' & Hrun & _ & Hdim & Hl); [by right|done|].
  destruct (compute_pml_mesh_data_frame _ _ _ _ Hrun) as (Ho & _ & Hp & Hwf).
  exists g'. split; [exact Hrun|]. split; [exact Hp|]. split; [exact Ho|].
  split; [exact Hdim|]. split; [exact Hwf|]. split; [exact Hl|].
  intros x E. unfold E_bdr_data_Re, E_bdr_data_Im, E_bdr_data. cbv zeta.
  rewrite Hp. split; reflexivity.
Qed.
End MainProperties.

(** ** The theorems at concrete inputs *)

(** The state of the rectangular waveguide of [main] after
    [compute_pml_mesh_data], the allocation zero-filled. *)
Lemma waveguide_globals_wf :
  globals_wf
    (mkGlobals two_pi 3 (mkArray2D [0; 8; 0; 1; 0; 1]%float 2)
       (mkArray2D [0; 2; 0; 0; 0; 0]%float 2)
       (mkArray2D [0; 6; 0; 1; 0; 1]%float 2) waveguide).
Proof. split; [simpl; lia|]. repeat split. Qed.

Lemma line_globals_wf : globals_wf line_globals.
Proof. split; [simpl; lia|]. repeat split. Qed.

Lemma square_globals_wf : globals_wf square_globals.
Proof. split; [simpl; lia|]. repeat split. Qed.

(** C1 on the line [0, 4] with the computational box [1, 3]: at [x = 2]
    the factor is [1 + 0i]. *)
Lemma pml_function_stretching_witness :
  exists dxs,
    pml_function (ops := R_ops bessel_zero) line_globals [2%R]
      [czero (ops := R_ops bessel_zero)] = Some dxs /\
    dxs !! 0%nat = Some (Cx 1%R 0%R).
Proof.
  destruct (pml_function_stretching bessel_zero line_globals [2%R]
              [czero (ops := R_ops bessel_zero)] 0 2%R 1%R 3%R 1%R 1%R)
    as (dxs & Hrun & Hin & _).
  - exact line_globals_wf.
  - simpl; lia.
  - simpl; lia.
  - simpl; lia.
  - reflexivity.
  - reflexivity.
  - reflexivity.
  - reflexivity.
  - reflexivity.
  - lra.
  - exists dxs. split; [exact Hrun|]. apply Hin. lra.
Defined.

(** C2 for the cylindrical waveguide in three dimensions, in binary64. *)
Lemma layer_policy_witness :
  exists g',
    compute_pml_mesh_data (ops := float_ops libm_squares) waveguide_box stale
      (empty_globals two_pi 3 cyl_waveguide) = Some g' /\
    layer_hi (ops := float_ops libm_squares) waveguide_box g' 2 0.125%float.
Proof.
  pose proof (layer_policy (ops := float_ops libm_squares) waveguide_box stale
                (empty_globals two_pi 3 cyl_waveguide)) as Hpol.
  simpl in Hpol.
  destruct Hpol as (g' & Hrun & _ & _ & Hl & _); [lia|reflexivity|].
  exists g'. split; [exact Hrun|exact Hl].
Defined.

(** C4 on the two elements of [two_elements]. *)
Lemma classifier_rule_witness :
  exists elem_pml,
    compute_pml_elem_list (ops := float_ops libm_squares) square_globals two_elements
      = Some elem_pml /\
    length elem_pml = 2%nat.
Proof.
  destruct (proj1 classifier_rule float (float_ops libm_squares)
              square_globals two_elements) as (l & Hrun & Hlen & _).
  - split; reflexivity.
  - intros e v He Hv. simpl in He. destruct e as [|[|e]]; [| |lia]; simpl in Hv;
      repeat (apply elem_of_cons in Hv as [->|Hv]; [simpl; lia|]);
      by apply elem_of_nil in Hv.
  - exists l. split; [exact Hrun|exact Hlen].
Defined.

(** C5 for the waveguide of [main] at a point of the face [x = 8], in
    binary64 and over the reals, and for the scattering variant on the unit
    square at a point of the face [y = 1]. *)
Lemma E_bdr_data_zero_on_outer_faces_witness :
  E_bdr_data_Re (ops := float_ops libm_squares) square_globals
    [0.5; 1]%float [3; 3]%float = Some [0; 0]%float /\
  E_bdr_data_Re (ops := float_ops libm_squares)
    (mkGlobals two_pi 3 (mkArray2D [0; 8; 0; 1; 0; 1]%float 2)
       (mkArray2D [0; 2; 0; 0; 0; 0]%float 2)
       (mkArray2D [0; 6; 0; 1; 0; 1]%float 2) waveguide)
    [8; 0.5; 0.5]%float [3; 3; 3]%float = Some [0; 0; 0]%float /\
  E_bdr_data_Im (ops := R_ops bessel_zero)
    (mkGlobals 7%R 3 (mkArray2D [0; 8; 0; 1; 0; 1]%R 2)
       (mkArray2D [0; 2; 0; 0; 0; 0]%R 2)
       (mkArray2D [0; 6; 0; 1; 0; 1]%R 2) waveguide)
    [8; 0; 0]%R [3; 3; 3]%R = Some [0; 0; 0]%R.
Proof.
  split; [|split].
  - apply (proj1 E_bdr_data_zero_on_outer_faces float (float_ops libm_squares)
             square_globals [0.5; 1]%float [3; 3]%float 1 1%float 0%float 1%float).
    + exact square_globals_wf.
    + reflexivity.
    + simpl; lia.
    + simpl; lia.
    + reflexivity.
    + reflexivity.
    + reflexivity.
    + right. vm_compute. reflexivity.
  - apply (proj1 (proj2 E_bdr_data_zero_on_outer_faces) float (float_ops libm_squares)
             _ [8; 0.5; 0.5]%float [3; 3; 3]%float 8%float 8%float).
    + reflexivity.
    + reflexivity.
    + reflexivity.
    + reflexivity.
    + reflexivity.
    + reflexivity.
    + vm_compute. reflexivity.
  - apply (proj2 (proj2 E_bdr_data_zero_on_outer_faces) bessel_zero
             _ [8; 0; 0]%R [3; 3; 3]%R 8%R); reflexivity.
Defined.


(** C7 for the waveguide of [main] at a point strictly below the face
    [y = 1], and over the reals on a side of width zero. *)
Lemma high_side_not_reached_inside_witness :
  high_side_test (ops := float_ops libm_squares)
    (mkGlobals two_pi 3 (mkArray2D [0; 8; 0; 1; 0; 1]%float 2)
       (mkArray2D [0; 2; 0; 0; 0; 0]%float 2)
       (mkArray2D [0; 6; 0; 1; 0; 1]%float 2) waveguide)
    [4; 0.5; 0.5]%float 1 = Some false /\
  high_side_test (ops := R_ops bessel_zero)
    (mkGlobals 1%R 1 (mkArray2D [0; 4; 0; 0; 0; 0]%R 2)
       (mkArray2D [1; 0]%R 2) (mkArray2D [1; 4]%R 2) waveguide)
    [2%R] 0 = Some false.
Proof.
  split.
  - apply (proj2 high_side_not_reached_inside libm_squares
             _ [4; 0.5; 0.5]%float 1%nat 0.5%float 1%float []); reflexivity.
  - apply (proj1 high_side_not_reached_inside bessel_zero
             _ [2%R] 0%nat 2%R 4%R []); try reflexivity. lra.
Defined.

(** C8 for the scattering variant on the unit square, at its centre. *)
Lemma maxwell_ess_data_at_source_point_witness :
  radial_distance (ops := float_ops libm_squares) square_globals [0.5; 0.5]%float
    = Some 0%float /\
  maxwell_ess_data (ops := float_ops libm_squares) square_globals [0.5; 0.5]%float
    (replicate 2 (czero (ops := float_ops libm_squares)))
    = Some (replicate 2 (Cx nan nan)).
Proof.
  apply (maxwell_ess_data_at_source_point libm_squares square_globals [0.5; 0.5]%float).
  - reflexivity.
  - split; reflexivity.
  - left. reflexivity.
  - reflexivity.
  - reflexivity.
  - intros i Hi. exists 0%float. split; [|left; reflexivity].
    destruct i as [|[|i]]; [reflexivity|reflexivity|simpl in Hi; lia].
Defined.

(** C9 on the unit square: the second component of [f_im] keeps its 3. *)
Lemma source_im_frame_witness :
  exists v f',
    source_im (ops := float_ops libm_squares) square_globals [0.5; 1]%float [3; 3]%float
      = Some f' /\
    f' = <[0%nat := v]> [3; 3]%float /\
    length f' = 2%nat /\
    forall i, (1 <= i)%nat -> f' !! i = [3; 3]%float !! i.
Proof.
  apply (source_im_frame (ops := float_ops libm_squares) square_globals
           [0.5; 1]%float [3; 3]%float).
  - exact square_globals_wf.
  - simpl; lia.
  - simpl; lia.
Defined.

(** X1 on the unit square, at the point (0.5, 0.5): the factor of axis 0
    is [1 + 0i]. *)
Lemma pml_function_binary64_witness :
  exists dxs,
    pml_function (ops := float_ops libm_squares) square_globals [0.5; 0.5]%float
      (replicate 2 (czero (ops := float_ops libm_squares))) = Some dxs /\
    dxs !! 0%nat = Some (Cx 1%float 0%float).
Proof.
  destruct (pml_function_binary64 libm_squares square_globals [0.5; 0.5]%float
              (replicate 2 (czero (ops := float_ops libm_squares)))
              0 0.5%float 0.25%float 0.75%float 0.25%float 0.25%float)
    as (dxs & Hrun & Hin & _).
  - exact square_globals_wf.
  - simpl; lia.
  - simpl; lia.
  - simpl; lia.
  - reflexivity.
  - reflexivity.
  - reflexivity.
  - reflexivity.
  - reflexivity.
  - exists dxs. split; [exact Hrun|]. apply Hin; reflexivity.
Defined.

(** X2 on the segment [0, 4] for the scattering variant. *)
Lemma computational_box_ordered_witness :
  exists g' lo hi,
    compute_pml_mesh_data (ops := R_ops bessel_zero) line_bounds zero_filled_R
      (empty_globals 1%R 1 scatter) = Some g' /\
    A2get (comp_domain_bdr g') 0 0 = Some lo /\
    A2get (comp_domain_bdr g') 0 1 = Some hi /\ (lo <= hi)%R.
Proof.
  destruct (both_sides_policy (ops := R_ops bessel_zero) line_bounds zero_filled_R
              (empty_globals 1%R 1 scatter)) as (g' & Hrun & _);
    [left; reflexivity|simpl; lia|].
  destruct (computational_box_ordered bessel_zero line_bounds zero_filled_R
              (empty_globals 1%R 1 scatter) g' 0%nat) as (lo & hi & Hlo & Hhi & Hle).
  - simpl; lia.
  - intros k. destruct k as [|[|k]]; simpl; lra.
  - exact Hrun.
  - simpl; lia.
  - exists g', lo, hi. split; [exact Hrun|]. split; [exact Hlo|]. split; [exact Hhi|exact Hle].
Defined.

(** X3 on the segment [0, 4] with the computational box [1, 3]: the points
    3.5 and 4 are at the distances 0.5 and 1 from [comp_max]. *)
Lemma stretching_linear_in_distance_witness :
  exists dxs dxs' f f',
    pml_function (ops := R_ops bessel_zero) line_globals [3.5%R]
      (replicate 1 (czero (ops := R_ops bessel_zero))) = Some dxs /\
    pml_function (ops := R_ops bessel_zero) line_globals [4%R]
      (replicate 1 (czero (ops := R_ops bessel_zero))) = Some dxs' /\
    dxs !! 0%nat = Some f /\ dxs' !! 0%nat = Some f' /\
    imag f' = (2 * imag f)%R.
Proof.
  apply (stretching_linear_in_distance bessel_zero line_globals [3.5%R] [4%R]
           0 3.5%R 4%R 1%R 3%R 1%R 1%R).
  - exact line_globals_wf.
  - reflexivity.
  - reflexivity.
  - simpl; lia.
  - reflexivity.
  - reflexivity.
  - reflexivity.
  - reflexivity.
  - reflexivity.
  - reflexivity.
  - lra.
  - lra.
  - lra.
Defined.

(** X4 for the rectangular waveguide in three dimensions, on axis 1. *)
Lemma widths_zero_when_allocation_zero_witness :
  exists g' wlo whi,
    compute_pml_mesh_data (ops := R_ops bessel_zero) line_bounds zero_filled_R
      (empty_globals 1%R 3 waveguide) = Some g' /\
    A2get (pml_lngth g') 1 0 = Some wlo /\
    A2get (pml_lngth g') 1 1 = Some whi /\
    wlo = 0%R /\ whi = 0%R.
Proof.
  destruct (widths_zero_when_allocation_zero bessel_zero line_bounds zero_filled_R
              (empty_globals 1%R 3 waveguide)) with (i := 1%nat)
    as (g' & wlo & whi & Hrun & Hwlo & Hwhi & _ & _ & Hz0 & Hz1).
  - simpl; lia.
  - intros _. simpl; lia.
  - intros Hp. discriminate Hp.
  - reflexivity.
  - intros k. reflexivity.
  - simpl; lia.
  - exists g', wlo, whi. split; [exact Hrun|]. split; [exact Hwlo|]. split; [exact Hwhi|].
    split; [exact Hz0|]. apply Hz1. discriminate.
Defined.

(** ** The further properties at concrete inputs *)

(** X6 for the rectangular waveguide of [main]: the zero-filled and the
    stale allocation give the same computational box. *)
Lemma comp_box_independent_of_memory_witness :
  exists g1 g2, waveguide_zero_filled = Some g1 /\ waveguide_stale = Some g2 /\
    comp_domain_bdr g1 = comp_domain_bdr g2.
Proof.
  edestruct (comp_box_independent_of_memory (ops := float_ops libm_squares)
               waveguide_box zero_filled stale
               (empty_globals two_pi 3 waveguide) (empty_globals two_pi 3 waveguide))
    as (_ & _ & _ & _ & Hc);
    [reflexivity|reflexivity|vm_compute; reflexivity|vm_compute; reflexivity|].
  eexists _, _. split; [vm_compute; reflexivity|]. split; [vm_compute; reflexivity|].
  exact Hc.
Defined.

(** X7 on the two elements of [two_elements], whose vertices are nodes 0
    to 2 of three. *)
Lemma compute_pml_elem_list_defined_iff_witness :
  is_Some (compute_pml_elem_list (ops := float_ops libm_squares)
             square_globals two_elements).
Proof.
  apply (compute_pml_elem_list_defined_iff (ops := float_ops libm_squares)
           square_globals two_elements).
  - split; reflexivity.
  - simpl; lia.
  - intros e v He Hv. simpl in He. destruct e as [|[|e]]; [| |lia]; simpl in Hv;
      repeat (apply elem_of_cons in Hv as [->|Hv]; [simpl; lia|]);
      apply elem_of_nil in Hv; destruct Hv.
Defined.

(** X8 on the segment [0, 4]: the face of the computational box is at 3
    and the element with a vertex at 3.5 is pml. *)
Lemma waveguide_classifier_rule_witness :
  exists g' elem_pml,
    compute_pml_mesh_data (ops := R_ops bessel_zero) line_bounds zero_filled_R
      (empty_globals 1%R 1 waveguide) = Some g' /\
    compute_pml_elem_list (ops := R_ops bessel_zero) g' line_mesh_outer
      = Some elem_pml /\
    elem_pml !! 0%nat = Some 0%Z.
Proof.
  destruct (waveguide_policy (ops := R_ops bessel_zero) line_bounds zero_filled_R
              (empty_globals 1%R 1 waveguide)) as (g' & Hrun & _);
    [reflexivity|simpl; lia|].
  destruct (waveguide_classifier_rule bessel_zero line_bounds zero_filled_R
              (empty_globals 1%R 1 waveguide) g' line_mesh_outer)
    as (l & Hl & Hlab).
  - reflexivity.
  - simpl; lia.
  - exact Hrun.
  - intros e v He Hv. simpl in He, Hv.
    repeat (apply elem_of_cons in Hv as [->|Hv]; [simpl; lia|]).
    apply elem_of_nil in Hv. destruct Hv.
  - exists g', l. split; [exact Hrun|]. split; [exact Hl|].
    destruct (Hlab 0%nat) as [Hpml _]; [simpl; lia|]. apply Hpml.
    exists 0%nat. split; [left|simpl; lra].
Defined.

Lemma line_mesh_faces_labels :
  compute_pml_elem_list (ops := R_ops bessel_zero) line_globals line_mesh_faces
    = Some [1%Z].
Proof.
  destruct (compute_pml_elem_list_spec (ops := R_ops bessel_zero)
              line_globals line_mesh_faces) as (l & Hl & Hlen & Hlab).
  - split; reflexivity.
  - intros e v He Hv. simpl in He, Hv.
    repeat (apply elem_of_cons in Hv as [->|Hv]; [simpl; lia|]).
    apply elem_of_nil in Hv. destruct Hv.
  - rewrite Hl. f_equal. simpl in Hlen.
    destruct l as [|z [|]]; try discriminate Hlen.
    specialize (Hlab 0%nat). simpl in Hlab. injection Hlab as ->; [|lia].
    unfold strictly_outside. simpl.
    assert (H1: Rltb 3 1 = false) by (apply Rltb_false; lra).
    assert (H2: Rltb 1 1 = false) by (apply Rltb_false; lra).
    assert (H3: Rltb 3 3 = false) by (apply Rltb_false; lra).
    by rewrite H1, H2, H3.
Qed.

(** X9 on the segment [0, 4]: the vertex at 3, on the face of the
    computational box [1, 3], of an element labelled interior. *)
Lemma interior_vertices_unstretched_witness :
  pml_function (ops := R_ops bessel_zero) line_globals
    (vertex_point line_globals line_mesh_faces 1)
    (replicate 1 (czero (ops := R_ops bessel_zero))) = Some [Cx 1%R 0%R].
Proof.
  apply (interior_vertices_unstretched bessel_zero line_globals line_mesh_faces
           [1%Z] 0 1).
  - exact line_globals_wf.
  - simpl; lra.
  - intros i j w Hi Hj Hw. simpl in Hi.
    destruct i as [|i]; [|lia]. destruct j as [|[|j]]; [| |lia];
      vm_compute in Hw; injection Hw as <-; lra.
  - exact line_mesh_faces_labels.
  - simpl; lia.
  - reflexivity.
  - simpl. right. left.
Defined.

(** X10 on the unit square: a point with one coordinate is too short. *)
Lemma pml_function_bounds_witness :
  ~ is_Some (pml_function (ops := float_ops libm_squares) square_globals
               [0.5%float] (replicate 2 (czero (ops := float_ops libm_squares)))).
Proof.
  intros Hsome.
  destruct (pml_function_bounds (ops := float_ops libm_squares) square_globals
              [0.5%float] (replicate 2 (czero (ops := float_ops libm_squares)))
              square_globals_wf) as [Hiff _].
  apply Hiff in Hsome as [Hx _]. simpl in Hx. lia.
Defined.

(** X12 on the segment [0, 4], at the point 3.5. *)
Lemma stretching_factor_shape_witness :
  exists dxs f,
    pml_function (ops := R_ops bessel_zero) line_globals [3.5%R]
      [czero (ops := R_ops bessel_zero)] = Some dxs /\
    dxs !! 0%nat = Some f /\ real f = 1%R /\ (0 <= imag f)%R.
Proof.
  destruct (stretching_factor_shape bessel_zero line_globals [3.5%R]
              [czero (ops := R_ops bessel_zero)]) as (dxs & Hrun & Hf).
  - exact line_globals_wf.
  - simpl; lia.
  - simpl; lia.
  - simpl; lra.
  - intros i j w Hi Hj Hw. simpl in Hi.
    destruct i as [|i]; [|lia]. destruct j as [|[|j]]; [| |lia];
      vm_compute in Hw; injection Hw as <-; lra.
  - destruct (Hf 0%nat) as (f & Hf0 & Hre & Him); [simpl; lia|].
    exists dxs, f. split; [exact Hrun|]. split; [exact Hf0|]. split; [exact Hre|exact Him].
Defined.

(** X13 on the segment [0, 4], at the face 3 of the computational box. *)
Lemma stretching_continuous_at_faces_witness :
  high_side_test (ops := R_ops bessel_zero) line_globals [3%R] 0 = Some true /\
  exists dxs,
    pml_function (ops := R_ops bessel_zero) line_globals [3%R]
      [czero (ops := R_ops bessel_zero)] = Some dxs /\
    dxs !! 0%nat = Some (Cx 1%R 0%R).
Proof.
  destruct (stretching_continuous_at_faces bessel_zero line_globals [3%R]
              [czero (ops := R_ops bessel_zero)] 0 3%R 1%R 3%R 1%R 1%R)
    as [Htest Hrun].
  - exact line_globals_wf.
  - simpl; lia.
  - simpl; lia.
  - simpl; lia.
  - reflexivity.
  - reflexivity.
  - reflexivity.
  - reflexivity.
  - reflexivity.
  - lra.
  - simpl; lra.
  - lra.
  - lra.
  - right; reflexivity.
  - split; [|exact Hrun].
    destruct Htest as [Hh|Hl]; [exact Hh|].
    unfold low_side_test in Hl. simpl in Hl. injection Hl as Hl.
    apply Rleb_true in Hl. lra.
Defined.

(** X14 on the segment [0, 4], at the point 2. *)
Lemma pml_detJ_inv_inside_witness :
  pml_detJ_inv_Re (ops := R_ops bessel_zero) line_globals [2%R] = Some 1%R /\
  pml_detJ_inv_Im (ops := R_ops bessel_zero) line_globals [2%R] = Some 0%R.
Proof.
  apply (pml_detJ_inv_inside bessel_zero line_globals [2%R]).
  - exact line_globals_wf.
  - simpl; lia.
  - intros i xi lo hi Hi Hxi Hlo Hhi. simpl in Hi. destruct i as [|i]; [|lia].
    vm_compute in Hxi, Hlo, Hhi.
    injection Hxi as <-. injection Hlo as <-. injection Hhi as <-. lra.
Defined.

Lemma line_coefficients_defined : coefficients_defined line_globals [3.5%R].
Proof.
  split; [simpl; lra|].
  intros i xi lo hi wlo whi Hi Hxi Hlo Hhi Hwlo Hwhi. simpl in Hi.
  destruct i as [|i]; [|lia]. vm_compute in Hwlo, Hwhi.
  injection Hwlo as <-. injection Hwhi as <-. split; intros _; lra.
Qed.

(** X15 on the segment [0, 4], at the point 3.5. *)
Lemma pml_detJ_inv_modulus_witness :
  exists re im,
    pml_detJ_inv_Re (ops := R_ops bessel_zero) line_globals [3.5%R] = Some re /\
    pml_detJ_inv_Im (ops := R_ops bessel_zero) line_globals [3.5%R] = Some im /\
    (re * re + im * im <= 1)%R.
Proof.
  apply (pml_detJ_inv_modulus bessel_zero line_globals [3.5%R]).
  - exact line_globals_wf.
  - simpl; lia.
  - exact line_coefficients_defined.
Defined.

(** X16 on the segment [0, 4], at the point 3.5, with the exact complex
    power. *)
Lemma pml_matrices_diagonal_witness :
  exists M,
    pml_detJ_JT_J_inv_Re (ops := R_ops bessel_zero) (cp := cpow_R bessel_zero)
      line_globals [3.5%R] = Some M /\
    diagonal_matrix (ops := R_ops bessel_zero) 1 M.
Proof.
  destruct (pml_matrices_diagonal (ops := R_ops bessel_zero)
              (cp := cpow_R bessel_zero) line_globals [3.5%R]) as [HM _].
  - exact line_globals_wf.
  - simpl; lia.
  - exact HM.
Defined.

(** X17 on the segment [0, 4], at the point 3.5. *)
Lemma pml_matrices_inverse_pair_witness :
  exists A B C E a b c e,
    pml_detJ_JT_J_inv_Re (ops := R_ops bessel_zero) (cp := cpow_R bessel_zero)
      line_globals [3.5%R] = Some A /\
    pml_detJ_JT_J_inv_Im (ops := R_ops bessel_zero) (cp := cpow_R bessel_zero)
      line_globals [3.5%R] = Some B /\
    pml_detJ_inv_JT_J_Re (ops := R_ops bessel_zero) (cp := cpow_R bessel_zero)
      line_globals [3.5%R] = Some C /\
    pml_detJ_inv_JT_J_Im (ops := R_ops bessel_zero) (cp := cpow_R bessel_zero)
      line_globals [3.5%R] = Some E /\
    Mget A 0 0 = Some a /\ Mget B 0 0 = Some b /\
    Mget C 0 0 = Some c /\ Mget E 0 0 = Some e /\
    cmul (ops := R_ops bessel_zero) (Cx a b) (Cx c e) = Cx 1%R 0%R.
Proof.
  destruct (pml_matrices_inverse_pair bessel_zero line_globals [3.5%R])
    as (A & B & C & E & HA & HB & HC & HE & Hd).
  - exact line_globals_wf.
  - simpl; lia.
  - exact line_coefficients_defined.
  - destruct (Hd 0%nat) as (a & b & c & e & Ha & Hb & Hc & He & Hinv); [simpl; lia|].
    exists A, B, C, E, a, b, c, e.
    split; [exact HA|]. split; [exact HB|]. split; [exact HC|]. split; [exact HE|].
    split; [exact Ha|]. split; [exact Hb|]. split; [exact Hc|]. split; [exact He|].
    exact Hinv.
Defined.

(** X18 on the segment [0, 4], at the point 3.5. *)
Lemma pml_matrix_entries_witness :
  exists C E dxs re im c e d,
    pml_detJ_inv_JT_J_Re (ops := R_ops bessel_zero) (cp := cpow_R bessel_zero)
      line_globals [3.5%R] = Some C /\
    pml_detJ_inv_JT_J_Im (ops := R_ops bessel_zero) (cp := cpow_R bessel_zero)
      line_globals [3.5%R] = Some E /\
    pml_function (ops := R_ops bessel_zero) line_globals [3.5%R]
      (replicate 1 (czero (ops := R_ops bessel_zero))) = Some dxs /\
    pml_detJ_inv_Re (ops := R_ops bessel_zero) line_globals [3.5%R] = Some re /\
    pml_detJ_inv_Im (ops := R_ops bessel_zero) line_globals [3.5%R] = Some im /\
    Mget C 0 0 = Some c /\ Mget E 0 0 = Some e /\ dxs !! 0%nat = Some d /\
    Cx c e = cmul (ops := R_ops bessel_zero)
               (cmul (ops := R_ops bessel_zero) d d) (Cx re im).
Proof.
  destruct (pml_matrix_entries bessel_zero line_globals [3.5%R])
    as (A & B & C & E & dxs & re & im & HA & HB & HC & HE & Hdxs & Hre & Him & Hd).
  - exact line_globals_wf.
  - simpl; lia.
  - exact line_coefficients_defined.
  - destruct (Hd 0%nat) as (a & b & c & e & d & _ & _ & Hc & He & Hd0 & Heq & _);
      [simpl; lia|].
    exists C, E, dxs, re, im, c, e, d.
    split; [exact HC|]. split; [exact HE|]. split; [exact Hdxs|].
    split; [exact Hre|]. split; [exact Him|].
    split; [exact Hc|]. split; [exact He|]. split; [exact Hd0|]. exact Heq.
Defined.

(** X19 on the segment [0, 4], at the point 2. *)
Lemma pml_matrices_inside_witness :
  exists A B,
    pml_detJ_JT_J_inv_Re (ops := R_ops bessel_zero) (cp := cpow_R bessel_zero)
      line_globals [2%R] = Some A /\
    pml_detJ_JT_J_inv_Im (ops := R_ops bessel_zero) (cp := cpow_R bessel_zero)
      line_globals [2%R] = Some B /\
    Mget A 0 0 = Some 1%R /\ Mget B 0 0 = Some 0%R.
Proof.
  destruct (pml_matrices_inside bessel_zero line_globals [2%R])
    as (A & B & C & E & HA & HB & _ & _ & Hd).
  - exact line_globals_wf.
  - simpl; lia.
  - intros i xi lo hi Hi Hxi Hlo Hhi. simpl in Hi. destruct i as [|i]; [|lia].
    vm_compute in Hxi, Hlo, Hhi.
    injection Hxi as <-. injection Hlo as <-. injection Hhi as <-. lra.
  - destruct (Hd 0%nat 0%nat) as (Ha & Hb & _); [simpl; lia..|].
    exists A, B. split; [exact HA|]. split; [exact HB|]. split; [exact Ha|exact Hb].
Defined.

(** X22 on the unit square: a vector [f_im] without a first component. *)
Lemma source_im_defined_iff_witness :
  ~ is_Some (source_im (ops := float_ops libm_squares) square_globals
               [0.5; 0.5]%float []).
Proof.
  intros Hsome.
  apply (source_im_defined_iff (ops := float_ops libm_squares) square_globals
           [0.5; 0.5]%float [] square_globals_wf) in Hsome as [_ Hf].
  simpl in Hf. lia.
Defined.

(** X23 on the segment [0, 4], at its centre 2. *)
Lemma source_im_gaussian_witness :
  exists v,
    source_im (ops := R_ops bessel_zero) line_globals [2%R] [0%R] = Some [v] /\
    (0 < v)%R /\ v = (5 * 1 / PI * (5 * 1 / PI) / PI)%R.
Proof.
  destruct (source_im_gaussian bessel_zero line_globals [2%R] [0%R])
    as (v & Hrun & Hpos & Hpeak & _).
  - exact line_globals_wf.
  - simpl; lia.
  - simpl; lia.
  - simpl; lra.
  - exists v. split; [exact Hrun|]. split; [exact Hpos|]. apply Hpeak.
    intros i xi lo hi Hi Hxi Hlo Hhi. simpl in Hi. destruct i as [|i]; [|lia].
    vm_compute in Hxi, Hlo, Hhi.
    injection Hxi as <-. injection Hlo as <-. injection Hhi as <-. lra.
Defined.

(** X24 for [omega] 4, on the wall [x(2) = 0]. *)
Lemma waveguide_mode_closed_form_witness :
  exists e1,
    maxwell_ess_data (ops := R_ops bessel_zero) waveguide_globals_R [0; 0; 0]%R
      (replicate 3 (czero (ops := R_ops bessel_zero)))
      = Some [Cx 0%R 0%R; e1; Cx 0%R 0%R] /\
    e1 = Cx 0%R 0%R.
Proof.
  destruct (waveguide_mode_closed_form bessel_zero waveguide_globals_R 0%R 0%R 0%R
              (replicate 3 (czero (ops := R_ops bessel_zero))))
    as (e1 & Hrun & _ & _ & Hwall).
  - reflexivity.
  - reflexivity.
  - reflexivity.
  - simpl. exact PI_4.
  - exists e1. split; [exact Hrun|]. apply Hwall. left; reflexivity.
Defined.

(** X21 for the rectangular waveguide at a point of the plane. *)
Lemma waveguide_needs_three_coordinates_witness :
  E_bdr_data_Re (ops := float_ops libm_squares) (empty_globals two_pi 2 waveguide)
    [0.5; 0.5]%float [0; 0]%float = None.
Proof.
  destruct (waveguide_needs_three_coordinates (ops := float_ops libm_squares)
              (empty_globals two_pi 2 waveguide) [0.5; 0.5]%float [0; 0]%float [])
    as (_ & Hre & _).
  - left; reflexivity.
  - simpl; lia.
  - exact Hre.
Defined.

(** X25 for the cylindrical waveguide, on the face [x(2) = 0]. *)
Lemma cyl_waveguide_boundary_data_witness :
  E_bdr_data_Re (ops := float_ops libm_squares) (empty_globals two_pi 3 cyl_waveguide)
    [0.5; 0.5; 0]%float [7; 7; 7]%float = Some [1; 1; 0]%float /\
  E_bdr_data_Im (ops := float_ops libm_squares) (empty_globals two_pi 3 cyl_waveguide)
    [0.5; 0.5; 0]%float [7; 7; 7]%float = Some [0; 0; 0]%float.
Proof.
  destruct (cyl_waveguide_boundary_data libm_squares
              (empty_globals two_pi 3 cyl_waveguide) 0.5%float 0.5%float 0%float
              [7; 7; 7]%float) as (Hre & Him & _).
  - reflexivity.
  - reflexivity.
  - reflexivity.
  - split; [exact Hre|exact Him].
Defined.

(** X20 on the unit square with a vector of three components, at a point
    of the outer face. *)
Lemma E_bdr_data_size_witness :
  exists E',
    E_bdr_data_Re (ops := float_ops libm_squares) square_globals [0; 0.5]%float
      [7; 7; 7]%float = Some E' /\
    length E' = 3%nat /\ E' !! 2%nat = Some 0%float.
Proof.
  eexists. split; [vm_compute; reflexivity|].
  destruct (E_bdr_data_size (ops := float_ops libm_squares) square_globals
              [0; 0.5]%float [7; 7; 7]%float [0; 0; 0]%float) as [Hlen Hz].
  - left. vm_compute. reflexivity.
  - split; [exact Hlen|]. apply (Hz 2%nat). simpl; lia.
Defined.

(** X26 for a mesh of the unit square and the frequency 1. *)
Lemma main_setup_load_variant_witness :
  exists g',
    main_setup (ops := float_ops libm_squares) 1%float square_mesh zero_filled
      (empty_globals 0%float 0 scatter) = Some g' /\
    prob g' = load_src /\
    comp_domain_bdr g' = mkArray2D [0.25; 0.75; 0.25; 0.75]%float 2.
Proof.
  destruct (main_setup_load_variant (ops := float_ops libm_squares) 1%float
              square_mesh zero_filled (empty_globals 0%float 0 scatter))
    as (g' & Hrun & Hp & _).
  - simpl; lia.
  - exists g'. split; [exact Hrun|]. split; [exact Hp|].
    vm_compute in Hrun. injection Hrun as <-. reflexivity.
Defined.
